(** * Verification of the slash redirector (api/v1/redirector.go)

    A shallow embedding of the HTTP handler registered by
    [registerRedirectorRoutes], of [redirectToShortcut],
    [createShortcutViewActivity] and [isValidURLString], together with the
    parts of the Go standard library they call ([net/url], [html], [fmt],
    [strings]) and of the echo context they use.

    Go strings are byte sequences: they are modelled by [string], whose
    characters are 8-bit [ascii] values. *)

From Stdlib Require Import String Ascii List ZArith NArith Lia Bool DecimalString.
From stdpp Require Import base gmap strings.
Import ListNotations.

Open Scope string_scope.

(* stdpp keeps [simpl] from unfolding string concatenation; the templates
   of the redirector are concatenations of literals, which should compute. *)
#[global] Arguments String.append !s1 s2 : simpl nomatch.

(** ** Bytes *)

Definition byte_le (a b : ascii) : bool := (N_of_ascii a <=? N_of_ascii b)%N.

Definition between (lo hi c : ascii) : bool := byte_le lo c && byte_le c hi.

Definition is_lower (c : ascii) : bool := between "a" "z" c.
Definition is_upper (c : ascii) : bool := between "A" "Z" c.
Definition is_digit (c : ascii) : bool := between "0" "9" c.
Definition is_alnum (c : ascii) : bool := is_lower c || is_upper c || is_digit c.

(** The double quote byte (0x22). *)
Definition DQ : ascii := ascii_of_nat 34.

(** [c] is one of the bytes of [set] (a Go [switch c { case ... }]). *)
Fixpoint byte_in (c : ascii) (set : string) : bool :=
  match set with
  | EmptyString => false
  | String d set' => Ascii.eqb c d || byte_in c set'
  end.

(** ** Results of fallible Go functions: [(v, nil)] or [(zero, err)] *)

Inductive result (E A : Type) : Type :=
| Ok (v : A)
| Err (e : E).
Arguments Ok {E A} v.
Arguments Err {E A} e.

Definition bind {E A B} (r : result E A) (k : A -> result E B) : result E B :=
  match r with
  | Ok v => k v
  | Err e => Err e
  end.

Notation "'try' x '<-' r ';' k" := (bind r (fun x => k))
  (at level 10, x name, r at level 100, k at level 200).

Definition is_ok {E A} (r : result E A) : bool :=
  match r with Ok _ => true | Err _ => false end.

(** ** Package [strings] *)

Module Strings.

(** [s[i:]] and [s[:i]] and [s[i:j]]. *)
Definition from (i : nat) (s : string) : string :=
  substring i (String.length s - i) s.
Definition upto (i : nat) (s : string) : string := substring 0 i s.
Definition slice (i j : nat) (s : string) : string := substring i (j - i) s.

Definition HasPrefix (s p : string) : bool := String.prefix p s.

Definition HasSuffix (s suffix : string) : bool :=
  (String.length suffix <=? String.length s)%nat
  && String.eqb (from (String.length s - String.length suffix) s) suffix.

(** [strings.Index]: [None] stands for -1. *)
Definition Index (s substr : string) : option nat := index 0 substr s.

Definition Contains (s substr : string) : bool :=
  match Index s substr with Some _ => true | None => false end.

(** [strings.LastIndex]: the last position at which [substr] occurs. *)
Fixpoint LastIndex_at (i : nat) (s substr : string) : option nat :=
  match s with
  | EmptyString => if String.prefix substr s then Some i else None
  | String _ s' =>
      match LastIndex_at (S i) s' substr with
      | Some j => Some j
      | None => if String.prefix substr s then Some i else None
      end
  end.
Definition LastIndex (s substr : string) : option nat := LastIndex_at 0 s substr.

(** [strings.Count(s, string(c))] for a one-byte separator. *)
Fixpoint CountByte (s : string) (c : ascii) : nat :=
  match s with
  | EmptyString => 0
  | String d s' => (if Ascii.eqb d c then 1 else 0) + CountByte s' c
  end.

(** [strings.Cut]: [before, after, found]. *)
Definition Cut (s sep : string) : string * string * bool :=
  match Index s sep with
  | Some i => (upto i s, from (i + String.length sep) s, true)
  | None => (s, "", false)
  end.

Definition lower_byte (c : ascii) : ascii :=
  if is_upper c then ascii_of_N (N_of_ascii c + 32) else c.

(** [strings.ToLower] on ASCII input (the only input it gets here: a
    scheme consists of ASCII letters, digits, [+], [-] and [.]). *)
Fixpoint ToLower (s : string) : string :=
  match s with
  | EmptyString => EmptyString
  | String c s' => String (lower_byte c) (ToLower s')
  end.

(** [strings.Join(elems, sep)]. *)
Fixpoint Join (elems : list string) (sep : string) : string :=
  match elems with
  | [] => ""
  | [e] => e
  | e :: rest => e ++ sep ++ Join rest sep
  end.

End Strings.

(** ** Package [net/url] (Go 1.21): [ParseRequestURI] and what it calls *)

Module NetURL.
Import Strings.

Inductive url_error : Type :=
| ErrMsg (msg : string)            (* errors.New(msg) *)
| EscapeError (s : string)         (* invalid URL escape *)
| InvalidHostError (s : string)    (* invalid character in host name *)
| InvalidPort (colonPort : string) (* invalid port %q after host *).

Inductive encoding : Type :=
| encodePath
| encodePathSegment
| encodeHost
| encodeZone
| encodeUserPassword
| encodeQueryComponent
| encodeFragment.

Definition is_host_mode (mode : encoding) : bool :=
  match mode with encodeHost | encodeZone => true | _ => false end.

Definition is_mode_host (mode : encoding) : bool :=
  match mode with encodeHost => true | _ => false end.

Definition is_mode_zone (mode : encoding) : bool :=
  match mode with encodeZone => true | _ => false end.

Definition is_mode_query (mode : encoding) : bool :=
  match mode with encodeQueryComponent => true | _ => false end.

Definition is_mode_fragment (mode : encoding) : bool :=
  match mode with encodeFragment => true | _ => false end.

Record Userinfo : Type := mkUserinfo {
  username : string;
  password : string;
  passwordSet : bool
}.

Record URL : Type := mkURL {
  Scheme : string;
  Opaque : string;
  User : option Userinfo;
  Host : string;
  Path : string;
  RawPath : string;
  OmitHost : bool;
  ForceQuery : bool;
  RawQuery : string
}.

Definition ishex (c : ascii) : bool :=
  is_digit c || between "a" "f" c || between "A" "F" c.

Definition unhex (c : ascii) : N :=
  if is_digit c then N_of_ascii c - N_of_ascii "0"
  else if between "a" "f" c then N_of_ascii c - N_of_ascii "a" + 10
  else if between "A" "F" c then N_of_ascii c - N_of_ascii "A" + 10
  else 0.

(** The bytes §3.2.2 allows in a host, followed by the double quote. *)
Definition host_allowed : string := String DQ "!$&'()*+,;=:[]<>".

(** [shouldEscape(c, mode)]. *)
Definition shouldEscape (c : ascii) (mode : encoding) : bool :=
  if is_alnum c then false
  else if is_host_mode mode && byte_in c host_allowed then false
  else if byte_in c "-_.~" then false
  else if byte_in c "$&+,/:;=?@" then
    match mode with
    | encodePath => Ascii.eqb c "?"
    | encodePathSegment => byte_in c "/;,?"
    | encodeUserPassword => byte_in c "@/?:"
    | encodeQueryComponent => true
    | encodeFragment => false
    | encodeHost | encodeZone => true
    end
  else if is_mode_fragment mode && byte_in c "!()*" then false
  else true.

Definition hex_byte (h1 h2 : ascii) : ascii :=
  ascii_of_N (N.lor (N.shiftl (unhex h1) 4) (unhex h2)).

(** [unescape(s, mode)]. The source validates the whole string in a first
    loop and builds the result in a second one; both walk the string left
    to right, so a single pass reports the same first error. *)
Fixpoint unescape (s : string) (mode : encoding) : result url_error string :=
  match s with
  | EmptyString => Ok ""
  | String c rest =>
      if Ascii.eqb c "%" then
        match rest with
        | String h1 (String h2 rest') =>
            if negb (ishex h1) || negb (ishex h2) then
              Err (EscapeError (upto 3 s))
            else if is_mode_host mode && (unhex h1 <? 8)%N
                    && negb (String.eqb (upto 3 s) "%25") then
              Err (EscapeError (upto 3 s))
            else if is_mode_zone mode
                    && negb (String.eqb (upto 3 s) "%25")
                    && negb (Ascii.eqb (hex_byte h1 h2) " ")
                    && shouldEscape (hex_byte h1 h2) encodeHost then
              Err (EscapeError (upto 3 s))
            else
              try t <- unescape rest' mode;
              Ok (String (hex_byte h1 h2) t)
        | _ => Err (EscapeError (upto 3 s))
        end
      else if Ascii.eqb c "+" then
        try t <- unescape rest mode;
        Ok (String (if is_mode_query mode then " "%char else "+"%char) t)
      else if is_host_mode mode && (N_of_ascii c <? 128)%N
              && shouldEscape c encodeHost then
        Err (InvalidHostError (String c ""))
      else
        try t <- unescape rest mode;
        Ok (String c t)
  end.

Definition upperhex (n : N) : ascii :=
  match get (N.to_nat n) "0123456789ABCDEF" with
  | Some c => c
  | None => "0"%char
  end.

(** [escape(s, mode)]. *)
Fixpoint escape (s : string) (mode : encoding) : string :=
  match s with
  | EmptyString => ""
  | String c rest =>
      if shouldEscape c mode then
        if Ascii.eqb c " " && is_mode_query mode then
          String "+" (escape rest mode)
        else
          String "%" (String (upperhex (N.shiftr (N_of_ascii c) 4))
                        (String (upperhex (N.land (N_of_ascii c) 15))
                           (escape rest mode)))
      else String c (escape rest mode)
  end.

Definition QueryEscape (s : string) : string := escape s encodeQueryComponent.
Definition PathEscape (s : string) : string := escape s encodePathSegment.

(** [stringContainsCTLByte]. *)
Fixpoint stringContainsCTLByte (s : string) : bool :=
  match s with
  | EmptyString => false
  | String b s' =>
      if (N_of_ascii b <? N_of_ascii " ")%N || (N_of_ascii b =? 127)%N
      then true
      else stringContainsCTLByte s'
  end.

(** The loop of [getScheme], at index [i] with [rest = rawURL[i:]]. *)
Fixpoint getScheme_loop (rawURL : string) (i : nat) (rest : string)
  : result url_error (string * string) :=
  match rest with
  | EmptyString => Ok ("", rawURL)
  | String c rest' =>
      if is_lower c || is_upper c then getScheme_loop rawURL (S i) rest'
      else if is_digit c || byte_in c "+-." then
        if (i =? 0)%nat then Ok ("", rawURL)
        else getScheme_loop rawURL (S i) rest'
      else if Ascii.eqb c ":" then
        if (i =? 0)%nat then Err (ErrMsg "missing protocol scheme")
        else Ok (upto i rawURL, from (i + 1) rawURL)
      else Ok ("", rawURL)
  end.

Definition getScheme (rawURL : string) : result url_error (string * string) :=
  getScheme_loop rawURL 0 rawURL.

(** [validUserinfo]: the source ranges over runes; a byte outside ASCII
    decodes to a rune that is none of the accepted ones. *)
Fixpoint validUserinfo (s : string) : bool :=
  match s with
  | EmptyString => true
  | String r s' =>
      if is_alnum r || byte_in r "-._:~!$&'()*+,;=%@"
      then validUserinfo s'
      else false
  end.

Fixpoint all_digits (s : string) : bool :=
  match s with
  | EmptyString => true
  | String b s' => if is_digit b then all_digits s' else false
  end.

(** [validOptionalPort]. *)
Definition validOptionalPort (port : string) : bool :=
  match port with
  | EmptyString => true
  | String c rest => if Ascii.eqb c ":" then all_digits rest else false
  end.

(** [parseHost]. *)
Definition parseHost (host : string) : result url_error string :=
  if HasPrefix host "[" then
    match LastIndex host "]" with
    | None => Err (ErrMsg "missing ']' in host")
    | Some i =>
        let colonPort := from (i + 1) host in
        if negb (validOptionalPort colonPort) then Err (InvalidPort colonPort)
        else
          match Index (upto i host) "%25" with
          | Some zone =>
              try host1 <- unescape (upto zone host) encodeHost;
              try host2 <- unescape (slice zone i host) encodeZone;
              try host3 <- unescape (from i host) encodeHost;
              Ok (host1 ++ host2 ++ host3)
          | None => unescape host encodeHost
          end
    end
  else
    match LastIndex host ":" with
    | Some i =>
        let colonPort := from i host in
        if negb (validOptionalPort colonPort) then Err (InvalidPort colonPort)
        else unescape host encodeHost
    | None => unescape host encodeHost
    end.

(** [parseAuthority]. *)
Definition parseAuthority (authority : string)
  : result url_error (option Userinfo * string) :=
  match LastIndex authority "@" with
  | None =>
      try host <- parseHost authority;
      Ok (None, host)
  | Some i =>
      try host <- parseHost (from (i + 1) authority);
      let userinfo := upto i authority in
      if negb (validUserinfo userinfo) then
        Err (ErrMsg "net/url: invalid userinfo")
      else if negb (Contains userinfo ":") then
        try u <- unescape userinfo encodeUserPassword;
        Ok (Some (mkUserinfo u "" false), host)
      else
        let '(uname, pass, _) := Cut userinfo ":" in
        try u <- unescape uname encodeUserPassword;
        try p <- unescape pass encodeUserPassword;
        Ok (Some (mkUserinfo u p true), host)
  end.

(** [URL.setPath]: the unescaped path, and the raw path when the
    default encoding of the path differs from the input. *)
Definition setPath (p : string) : result url_error (string * string) :=
  try path <- unescape p encodePath;
  if String.eqb p (escape path encodePath) then Ok (path, "")
  else Ok (path, p).

(** The second half of [parse], from the test for a leading slash on: what
    remains once the scheme and the query have been split off. *)
Definition parse_rest (scheme rest : string) (forceQuery : bool)
    (rawQuery : string) (viaRequest : bool) : result url_error URL :=
  let has_scheme := negb (String.eqb scheme "") in
  if negb (HasPrefix rest "/") && has_scheme then
    (* rootless paths are opaque *)
    Ok (mkURL scheme rest None "" "" "" false forceQuery rawQuery)
  else if negb (HasPrefix rest "/") && viaRequest then
    Err (ErrMsg "invalid URI for request")
  else if negb (HasPrefix rest "/")
          && Contains (fst (fst (Cut rest "/"))) ":" then
    Err (ErrMsg "first path segment in URL cannot contain colon")
  else if (has_scheme || negb viaRequest && negb (HasPrefix rest "///"))
          && HasPrefix rest "//" then
    let authority0 := from 2 rest in
    let '(authority, rest') :=
      match Index authority0 "/" with
      | Some i => (upto i authority0, from i authority0)
      | None => (authority0, "")
      end in
    try uh <- parseAuthority authority;
    try pr <- setPath rest';
    Ok (mkURL scheme "" (fst uh) (snd uh) (fst pr) (snd pr) false
          forceQuery rawQuery)
  else
    try pr <- setPath rest;
    Ok (mkURL scheme "" None "" (fst pr) (snd pr)
          (has_scheme && HasPrefix rest "/") forceQuery rawQuery).

(** [parse(rawURL, viaRequest)]. *)
Definition parse (rawURL : string) (viaRequest : bool) : result url_error URL :=
  if stringContainsCTLByte rawURL then
    Err (ErrMsg "net/url: invalid control character in URL")
  else if String.eqb rawURL "" && viaRequest then Err (ErrMsg "empty url")
  else if String.eqb rawURL "*" then
    Ok (mkURL "" "" None "" "*" "" false false "")
  else
    try sr <- getScheme rawURL;
    let scheme := ToLower (fst sr) in
    let rest := snd sr in
    if HasSuffix rest "?" && (CountByte rest "?" =? 1)%nat then
      parse_rest scheme (upto (String.length rest - 1) rest) true "" viaRequest
    else
      let '(before, after, _) := Cut rest "?" in
      parse_rest scheme before false after viaRequest.

(** [url.ParseRequestURI]. *)
Definition ParseRequestURI (rawURL : string) : result url_error URL :=
  parse rawURL true.

End NetURL.

(** ** Package [html] *)

Module Html.

(** The replacement [html.EscapeString] makes for one byte. *)
Definition escape_byte (c : ascii) : string :=
  if Ascii.eqb c "&" then "&amp;"
  else if Ascii.eqb c "'" then "&#39;"
  else if Ascii.eqb c "<" then "&lt;"
  else if Ascii.eqb c ">" then "&gt;"
  else if Ascii.eqb c DQ then "&#34;"
  else String c "".

(** [html.EscapeString]. *)
Fixpoint EscapeString (s : string) : string :=
  match s with
  | EmptyString => ""
  | String c s' => escape_byte c ++ EscapeString s'
  end.

End Html.

(** ** Package [fmt] *)

Module Fmt.

(** What [Sprintf] appends for operands no verb consumed. *)
Definition extra (a : list string) : string :=
  match a with
  | [] => ""
  | _ => "%!(EXTRA " ++ Strings.Join (map (fun x => "string=" ++ x) a) ", " ++ ")"
  end.

(** [fmt.Sprintf] for formats whose only verb is [%s] and whose operands
    are strings. *)
Fixpoint Sprintf (format : string) (a : list string) : string :=
  match format with
  | EmptyString => extra a
  | String c rest =>
      if Ascii.eqb c "%" then
        match rest with
        | EmptyString => "%!(NOVERB)" ++ extra a
        | String v rest' =>
            if Ascii.eqb v "s" then
              match a with
              | x :: a' => x ++ Sprintf rest' a'
              | [] => "%!s(MISSING)" ++ Sprintf rest' []
              end
            else String c (String v (Sprintf rest' a))
        end
      else String c (Sprintf rest a)
  end.

End Fmt.

(** Templates of the source contain the double-quote byte. They are written
    here with ['] in its place, and [quoted] puts the byte 0x22 back; no
    template of the source contains a ['] of its own. *)
Fixpoint quoted (template : string) : string :=
  match template with
  | EmptyString => ""
  | String c rest => String (if Ascii.eqb c "'" then DQ else c) (quoted rest)
  end.

(** ** Status codes of [net/http] *)

Definition StatusOK : Z := 200.
Definition StatusSeeOther : Z := 303.
Definition StatusBadRequest : Z := 400.
Definition StatusUnauthorized : Z := 401.
Definition StatusInternalServerError : Z := 500.

(** ** Errors *)

(** A Go [error], by its message. *)
Definition error : Type := string.

(** [errors.Wrap(err, message)]. *)
Definition errors_Wrap (err : error) (message : string) : error :=
  message ++ ": " ++ err.

(** ** Store types ([storepb] and [store]) *)

(** Modelled from the spec: the enum [storepb.Visibility], generated from
    the protobuf schema: [PUBLIC], [PRIVATE], [WORKSPACE], and the
    unspecified zero value of a protobuf enum. *)
Inductive Visibility : Type :=
| Visibility_VISIBILITY_UNSPECIFIED
| Visibility_PRIVATE
| Visibility_WORKSPACE
| Visibility_PUBLIC.

Definition Visibility_eqb (a b : Visibility) : bool :=
  match a, b with
  | Visibility_VISIBILITY_UNSPECIFIED, Visibility_VISIBILITY_UNSPECIFIED
  | Visibility_PRIVATE, Visibility_PRIVATE
  | Visibility_WORKSPACE, Visibility_WORKSPACE
  | Visibility_PUBLIC, Visibility_PUBLIC => true
  | _, _ => false
  end.

(** Modelled from the spec: [storepb.OpenGraphMetadata], three possibly
    empty strings. *)
Record OpenGraphMetadata : Type := mkOpenGraphMetadata {
  Title : string;
  Description : string;
  Image : string
}.

(** Modelled from the spec: the fields of [storepb.Shortcut] the redirector
    reads. [Id] and [CreatorId] are [int32]; [OgMetadata] is a pointer that
    may be nil. *)
Record Shortcut : Type := mkShortcut {
  Id : Z;
  CreatorId : Z;
  Name : string;
  Link : string;
  Visibility_ : Visibility;
  OgMetadata : option OpenGraphMetadata
}.

(** [store.FindShortcut]: the redirector sets only [Name]. *)
Record FindShortcut : Type := mkFindShortcut {
  FindName : option string
}.

Inductive ActivityType : Type := ActivityShortcutView.
Inductive ActivityLevel : Type := ActivityInfo.

(** [store.Activity], as [createShortcutViewActivity] fills it. *)
Record Activity : Type := mkActivity {
  CreatorID : Z;
  Type_ : ActivityType;
  Level : ActivityLevel;
  Payload : string
}.

Record ActivityShorcutViewPayload : Type := mkPayload {
  ShortcutID : Z;
  IP : string;
  PayloadReferer : string;
  PayloadUserAgent : string
}.

(** The two methods of [*store.Store] the redirector calls, over a store
    state [S]: each returns the state after the call and the Go result. *)
Class StoreAPI (S : Type) : Type := {
  GetShortcut : S -> FindShortcut -> S * result error (option Shortcut);
  CreateActivity : S -> Activity -> S * result error Activity
}.

(** ** The echo context *)

(** A Go [interface{}] value held in the context store. *)
Inductive any : Type :=
| AnyNil
| AnyInt32 (v : Z)
| AnyInt (v : Z)
| AnyString (v : string).

(** The comma-ok type assertion [v.(int32)]. *)
Definition assert_int32 (v : any) : Z * bool :=
  match v with
  | AnyInt32 n => (n, true)
  | _ => (0%Z, false)
  end.

Record echo_Context : Type := mkContext {
  ParamValues : list string;         (* c.ParamValues() *)
  values : gmap string any;          (* the map behind c.Get / c.Set *)
  RealIP : string;                   (* c.RealIP() *)
  Referer : string;                  (* c.Request().Referer() *)
  UserAgent : string                 (* c.Request().UserAgent() *)
}.

(** [c.Get(key)]: a missing key reads as the nil interface. *)
Definition Get (c : echo_Context) (key : string) : any :=
  match values c !! key with
  | Some v => v
  | None => AnyNil
  end.

(** The same request with another context store. *)
Definition with_values (c : echo_Context) (m : gmap string any) : echo_Context :=
  mkContext (ParamValues c) m (RealIP c) (Referer c) (UserAgent c).

(** What a handler returns when it does not return nil. *)
Inductive handler_error : Type :=
| HTTPError (code : Z) (message : string) (internal : option error)
| PlainError (err : error).

Definition NewHTTPError (code : Z) (message : string) : handler_error :=
  HTTPError code message None.

Definition SetInternal (he : handler_error) (err : error) : handler_error :=
  match he with
  | HTTPError code message _ => HTTPError code message (Some err)
  | PlainError e => PlainError e
  end.

(** The response a handler wrote before returning nil. *)
Inductive Response : Type :=
| Redirected (code : Z) (location : string)   (* c.Redirect *)
| PlainText (code : Z) (body : string)        (* c.String *)
| HTMLPage (code : Z) (body : string)         (* c.HTML *).

(** [c.Redirect(code, url)]. *)
Definition Redirect (code : Z) (url : string) : result handler_error Response :=
  if (code <? 300)%Z || (308 <? code)%Z
  then Err (PlainError "invalid redirect status code")
  else Ok (Redirected code url).

(** [c.String(code, s)] and [c.HTML(code, html)]. The write to the
    connection is taken to succeed: the error of the response writer, which
    both calls pass on, is not modelled. *)
Definition String_ (code : Z) (s : string) : result handler_error Response :=
  Ok (PlainText code s).

Definition HTML (code : Z) (html : string) : result handler_error Response :=
  Ok (HTMLPage code html).

(** Calls that leave the handler. *)
Inductive Event : Type :=
| EvGetShortcut (find : FindShortcut)
| EvCreateActivity (activity : Activity)
| EvMetric (name : string).

Definition is_store_call (e : Event) : bool :=
  match e with EvMetric _ => false | _ => true end.

Definition is_activity_write (e : Event) : bool :=
  match e with EvCreateActivity _ => true | _ => false end.

Record Outcome (S : Type) : Type := mkOutcome {
  final : S;                                    (* the store afterwards *)
  trace : list Event;                           (* calls made, in order *)
  returned : result handler_error Response
}.
Arguments mkOutcome {S} final trace returned.
Arguments final {S} o.
Arguments trace {S} o.
Arguments returned {S} o.

(** ** api/v1/redirector.go *)

(** [isValidURLString]. *)
Definition isValidURLString (s : string) : bool :=
  is_ok (NetURL.ParseRequestURI s).

Definition htmlTemplate : string := "<html><head>%s</head><body>%s</body></html>".

(** The [metadataList] of [redirectToShortcut], after the conditional
    [append]. *)
Definition metadataList (og : OpenGraphMetadata) (link : string)
    (isValidURL : bool) : list string :=
  [ Fmt.Sprintf "<title>%s</title>" [Title og];
    Fmt.Sprintf (quoted "<meta name='description' content='%s' />") [Description og];
    Fmt.Sprintf (quoted "<meta property='og:title' content='%s' />") [Title og];
    Fmt.Sprintf (quoted "<meta property='og:description' content='%s' />") [Description og];
    Fmt.Sprintf (quoted "<meta property='og:image' content='%s' />") [Image og];
    quoted "<meta property='og:type' content='website' />";
    Fmt.Sprintf (quoted "<meta name='twitter:title' content='%s' />") [Title og];
    Fmt.Sprintf (quoted "<meta name='twitter:description' content='%s' />") [Description og];
    Fmt.Sprintf (quoted "<meta name='twitter:image' content='%s' />") [Image og];
    quoted "<meta name='twitter:card' content='summary_large_image' />" ]
  ++ (if isValidURL
      then [Fmt.Sprintf (quoted "<meta property='og:url' content='%s' />") [link]]
      else []).

(** The [body] of [redirectToShortcut]. *)
Definition pageBody (link : string) (isValidURL : bool) : string :=
  if isValidURL
  then Fmt.Sprintf (quoted "<script>window.location.href = '%s';</script>") [link]
  else Html.EscapeString link.

(** [redirectToShortcut]. *)
Definition redirectToShortcut (shortcut : Shortcut) : result handler_error Response :=
  let isValidURL := isValidURLString (Link shortcut) in
  match OgMetadata shortcut with
  | None =>
      if isValidURL then Redirect StatusSeeOther (Link shortcut)
      else String_ StatusOK (Link shortcut)
  | Some og =>
      if String.eqb (Title og) "" && String.eqb (Description og) ""
         && String.eqb (Image og) "" then
        if isValidURL then Redirect StatusSeeOther (Link shortcut)
        else String_ StatusOK (Link shortcut)
      else
        let htmlString :=
          Fmt.Sprintf htmlTemplate
            [Strings.Join (metadataList og (Link shortcut) isValidURL) "";
             pageBody (Link shortcut) isValidURL] in
        HTML StatusOK htmlString
  end.

Section Redirector.

Context {S : Type} `{StoreAPI S}.

(** [json.Marshal] on the payload struct. *)
Variable json_Marshal : ActivityShorcutViewPayload -> result error string.

(** Constants of package [v1] declared outside redirector.go. *)
Variable BotID : Z.
Variable userIDContextKey : string.

(** [createShortcutViewActivity]. *)
Definition createShortcutViewActivity (s : S) (c : echo_Context)
    (shortcut : Shortcut) : S * list Event * result error unit :=
  let payload := mkPayload (Id shortcut) (RealIP c) (Referer c) (UserAgent c) in
  match json_Marshal payload with
  | Err err => (s, [], Err (errors_Wrap err "Failed to marshal activity payload"))
  | Ok payloadStr =>
      let activity := mkActivity BotID ActivityShortcutView ActivityInfo payloadStr in
      let '(s', r) := CreateActivity s activity in
      (s', [EvCreateActivity activity],
       match r with
       | Err err => Err (errors_Wrap err "Failed to create activity")
       | Ok _ => Ok tt
       end)
  end.

(** The visibility check of the handler: [None] when the request may
    proceed, the error returned otherwise. *)
Definition checkVisibility (c : echo_Context) (shortcut : Shortcut)
  : option handler_error :=
  if negb (Visibility_eqb (Visibility_ shortcut) Visibility_PUBLIC) then
    let '(userID, ok) := assert_int32 (Get c userIDContextKey) in
    if negb ok then Some (NewHTTPError StatusUnauthorized "Unauthorized")
    else if Visibility_eqb (Visibility_ shortcut) Visibility_PRIVATE
            && negb (CreatorId shortcut =? userID)%Z then
      Some (NewHTTPError StatusUnauthorized "Unauthorized")
    else None
  else None.

(** The handler [registerRedirectorRoutes] registers for [GET /*]. *)
Definition handler (s : S) (c : echo_Context) : Outcome S :=
  match ParamValues c with
  | [] => mkOutcome s [] (Err (NewHTTPError StatusBadRequest "invalid shortcut name"))
  | shortcutName :: _ =>
      let find := mkFindShortcut (Some shortcutName) in
      let '(s1, r) := GetShortcut s find in
      match r with
      | Err err =>
          mkOutcome s1 [EvGetShortcut find]
            (Err (SetInternal
                    (NewHTTPError StatusInternalServerError
                       (Fmt.Sprintf "failed to get shortcut, err: %s" [err]))
                    err))
      | Ok None =>
          mkOutcome s1 [EvGetShortcut find]
            (Redirect StatusSeeOther
               (Fmt.Sprintf "/404?shortcut=%s" [shortcutName]))
      | Ok (Some shortcut) =>
          match checkVisibility c shortcut with
          | Some e => mkOutcome s1 [EvGetShortcut find] (Err e)
          | None =>
              let '(s2, evs, r2) := createShortcutViewActivity s1 c shortcut in
              match r2 with
              | Err err =>
                  mkOutcome s2 (EvGetShortcut find :: evs)
                    (Err (SetInternal
                            (NewHTTPError StatusInternalServerError
                               (Fmt.Sprintf "failed to create activity, err: %s" [err]))
                            err))
              | Ok _ =>
                  mkOutcome s2
                    (EvGetShortcut find :: evs ++ [EvMetric "shortcut redirect"])
                    (redirectToShortcut shortcut)
              end
          end
      end
  end.

(** The rest of the handler once the lookup has returned [shortcut]
    (lines 36 to 51), with the store [s1] the lookup left. *)
Definition after_lookup (s1 : S) (c : echo_Context) (shortcutName : string)
    (shortcut : Shortcut) : Outcome S :=
  let find := mkFindShortcut (Some shortcutName) in
  match checkVisibility c shortcut with
  | Some e => mkOutcome s1 [EvGetShortcut find] (Err e)
  | None =>
      let '(s2, evs, r2) := createShortcutViewActivity s1 c shortcut in
      match r2 with
      | Err err =>
          mkOutcome s2 (EvGetShortcut find :: evs)
            (Err (HTTPError StatusInternalServerError
                    ("failed to create activity, err: " ++ err) (Some err)))
      | Ok _ =>
          mkOutcome s2
            (EvGetShortcut find :: evs ++ [EvMetric "shortcut redirect"])
            (redirectToShortcut shortcut)
      end
  end.

End Redirector.

(** ** Notions the specification uses *)

(** The metadata is present when at least one of its three fields is
    non-empty; a nil pointer and an all-empty struct are both absent. *)
Definition ogMetadata_present (o : option OpenGraphMetadata) : Prop :=
  exists og, o = Some og /\ (Title og <> "" \/ Description og <> "" \/ Image og <> "").

(** [sub] occurs in [s]. *)
Definition occurs_in (sub s : string) : Prop :=
  exists pre post, s = pre ++ sub ++ post.

(** The link parses as a request URI that has a scheme and an authority. *)
Definition has_scheme_and_authority (s : string) : Prop :=
  exists u, NetURL.ParseRequestURI s = Ok u
            /\ NetURL.Scheme u <> "" /\ NetURL.Host u <> "".

(** The caller identity of a request: the [int32] stored under [key] by the
    authentication middleware, if any. *)
Definition callerIdentity (key : string) (c : echo_Context) : option Z :=
  match assert_int32 (Get c key) with
  | (userID, true) => Some userID
  | (_, false) => None
  end.

Definition Unauthorized : handler_error :=
  HTTPError StatusUnauthorized "Unauthorized" None.

Definition InvalidRequest : handler_error :=
  HTTPError StatusBadRequest "invalid shortcut name" None.

(** A tag of the page is an [og:url] tag, a [twitter:image] tag. *)
Definition is_og_url_tag (t : string) : bool :=
  Strings.HasPrefix t (quoted "<meta property='og:url'").

Definition is_twitter_image_tag (t : string) : bool :=
  Strings.HasPrefix t (quoted "<meta name='twitter:image'").

(** ** An in-memory store, to run the handler on concrete requests *)

(** Modelled from the spec: the shortcut and activity store, an external
    collaborator of the redirector with [GetShortcut(name) -> Shortcut |
    not-found] by exact name match and [CreateActivity(record) -> ok |
    error]; either call can be made to fail. *)
Record MemStore : Type := mkMemStore {
  shortcuts : list Shortcut;
  activities : list Activity;
  lookupFailure : option error;
  writeFailure : option error
}.

Definition matches (find : FindShortcut) (sc : Shortcut) : bool :=
  match FindName find with
  | Some n => String.eqb (Name sc) n
  | None => true
  end.

Definition mem_GetShortcut (s : MemStore) (find : FindShortcut)
  : MemStore * result error (option Shortcut) :=
  match lookupFailure s with
  | Some e => (s, Err e)
  | None => (s, Ok (List.find (matches find) (shortcuts s)))
  end.

Definition mem_CreateActivity (s : MemStore) (a : Activity)
  : MemStore * result error Activity :=
  match writeFailure s with
  | Some e => (s, Err e)
  | None =>
      (mkMemStore (shortcuts s) (activities s ++ [a]) (lookupFailure s)
         (writeFailure s), Ok a)
  end.

#[export] Instance MemStoreAPI : StoreAPI MemStore :=
  {| GetShortcut := mem_GetShortcut; CreateActivity := mem_CreateActivity |}.

(** A stand-in for [json.Marshal] on payloads whose strings need no JSON
    escaping; it never fails. *)
Definition marshal_plain (p : ActivityShorcutViewPayload) : result error string :=
  Ok (quoted "{'shortcutId':"
      ++ DecimalString.NilZero.string_of_int (Z.to_int (ShortcutID p))
      ++ quoted ",'ip':'" ++ IP p
      ++ quoted "','referer':'" ++ PayloadReferer p
      ++ quoted "','userAgent':'" ++ PayloadUserAgent p ++ quoted "'}").

(** The handler over the in-memory store, with [BotID = 0] and the context
    key ["user-id"]. *)
Definition serve (s : MemStore) (c : echo_Context) : Outcome MemStore :=
  handler marshal_plain 0%Z "user-id" s c.

(** Requests: unauthenticated, and authenticated as [uid]. *)
Definition anonymous (name : string) : echo_Context :=
  mkContext [name] ∅ "203.0.113.7" "" "curl/8".

Definition signed_in (uid : Z) (name : string) : echo_Context :=
  mkContext [name] (<["user-id" := AnyInt32 uid]> ∅) "203.0.113.7" "" "curl/8".

Definition store_of (l : list Shortcut) : MemStore := mkMemStore l [] None None.

(** The tags the specification expects in the head of the page. *)
Definition dq : string := String DQ "".

Definition title_tag (t : string) : string := "<title>" ++ t ++ "</title>".

Definition meta_tag (attr key content : string) : string :=
  "<meta " ++ attr ++ "=" ++ dq ++ key ++ dq
  ++ " content=" ++ dq ++ content ++ dq ++ " />".

Definition redirect_script (link : string) : string :=
  "<script>window.location.href = " ++ dq ++ link ++ dq ++ ";</script>".

Definition page (head body : string) : string :=
  "<html><head>" ++ head ++ "</head><body>" ++ body ++ "</body></html>".

(** Shortcuts used as concrete inputs. *)
Definition example_com : string := "https://example.com".

Definition sc_public : Shortcut :=
  mkShortcut 1 1 "pub" example_com Visibility_PUBLIC None.

Definition sc_empty_metadata : Shortcut :=
  mkShortcut 2 1 "empty" example_com Visibility_PUBLIC
    (Some (mkOpenGraphMetadata "" "" "")).

Definition sc_preview : Shortcut :=
  mkShortcut 3 1 "preview" example_com Visibility_PUBLIC
    (Some (mkOpenGraphMetadata "T" "D" "")).

Definition sc_raw_preview : Shortcut :=
  mkShortcut 4 1 "note" "not a url" Visibility_PUBLIC
    (Some (mkOpenGraphMetadata "T" "D" "")).

Definition sc_workspace : Shortcut :=
  mkShortcut 5 1 "team" example_com Visibility_WORKSPACE None.

Definition sc_private : Shortcut :=
  mkShortcut 6 1 "mine" example_com Visibility_PRIVATE None.

Definition sc_script_title : Shortcut :=
  mkShortcut 7 1 "x" example_com Visibility_PUBLIC
    (Some (mkOpenGraphMetadata "<script>alert(1)</script>" "" "")).

Definition demo_store : MemStore :=
  store_of [sc_public; sc_empty_metadata; sc_preview; sc_raw_preview;
            sc_workspace; sc_private; sc_script_title].

(** ** Where a tag can start in a page *)

(** The text every [og:url] tag starts with. *)
Definition og_url_marker : string := quoted "<meta property='og:url'".

(** A shortcut whose link is not well-formed and whose title closes the
    [title] element and goes on with an [og:url] tag. *)
Definition sc_inject : Shortcut :=
  mkShortcut 8 1 "inject" "not a url" Visibility_PUBLIC
    (Some (mkOpenGraphMetadata
             (quoted "</title><meta property='og:url' content='https://evil.example/' /><title>")
             "" "")).

(** A page as the pieces it is put together from: text of the templates,
    and values copied in. *)
Inductive piece : Type :=
| Template (text : string)
| Copied (value : string).

Definition piece_text (p : piece) : string :=
  match p with
  | Template text => text
  | Copied value => value
  end.

Fixpoint assemble (pieces : list piece) : string :=
  match pieces with
  | [] => ""
  | p :: rest => piece_text p ++ assemble rest
  end.

(** [a] and [b] agree as far as both go. *)
Fixpoint agree (a b : string) : bool :=
  match a, b with
  | String x a', String y b' => Ascii.eqb x y && agree a' b'
  | _, _ => true
  end.

(** [m] starts nowhere in the template text [t]: at no position of [t] does
    [m] agree with what is left of [t], so that [m] neither occurs in [t]
    nor begins in [t] to run over its end. *)
Fixpoint starts_nowhere (m t : string) : bool :=
  match t with
  | EmptyString => true
  | String _ t' => negb (agree m t) && starts_nowhere m t'
  end.

(** A piece in which no text beginning with [<] can start: a template in
    which [m] starts nowhere, or a copied value without the byte [<]. *)
Definition closed_to (m : string) (p : piece) : Prop :=
  match p with
  | Template text => starts_nowhere m text = true
  | Copied value => byte_in "<"%char value = false
  end.

(** The pieces of the page [redirectToShortcut] renders for a link that is
    not well-formed. *)
Definition raw_link_page (og : OpenGraphMetadata) (link : string) : list piece :=
  [ Template "<html><head><title>"; Copied (Title og);
    Template (quoted "</title><meta name='description' content='");
    Copied (Description og);
    Template (quoted "' /><meta property='og:title' content='");
    Copied (Title og);
    Template (quoted "' /><meta property='og:description' content='");
    Copied (Description og);
    Template (quoted "' /><meta property='og:image' content='");
    Copied (Image og);
    Template (quoted "' /><meta property='og:type' content='website' /><meta name='twitter:title' content='");
    Copied (Title og);
    Template (quoted "' /><meta name='twitter:description' content='");
    Copied (Description og);
    Template (quoted "' /><meta name='twitter:image' content='");
    Copied (Image og);
    Template (quoted "' /><meta name='twitter:card' content='summary_large_image' /></head><body>");
    Copied (Html.EscapeString link);
    Template "</body></html>" ].

(** ** The ways out of the handler *)

(** The bytes that open or close markup or an attribute value. *)
Definition markup_bytes : string := String DQ "<>'".

(** A name made of unreserved characters only (letters, digits, [-], [_],
    [.], [~]). *)
Fixpoint unreserved_only (s : string) : bool :=
  match s with
  | EmptyString => true
  | String c s' => (is_alnum c || byte_in c "-_.~") && unreserved_only s'
  end.

(** The payload and the activity [createShortcutViewActivity] builds, and
    the error the handler returns when a collaborator fails. *)
Definition viewPayload (c : echo_Context) (sc : Shortcut) : ActivityShorcutViewPayload :=
  mkPayload (Id sc) (RealIP c) (Referer c) (UserAgent c).

Definition viewActivity (BotID : Z) (payloadStr : string) : Activity :=
  mkActivity BotID ActivityShortcutView ActivityInfo payloadStr.

Definition internal_error (what : string) (err : error) : handler_error :=
  HTTPError StatusInternalServerError (what ++ err) (Some err).

Section HandlerEndings.

Context {S : Type} `{StoreAPI S}.
Variable json_Marshal : ActivityShorcutViewPayload -> result error string.
Variable BotID : Z.
Variable key : string.

Let find (name : string) := mkFindShortcut (Some name).

(** The ways out of the handler, each with the outcome it leaves. *)
Inductive ending (s : S) (c : echo_Context) : Outcome S -> Prop :=
| end_no_param :
    ParamValues c = [] ->
    ending s c (mkOutcome s [] (Err InvalidRequest))
| end_lookup_failed name rest s1 err :
    ParamValues c = name :: rest ->
    GetShortcut s (find name) = (s1, Err err) ->
    ending s c
      (mkOutcome s1 [EvGetShortcut (find name)]
         (Err (internal_error "failed to get shortcut, err: " err)))
| end_not_found name rest s1 :
    ParamValues c = name :: rest ->
    GetShortcut s (find name) = (s1, Ok None) ->
    ending s c
      (mkOutcome s1 [EvGetShortcut (find name)]
         (Ok (Redirected 303 ("/404?shortcut=" ++ name))))
| end_refused name rest s1 sc e :
    ParamValues c = name :: rest ->
    GetShortcut s (find name) = (s1, Ok (Some sc)) ->
    checkVisibility key c sc = Some e ->
    ending s c (mkOutcome s1 [EvGetShortcut (find name)] (Err Unauthorized))
| end_marshal_failed name rest s1 sc err :
    ParamValues c = name :: rest ->
    GetShortcut s (find name) = (s1, Ok (Some sc)) ->
    checkVisibility key c sc = None ->
    json_Marshal (viewPayload c sc) = Err err ->
    ending s c
      (mkOutcome s1 [EvGetShortcut (find name)]
         (Err (internal_error "failed to create activity, err: "
                 (errors_Wrap err "Failed to marshal activity payload"))))
| end_write_failed name rest s1 sc payloadStr s2 err :
    ParamValues c = name :: rest ->
    GetShortcut s (find name) = (s1, Ok (Some sc)) ->
    checkVisibility key c sc = None ->
    json_Marshal (viewPayload c sc) = Ok payloadStr ->
    CreateActivity s1 (viewActivity BotID payloadStr) = (s2, Err err) ->
    ending s c
      (mkOutcome s2
         [EvGetShortcut (find name); EvCreateActivity (viewActivity BotID payloadStr)]
         (Err (internal_error "failed to create activity, err: "
                 (errors_Wrap err "Failed to create activity"))))
| end_rendered name rest s1 sc payloadStr s2 a' :
    ParamValues c = name :: rest ->
    GetShortcut s (find name) = (s1, Ok (Some sc)) ->
    checkVisibility key c sc = None ->
    json_Marshal (viewPayload c sc) = Ok payloadStr ->
    CreateActivity s1 (viewActivity BotID payloadStr) = (s2, Ok a') ->
    ending s c
      (mkOutcome s2
         [EvGetShortcut (find name); EvCreateActivity (viewActivity BotID payloadStr);
          EvMetric "shortcut redirect"]
         (redirectToShortcut sc)).

End HandlerEndings.

(** The activity a view of [sc_public] by [anonymous] writes. *)
Definition view_of_pub : Activity :=
  viewActivity 0
    (quoted "{'shortcutId':1,'ip':'203.0.113.7','referer':'','userAgent':'curl/8'}").


(** ** store/user.go *)

Module UserStore.

(** [type RowStatus string], declared with the other common store types. *)
Definition RowStatus : Type := string.

(** [type Role string] and its two values. *)
Definition Role : Type := string.
Definition RoleAdmin : Role := "ADMIN".
Definition RoleUser : Role := "USER".

Record User : Type := mkUser {
  ID : Z;
  CreatedTs : Z;
  UpdatedTs : Z;
  RowStatus_ : RowStatus;
  Email : string;
  Nickname : string;
  PasswordHash : string;
  Role_ : Role
}.

(** The struct [UpdateUser] (the method of the same name follows): a nil
    pointer field is [None]. *)
Record UpdateUser_ : Type := mkUpdateUser {
  UpdateID : Z;
  UpdateRowStatus : option RowStatus;
  UpdateEmail : option string;
  UpdateNickname : option string;
  UpdatePasswordHash : option string;
  UpdateRole : option Role
}.

Record FindUser : Type := mkFindUser {
  FindID : option Z;
  FindRowStatus : option RowStatus;
  FindEmail : option string;
  FindNickname : option string;
  FindRole : option Role
}.

(** The struct [DeleteUser]. *)
Record DeleteUser_ : Type := mkDeleteUser {
  DeleteID : Z
}.

(** An element of a [[]any] argument list, by its dynamic type. *)
Inductive sql_arg : Type :=
| ArgInt32 (v : Z)
| ArgString (v : string)
| ArgRowStatus (v : RowStatus)
| ArgRole (v : Role).

(** The SQL texts, byte for byte (the raw string literals of the source
    keep their line breaks and tabs). *)
Definition createUserStmt : string := "
		INSERT INTO user (
			email,
			nickname,
			password_hash,
			role
		)
		VALUES (?, ?, ?, ?)
		RETURNING id, created_ts, updated_ts, row_status
	".

Definition updateUserHead : string := "
		UPDATE user
		SET ".

Definition updateUserTail : string := "
		WHERE id = ?
		RETURNING id, created_ts, updated_ts, row_status, email, nickname, password_hash, role
	".

Definition listUsersHead : string := "
		SELECT 
			id,
			created_ts,
			updated_ts,
			row_status,
			email,
			nickname,
			password_hash,
			role
		FROM user
		WHERE ".

Definition listUsersTail : string := "
		ORDER BY updated_ts DESC, created_ts DESC
	".

Definition deleteUserStmt : string := "
		DELETE FROM user WHERE id = ?
	".

(** Calls on the database handle, in the order they are made. *)
Inductive db_call : Type :=
| CallQueryRow (stmt : string) (args : list sql_arg)   (* db.QueryRowContext(..).Scan(..) *)
| CallQuery (query : string) (args : list sql_arg)     (* db.QueryContext and the scan of its rows *)
| CallBeginTx
| CallExec (stmt : string) (args : list sql_arg)       (* tx.ExecContext *)
| CallVacuumUserSetting
| CallVacuumShortcut
| CallCommit
| CallRollback.

(** The database behind the store, over a state [D]: each operation returns
    the state after the call and what the Go call returns. A query and the
    scan of its row or rows count as one operation, which fails when any of
    its steps does. [vacuumUserSetting] and [vacuumShortcut] are functions of
    the package declared in other files; they run in the transaction. *)
Class SQL (D : Type) : Type := {
  QueryRowScanCreated :
    D -> string -> list sql_arg -> D * result error (Z * Z * Z * RowStatus);
  QueryRowScanUser : D -> string -> list sql_arg -> D * result error User;
  QueryScanUsers : D -> string -> list sql_arg -> D * result error (list User);
  BeginTx : D -> D * result error unit;
  TxExec : D -> string -> list sql_arg -> D * result error unit;
  vacuumUserSetting : D -> D * result error unit;
  vacuumShortcut : D -> D * result error unit;
  TxCommit : D -> D * result error unit;
  TxRollback : D -> D
}.

(** [Store]: the database handle and the user cache (a [sync.Map] keyed by
    user id). *)
Record Store (D : Type) : Type := mkStore {
  db : D;
  userCache : gmap Z User
}.
Arguments mkStore {D} db userCache.
Arguments db {D} s.
Arguments userCache {D} s.

(** What a method leaves: the store, the calls it made, its Go result. *)
Definition ran (D A : Type) : Type := Store D * list db_call * result error A.

(** [if v := field; v != nil { set, args = append(set, clause), append(args, *v) }]. *)
Definition with_field {A : Type} (field : option A) (clause : string)
    (arg : A -> sql_arg) (acc : list string * list sql_arg)
  : list string * list sql_arg :=
  match field with
  | Some v => ((fst acc ++ [clause])%list, (snd acc ++ [arg v])%list)
  | None => acc
  end.

Section Methods.

Context {D : Type} `{SQL D}.

(** [RowStatus.String], declared with the type. *)
Variable RowStatus_String : RowStatus -> string.

(** [CreateUser]. The Go method scans the id, the timestamps and the row
    status into the struct of the caller and caches the pointer to that
    struct; [create] is the struct before the call, and the user returned
    and cached is the struct after it. That the pointer may already be in
    the cache under another id is not modelled. *)
Definition CreateUser (s : Store D) (create : User) : ran D User :=
  let args := [ArgString (Email create); ArgString (Nickname create);
               ArgString (PasswordHash create); ArgRole (Role_ create)] in
  let '(d, r) := QueryRowScanCreated (db s) createUserStmt args in
  match r with
  | Err err => (mkStore d (userCache s), [CallQueryRow createUserStmt args], Err err)
  | Ok (id, createdTs, updatedTs, rowStatus) =>
      let user := mkUser id createdTs updatedTs rowStatus (Email create)
                    (Nickname create) (PasswordHash create) (Role_ create) in
      (mkStore d (<[ID user := user]> (userCache s)),
       [CallQueryRow createUserStmt args], Ok user)
  end.

(** The [set] and [args] of [UpdateUser] before the id is appended. *)
Definition updateUserSet (update : UpdateUser_) : list string * list sql_arg :=
  with_field (UpdateRole update) "role = ?" ArgRole
    (with_field (UpdatePasswordHash update) "password_hash = ?" ArgString
       (with_field (UpdateNickname update) "nickname = ?" ArgString
          (with_field (UpdateEmail update) "email = ?" ArgString
             (with_field (UpdateRowStatus update) "row_status = ?" ArgRowStatus
                ([], []))))).

(** [UpdateUser]. *)
Definition UpdateUser (s : Store D) (update : UpdateUser_) : ran D User :=
  let '(set, args) := updateUserSet update in
  if (List.length set =? 0)%nat then (s, [], Err "no fields to update")
  else
    let stmt := updateUserHead ++ Strings.Join set ", " ++ updateUserTail in
    let args := (args ++ [ArgInt32 (UpdateID update)])%list in
    let '(d, r) := QueryRowScanUser (db s) stmt args in
    match r with
    | Err err => (mkStore d (userCache s), [CallQueryRow stmt args], Err err)
    | Ok user =>
        (mkStore d (<[ID user := user]> (userCache s)),
         [CallQueryRow stmt args], Ok user)
    end.

(** The [where] and [args] of [ListUsers]. *)
Definition listUsersWhere (find : FindUser) : list string * list sql_arg :=
  with_field (FindRole find) "role = ?" ArgRole
    (with_field (FindNickname find) "nickname = ?" ArgString
       (with_field (FindEmail find) "email = ?" ArgString
          (with_field (FindRowStatus find) "row_status = ?"
             (fun v => ArgString (RowStatus_String v))
             (with_field (FindID find) "id = ?" ArgInt32
                (["1 = 1"], []))))).

(** [for _, user := range list { s.userCache.Store(user.ID, user) }]. *)
Definition cacheAll (list : list User) (cache : gmap Z User) : gmap Z User :=
  fold_left (fun m user => <[ID user := user]> m) list cache.

(** [ListUsers]. *)
Definition ListUsers (s : Store D) (find : FindUser) : ran D (list User) :=
  let '(where_, args) := listUsersWhere find in
  let query := listUsersHead ++ Strings.Join where_ " AND " ++ listUsersTail in
  let '(d, r) := QueryScanUsers (db s) query args in
  match r with
  | Err err => (mkStore d (userCache s), [CallQuery query args], Err err)
  | Ok list =>
      (mkStore d (cacheAll list (userCache s)), [CallQuery query args], Ok list)
  end.

(** The second half of [GetUser], after the cache. *)
Definition getUserFromList (s : Store D) (find : FindUser) : ran D (option User) :=
  let '(s', calls, r) := ListUsers s find in
  match r with
  | Err err => (s', calls, Err err)
  | Ok [] => (s', calls, Ok None)
  | Ok (user :: _) => (s', calls, Ok (Some user))
  end.

(** [GetUser]: a nil [*User] is [None]. *)
Definition GetUser (s : Store D) (find : FindUser) : ran D (option User) :=
  match FindID find with
  | Some id =>
      match userCache s !! id with
      | Some cache => (s, [], Ok (Some cache))
      | None => getUserFromList s find
      end
  | None => getUserFromList s find
  end.

(** [DeleteUser]. The deferred [tx.Rollback()] runs when the function
    returns, on every path after [BeginTx] succeeded. *)
Definition DeleteUser (s : Store D) (delete : DeleteUser_) : ran D unit :=
  let '(d0, r0) := BeginTx (db s) in
  match r0 with
  | Err err => (mkStore d0 (userCache s), [CallBeginTx], Err err)
  | Ok _ =>
      let args := [ArgInt32 (DeleteID delete)] in
      let '(d1, r1) := TxExec d0 deleteUserStmt args in
      match r1 with
      | Err err =>
          (mkStore (TxRollback d1) (userCache s),
           [CallBeginTx; CallExec deleteUserStmt args; CallRollback], Err err)
      | Ok _ =>
          let '(d2, r2) := vacuumUserSetting d1 in
          match r2 with
          | Err err =>
              (mkStore (TxRollback d2) (userCache s),
               [CallBeginTx; CallExec deleteUserStmt args; CallVacuumUserSetting;
                CallRollback], Err err)
          | Ok _ =>
              let '(d3, r3) := vacuumShortcut d2 in
              match r3 with
              | Err err =>
                  (mkStore (TxRollback d3) (userCache s),
                   [CallBeginTx; CallExec deleteUserStmt args;
                    CallVacuumUserSetting; CallVacuumShortcut; CallRollback],
                   Err err)
              | Ok _ =>
                  let '(d4, r4) := TxCommit d3 in
                  match r4 with
                  | Err err =>
                      (mkStore (TxRollback d4) (userCache s),
                       [CallBeginTx; CallExec deleteUserStmt args;
                        CallVacuumUserSetting; CallVacuumShortcut; CallCommit;
                        CallRollback], Err err)
                  | Ok _ =>
                      (mkStore (TxRollback d4)
                         (base.delete (DeleteID delete) (userCache s)),
                       [CallBeginTx; CallExec deleteUserStmt args;
                        CallVacuumUserSetting; CallVacuumShortcut; CallCommit;
                        CallRollback], Ok tt)
                  end
              end
          end
      end
  end.

End Methods.

(** Every cache entry is stored under the id of its user. *)
Definition cache_keyed {D : Type} (s : Store D) : Prop :=
  forall k u, userCache s !! k = Some u -> ID u = k.

(** What one field of an update asks for: nothing when the pointer is
    nil, else its column, to be set to the value pointed to. *)
Definition assignment {A : Type} (field : option A) (column : string)
    (arg : A -> sql_arg) : list (string * sql_arg) :=
  match field with
  | Some v => [(column ++ " = ?", arg v)]
  | None => []
  end.

(** The columns an update sets, each with the value it is set to, in the
    order of the fields of [UpdateUser]. *)
Definition assignments (update : UpdateUser_) : list (string * sql_arg) :=
  (assignment (UpdateRowStatus update) "row_status" ArgRowStatus
   ++ assignment (UpdateEmail update) "email" ArgString
   ++ assignment (UpdateNickname update) "nickname" ArgString
   ++ assignment (UpdatePasswordHash update) "password_hash" ArgString
   ++ assignment (UpdateRole update) "role" ArgRole)%list.

(** Number of [?] placeholders in a list of SQL fragments. *)
Definition placeholders (l : list string) : nat :=
  fold_right (fun s n => Strings.CountByte s "?" + n) 0 l.

(** A database that answers every call from a script and keeps no state;
    it serves to run the methods on concrete inputs. *)
Record Script : Type := mkScript {
  created : result error (Z * Z * Z * RowStatus);
  row : result error User;
  rows : result error (list User);
  begun : result error unit;
  executed : result error unit;
  vacuumedUserSetting : result error unit;
  vacuumedShortcut : result error unit;
  committed : result error unit
}.

#[export] Instance ScriptSQL : SQL Script :=
  {| QueryRowScanCreated := fun d _ _ => (d, created d);
     QueryRowScanUser := fun d _ _ => (d, row d);
     QueryScanUsers := fun d _ _ => (d, rows d);
     BeginTx := fun d => (d, begun d);
     TxExec := fun d _ _ => (d, executed d);
     vacuumUserSetting := fun d => (d, vacuumedUserSetting d);
     vacuumShortcut := fun d => (d, vacuumedShortcut d);
     TxCommit := fun d => (d, committed d);
     TxRollback := fun d => d |}.

Definition alice : User :=
  mkUser 7 100 100 "NORMAL" "alice@example.com" "alice" "hash" RoleUser.

Definition bob : User :=
  mkUser 8 90 95 "NORMAL" "bob@example.com" "bob" "hash2" RoleAdmin.

Definition script : Script :=
  mkScript (Ok (7%Z, 100%Z, 100%Z, "NORMAL")) (Ok alice) (Ok [alice; bob])
    (Ok tt) (Ok tt) (Ok tt) (Ok tt) (Ok tt).

Definition empty_store : Store Script := mkStore script ∅.

Definition alice_cached : Store Script := mkStore script (<[7%Z := alice]> ∅).

(** The calls of a [DeleteUser] of user 7 that goes through. *)
Definition delete_calls : list db_call :=
  [CallBeginTx; CallExec deleteUserStmt [ArgInt32 7];
   CallVacuumUserSetting; CallVacuumShortcut; CallCommit; CallRollback].

Definition by_id (id : Z) : FindUser := mkFindUser (Some id) None None None None.

(** [RowStatus.String] for the two row statuses. *)
Definition rowStatusString (v : RowStatus) : string :=
  if String.eqb v "NORMAL" then "NORMAL"
  else if String.eqb v "ARCHIVED" then "ARCHIVED" else "".

End UserStore.

From Stdlib Require Import Sorting.Sorted Sorting.Permutation.

(** ** store/db/db.go *)

Module DB.

(** The fields of [profile.Profile] that db.go reads. *)
Record Profile : Type := mkProfile {
  Mode : string;
  DSN : string;
  Data : string;
  Version : string
}.

(** A row of the migration history; db.go reads its [Version]. *)
Record MigrationHistory : Type := mkMigrationHistory {
  HistoryVersion : string;
  HistoryCreatedTs : Z
}.

(** What [os.Stat] returns: nil, or an error with the answer of
    [errors.Is(err, os.ErrNotExist)]. *)
Inductive stat_result : Type :=
| StatOk
| StatErr (err : error) (notExist : bool).

Inductive log_level : Type := LevelInfo | LevelError.

(** Calls that leave the package, in the order they are made. *)
Inductive event : Type :=
| EvSqlOpen (driverName dataSourceName : string)
| EvStat (name : string)
| EvExec (stmt : string)
| EvUpsertMigrationHistory (version : string)
| EvFindMigrationHistoryList
| EvReadFile (name : string)
| EvWriteFile (name data : string) (perm : Z)
| EvRemove (name : string)
| EvNow
| EvLog (level : log_level) (msg : string).

(** A function ends by returning an error or by a panic. *)
Inductive failure : Type :=
| Failed (err : error)
| Panicked (err : error).

(** The world outside the package, over a state [W]: the sqlite driver, the
    file system, the clock, and the two migration-history methods of [DB]
    declared in another file. *)
Class Env (W : Type) : Type := {
  sql_Open : W -> string -> string -> W * result error unit;
  os_Stat : W -> string -> W * stat_result;
  ExecContext : W -> string -> W * result error unit;
  UpsertMigrationHistory : W -> string -> W * result error MigrationHistory;
  FindMigrationHistoryList : W -> W * result error (list MigrationHistory);
  os_ReadFile : W -> string -> W * result error string;
  os_WriteFile : W -> string -> string -> Z -> W * result error unit;
  os_Remove : W -> string -> W * result error unit;
  time_Now_Unix : W -> W * Z
}.

(** One call [fs.WalkDir] makes to its callback: an entry, whose
    [Name()] is the last element of its path, or an error. *)
Inductive walk_step : Type :=
| Visit (path : string) (isDir : bool)   (* err == nil *)
| VisitErr (path : string) (err : error).

(** The last element of a slash-separated path ([fs.DirEntry.Name] of the
    entry at that path). *)
Fixpoint Base_from (path current : string) : string :=
  match path with
  | EmptyString => current
  | String c rest =>
      if Ascii.eqb c "/" then Base_from rest ""
      else Base_from rest (current ++ String c "")
  end.

Definition Base (path : string) : string := Base_from path "".

(** [sort.Strings]: ascending byte-wise order. Sorting a list of strings has
    one result, whatever the algorithm; this is insertion sort. *)
Fixpoint insert_sorted (x : string) (l : list string) : list string :=
  match l with
  | [] => [x]
  | y :: l' => if String.leb x y then x :: l else y :: insert_sorted x l'
  end.

Definition sort_Strings (l : list string) : list string :=
  fold_right insert_sorted [] l.

(** [strconv.Quote] on a string of printable ASCII without quote or
    backslash (the two schema paths are such strings). *)
Definition Quote (s : string) : string := String DQ s ++ String DQ "".

Definition latestSchemaFileName : string := "LATEST__SCHEMA.sql".

(** The longest prefix of digits of [s], and what follows it. *)
Fixpoint span_digits (s : string) : string * string :=
  match s with
  | EmptyString => ("", "")
  | String c rest =>
      if is_digit c
      then let '(digits, after) := span_digits rest in (String c digits, after)
      else ("", s)
  end.

(** [minorDirRegexp.MatchString]: the pattern
    [^migration/prod/[0-9]+\.[0-9]+$] is anchored at both ends, so it
    matches the whole string only: the prefix, one or more digits, a dot, one
    or more digits. *)
Definition minorDirRegexp_MatchString (path : string) : bool :=
  Strings.HasPrefix path "migration/prod/"
  && (let '(major, after) := span_digits (Strings.from 15 path) in
      negb (String.eqb major "")
      && match after with
         | String c rest =>
             Ascii.eqb c "."
             && (let '(minor, tail) := span_digits rest in
                 negb (String.eqb minor "") && String.eqb tail "")
         | EmptyString => false
         end).

(** The decimal form [%d] prints. *)
Definition Itoa (n : Z) : string := NilZero.string_of_int (Z.to_int n).

(** The statement a file of an embedded file system holds (the empty
    string stands in for a file that cannot be read, which is never
    executed). *)
Definition statementOf (read : string -> result error string) (filename : string)
  : string :=
  match read filename with
  | Ok buf => buf
  | Err _ => ""
  end.

(** The calls that execute the files [filenames], in that order. *)
Definition executions (read : string -> result error string)
    (filenames : list string) : list event :=
  map (fun filename => EvExec (statementOf read filename)) filenames.

Definition ascending (a b : string) : Prop := String.leb a b = true.

Section Package.

Context {W : Type} `{Env W}.

(** The embedded file systems [migrationFS] and [seedFS] are fixed at
    build time: reading and globbing them are functions of the name, and
    [migration_walk] is the sequence of callbacks [fs.WalkDir(migrationFS,
    "migration", ..)] makes while the callback returns nil. *)
Variable migrationFS_ReadFile : string -> result error string.
Variable migrationFS_Glob : string -> result error (list string).
Variable seedFS_ReadFile : string -> result error string.
Variable seedFS_Glob : string -> result error (list string).
Variable migration_walk : list walk_step.

(** Package [version]. *)
Variable GetCurrentVersion : string -> string.
Variable GetSchemaVersion : string -> string.
Variable IsVersionGreaterThan : string -> string -> bool.
Variable IsVersionGreaterOrEqualThan : string -> string -> bool.
Variable SortVersion : list string -> list string.   (* sort.Sort(version.SortVersion(l)) *)

(** A computation in the world: the state after it, the calls it made, and
    its result. *)
Definition step (A : Type) : Type := W -> W * list event * result failure A.

#[global] Instance step_ret : MRet step := fun A a w => (w, [], Ok a).

#[global] Instance step_bind : MBind step := fun A B k m w =>
  let '(w1, t1, r) := m w in
  match r with
  | Err e => (w1, t1, Err e)
  | Ok a => let '(w2, t2, r2) := k a w1 in (w2, (t1 ++ t2)%list, r2)
  end.

Definition lift {A : Type} (r : result error A) : result failure A :=
  match r with
  | Ok a => Ok a
  | Err e => Err (Failed e)
  end.

(** A call into the world, recorded as [e]. *)
Definition call {A : Type} (e : event) (op : W -> W * result error A) : step A :=
  fun w => let '(w', r) := op w in (w', [e], lift r).

(** A function of the embedded file systems: no call leaves the package. *)
Definition embedded {A : Type} (r : result error A) : step A :=
  fun w => (w, [], lift r).

Definition fail {A : Type} (err : error) : step A :=
  fun w => (w, [], Err (Failed err)).

Definition panic {A : Type} (err : error) : step A :=
  fun w => (w, [], Err (Panicked err)).

(** [if err != nil { return errors.Wrap(err, message) }] around [m]. *)
Definition wrap {A : Type} (message : string) (m : step A) : step A :=
  fun w =>
    let '(w', t, r) := m w in
    (w', t,
     match r with
     | Err (Failed err) => Err (Failed (errors_Wrap err message))
     | other => other
     end).

Definition slog_Log (level : log_level) (msg : string) : step unit :=
  fun w => (w, [EvLog level msg], Ok tt).

(** A [for _, x := range l] loop whose body may return an error. *)
Fixpoint forEach {A : Type} (l : list A) (body : A -> step unit) : step unit :=
  match l with
  | [] => mret tt
  | x :: l' => _ ← body x; forEach l' body
  end.

(** [execute]. *)
Definition execute (stmt : string) : step unit :=
  wrap "failed to execute statement" (call (EvExec stmt) (fun w => ExecContext w stmt)).

(** Whether each of the statements [stmts], handed to the database one
    after the other from [w] on, went through. *)
Fixpoint exec_outcomes (stmts : list string) (w : W) : list bool :=
  match stmts with
  | [] => []
  | stmt :: rest =>
      let '(w', r) := ExecContext w stmt in
      is_ok r :: exec_outcomes rest w'
  end.

(** [applyLatestSchema]. *)
Definition applyLatestSchema (profile : Profile) : step unit :=
  let schemaMode := if String.eqb (Mode profile) "prod" then "prod" else "dev" in
  let latestSchemaPath :=
    Fmt.Sprintf "migration/%s/%s" [schemaMode; latestSchemaFileName] in
  buf ← wrap ("failed to read latest schema " ++ Quote latestSchemaPath)
        (embedded (migrationFS_ReadFile latestSchemaPath));
  let stmt := buf in
  wrap (Fmt.Sprintf "migrate error: statement %s" [stmt]) (execute stmt).

Definition upsertMigrationHistory (version : string) : step MigrationHistory :=
  call (EvUpsertMigrationHistory version) (fun w => UpsertMigrationHistory w version).

(** The body of the loops of [applyMigrationForMinorVersion] and [seed]:
    read the file, execute its content as one statement; the two loops
    differ in the file system read and in their error messages. *)
Definition executeFile (read : string -> result error string)
    (readFormat execFormat : string) (filename : string) : step unit :=
  buf ← wrap (Fmt.Sprintf readFormat [filename]) (embedded (read filename));
  let stmt := buf in
  wrap (Fmt.Sprintf execFormat [stmt]) (execute stmt).

(** [applyMigrationForMinorVersion]. The string [migrationStmt] the source
    accumulates is never read and is left out. *)
Definition applyMigrationForMinorVersion (minorVersion : string) : step unit :=
  filenames ← wrap "failed to read migrate files"
    (embedded (migrationFS_Glob
                 (Fmt.Sprintf "migration/prod/%s/*.sql" [minorVersion])));
  let filenames := sort_Strings filenames in
  (* Loop over all migration files and execute them in order. *)
  _ ← forEach filenames
        (executeFile migrationFS_ReadFile
           "failed to read minor version migration file, filename %s"
           "migrate error: statement %s");
  (* Upsert the newest version to migration_history. *)
  let version := minorVersion ++ ".0" in
  _ ← wrap (Fmt.Sprintf "failed to upsert migration history with version %s"
              [version])
        (upsertMigrationHistory version);
  mret tt.

(** [seed]. *)
Definition seed : step unit :=
  filenames ← wrap "failed to read seed files" (embedded (seedFS_Glob "seed/*.sql"));
  let filenames := sort_Strings filenames in
  (* Loop over all seed files and execute them in order. *)
  forEach filenames
    (executeFile seedFS_ReadFile "failed to read seed file, filename %s"
       "seed error: statement %s").

(** The callback of [getMinorVersionList] over the walk: the names
    collected, or the error the callback returns. *)
Fixpoint collectMinorVersions (walk : list walk_step) (minorVersionList : list string)
  : result error (list string) :=
  match walk with
  | [] => Ok minorVersionList
  | VisitErr _ err :: _ => Err err
  | Visit path isDir :: rest =>
      collectMinorVersions rest
        (if isDir && minorDirRegexp_MatchString path
         then (minorVersionList ++ [Base path])%list
         else minorVersionList)
  end.

(** [getMinorVersionList]: it panics with the error of the walk. *)
Definition getMinorVersionList : result failure (list string) :=
  match collectMinorVersions migration_walk [] with
  | Err err => Err (Panicked err)
  | Ok minorVersionList => Ok (SortVersion minorVersionList)
  end.

(** The migration loop of [Open] (lines 126 to 134). *)
Definition migrate (currentVersion latestMigrationHistoryVersion : string)
    (minorVersionList : list string) : step unit :=
  forEach minorVersionList (fun minorVersion =>
    let normalizedVersion := minorVersion ++ ".0" in
    if IsVersionGreaterThan normalizedVersion latestMigrationHistoryVersion
       && IsVersionGreaterOrEqualThan currentVersion normalizedVersion
    then
      _ ← slog_Log LevelInfo
            (Fmt.Sprintf "applying migration for %s" [normalizedVersion]);
      wrap "failed to apply minor version migration"
        (applyMigrationForMinorVersion minorVersion)
    else mret tt).

(** [os.Remove] of the backup: a failure is logged, not returned. *)
Definition removeBackup (backupDBFilePath : string) : step unit :=
  fun w =>
    let '(w', r) := os_Remove w backupDBFilePath in
    match r with
    | Ok _ => (w', [EvRemove backupDBFilePath], Ok tt)
    | Err err =>
        (w', [EvRemove backupDBFilePath;
              EvLog LevelError
                (Fmt.Sprintf "Failed to remove temp database file, err %s" [err])],
         Ok tt)
    end.

(** [Open], in prod mode once the database file is known to exist (lines
    89 to 141). *)
Definition migrateExisting (profile : Profile) (currentVersion : string) : step unit :=
  migrationHistoryList ← wrap "failed to find migration history"
    (call EvFindMigrationHistoryList FindMigrationHistoryList);
  match migrationHistoryList with
  | [] =>
      _ ← wrap "failed to upsert migration history"
            (upsertMigrationHistory currentVersion);
      mret tt
  | _ =>
      let migrationHistoryVersionList :=
        SortVersion (map HistoryVersion migrationHistoryList) in
      match list.last migrationHistoryVersionList with
      | None => panic "index out of range"
      | Some latestMigrationHistoryVersion =>
          if IsVersionGreaterThan (GetSchemaVersion currentVersion)
               latestMigrationHistoryVersion
          then
            minorVersionList ← (fun w => (w, [], getMinorVersionList));
            rawBytes ← wrap "failed to read raw database file"
              (call (EvReadFile (DSN profile)) (fun w => os_ReadFile w (DSN profile)));
            now ← (fun w => let '(w', t) := time_Now_Unix w in (w', [EvNow], Ok t));
            let backupDBFilePath :=
              Fmt.Sprintf "%s/slash_%s_%s_backup.db"
                [Data profile; Version profile; Itoa now] in
            _ ← wrap "failed to write raw database file"
                  (call (EvWriteFile backupDBFilePath rawBytes 420)
                     (fun w => os_WriteFile w backupDBFilePath rawBytes 420));
            _ ← slog_Log LevelInfo "succeed to copy a backup database file";
            _ ← slog_Log LevelInfo "start migrate";
            _ ← migrate currentVersion latestMigrationHistoryVersion minorVersionList;
            _ ← slog_Log LevelInfo "end migrate";
            removeBackup backupDBFilePath
          else mret tt
      end
  end.

Definition pragmas : string :=
  "?_pragma=foreign_keys(0)&_pragma=busy_timeout(10000)&_pragma=journal_mode(WAL)".

Definition stat (name : string) : step stat_result :=
  fun w => let '(w', st) := os_Stat w name in (w', [EvStat name], Ok st).

(** [Open]. *)
Definition Open (profile : Profile) : step unit :=
  if String.eqb (DSN profile) "" then fail "dsn required"
  else
    _ ← wrap (Fmt.Sprintf "failed to open db with dsn: %s" [DSN profile])
          (call (EvSqlOpen "sqlite" (DSN profile ++ pragmas))
             (fun w => sql_Open w "sqlite" (DSN profile ++ pragmas)));
    let currentVersion := GetCurrentVersion (Mode profile) in
    if String.eqb (Mode profile) "prod" then
      st ← stat (DSN profile);
      match st with
      | StatErr err notExist =>
          if negb notExist then fail (errors_Wrap err "failed to get db file stat")
          else
            (* the db file does not exist: create it with the latest schema *)
            _ ← wrap "failed to apply latest schema" (applyLatestSchema profile);
            _ ← wrap "failed to upsert migration history"
                  (upsertMigrationHistory currentVersion);
            mret tt
      | StatOk => migrateExisting profile currentVersion
      end
    else
      (* in non-prod mode the database is only created, never migrated *)
      st ← stat (DSN profile);
      match st with
      | StatErr _ true =>
          _ ← wrap "failed to apply latest schema" (applyLatestSchema profile);
          if String.eqb (Mode profile) "demo"
          then wrap "failed to seed" seed
          else mret tt
      | _ => mret tt
      end.

End Package.

(** The versions passed to [UpsertMigrationHistory] by the calls [t], in
    the order of the calls. *)
Definition upsert_calls (t : list event) : list string :=
  flat_map (fun e => match e with
                     | EvUpsertMigrationHistory version => [version]
                     | _ => []
                     end) t.

(** The calls [migrate] and the functions under it make. *)
Definition migration_call (e : event) : Prop :=
  match e with
  | EvExec _ | EvUpsertMigrationHistory _ | EvLog _ _ => True
  | _ => False
  end.

(** ** A sample world

    A file system, a migration history and a clock to run the package on:
    [os.Stat] answers from [files] unless [statError] is set; every
    statement executes and is recorded; the embedded file systems hold two
    minor versions and one seed file. The version functions compare
    versions whose components are single digits. *)

Record World : Type := mkWorld {
  files : list (string * string);
  history : list MigrationHistory;
  statements : list string;
  clock : Z;
  statError : option error
}.

Fixpoint lookup (name : string) (l : list (string * string)) : option string :=
  match l with
  | [] => None
  | (n, data) :: l' => if String.eqb n name then Some data else lookup name l'
  end.

Definition readFrom (l : list (string * string)) (name : string)
  : result error string :=
  match lookup name l with
  | Some data => Ok data
  | None => Err ("open " ++ name ++ ": file does not exist")
  end.

#[export] Instance WorldEnv : Env World :=
  {| sql_Open := fun w _ _ => (w, Ok tt);
     os_Stat := fun w name =>
       (w, match statError w with
           | Some err => StatErr err false
           | None =>
               match lookup name (files w) with
               | Some _ => StatOk
               | None => StatErr ("stat " ++ name ++ ": no such file or directory") true
               end
           end);
     ExecContext := fun w stmt =>
       (mkWorld (files w) (history w) (statements w ++ [stmt])%list (clock w)
          (statError w), Ok tt);
     UpsertMigrationHistory := fun w version =>
       (mkWorld (files w)
          (history w ++ [mkMigrationHistory version (clock w)])%list
          (statements w) (clock w) (statError w),
        Ok (mkMigrationHistory version (clock w)));
     FindMigrationHistoryList := fun w => (w, Ok (history w));
     os_ReadFile := fun w name => (w, readFrom (files w) name);
     os_WriteFile := fun w name data _ =>
       (mkWorld ((name, data) :: files w) (history w) (statements w) (clock w)
          (statError w), Ok tt);
     os_Remove := fun w name =>
       (mkWorld (List.filter (fun f => negb (String.eqb (fst f) name)) (files w))
          (history w) (statements w) (clock w) (statError w), Ok tt);
     time_Now_Unix := fun w => (w, clock w) |}.

Definition sample_migrationFS : list (string * string) :=
  [("migration/dev/LATEST__SCHEMA.sql", "CREATE TABLE shortcut (id INTEGER);");
   ("migration/prod/0.2/00__create_index.sql", "CREATE INDEX idx ON shortcut (id);");
   ("migration/prod/0.3/00__add_title.sql", "ALTER TABLE shortcut ADD COLUMN title TEXT;");
   ("migration/prod/0.3/01__add_tag.sql", "ALTER TABLE shortcut ADD COLUMN tag TEXT;");
   ("migration/prod/LATEST__SCHEMA.sql", "CREATE TABLE shortcut (id INTEGER, title TEXT, tag TEXT);")].

Definition sample_seedFS : list (string * string) :=
  [("seed/10000__reset.sql", "DELETE FROM shortcut;")].

Definition sample_Glob (pattern : string) : result error (list string) :=
  Ok (if String.eqb pattern "migration/prod/0.2/*.sql"
      then ["migration/prod/0.2/00__create_index.sql"]
      else if String.eqb pattern "migration/prod/0.3/*.sql"
      then ["migration/prod/0.3/01__add_tag.sql"; "migration/prod/0.3/00__add_title.sql"]
      else if String.eqb pattern "seed/*.sql" then ["seed/10000__reset.sql"]
      else []).

Definition sample_walk : list walk_step :=
  [Visit "migration" true;
   Visit "migration/dev" true;
   Visit "migration/dev/LATEST__SCHEMA.sql" false;
   Visit "migration/prod" true;
   Visit "migration/prod/0.2" true;
   Visit "migration/prod/0.2/00__create_index.sql" false;
   Visit "migration/prod/0.3" true;
   Visit "migration/prod/0.3/00__add_title.sql" false;
   Visit "migration/prod/0.3/01__add_tag.sql" false;
   Visit "migration/prod/LATEST__SCHEMA.sql" false].

Definition sample_GetCurrentVersion (mode : string) : string := "0.3.1".
Definition sample_GetSchemaVersion (version : string) : string := "0.3.0".
Definition sample_IsVersionGreaterThan (a b : string) : bool := negb (String.leb a b).
Definition sample_IsVersionGreaterOrEqualThan (a b : string) : bool := String.leb b a.

Definition sample_Open : Profile -> World -> World * list event * result failure unit :=
  Open (readFrom sample_migrationFS) sample_Glob (readFrom sample_seedFS) sample_Glob
    sample_walk sample_GetCurrentVersion sample_GetSchemaVersion
    sample_IsVersionGreaterThan sample_IsVersionGreaterOrEqualThan sort_Strings.

Definition prod_profile : Profile := mkProfile "prod" "/var/opt/slash/slash_prod.db" "/var/opt/slash" "0.3.1".
Definition demo_profile : Profile := mkProfile "demo" "/var/opt/slash/slash_demo.db" "/var/opt/slash" "0.3.1".
Definition dev_profile : Profile := mkProfile "dev" "/var/opt/slash/slash_dev.db" "/var/opt/slash" "0.3.1".

(** No file, no history. *)
Definition fresh_world : World := mkWorld [] [] [] 1700000000 None.

(** A prod database left by version 0.1. *)
Definition old_world : World :=
  mkWorld [("/var/opt/slash/slash_prod.db", "SQLite format 3")]
    [mkMigrationHistory "0.1.0" 1600000000] [] 1700000000 None.

(** A world whose [os.Stat] is refused. *)
Definition locked_world : World := mkWorld [] [] [] 1700000000 (Some "permission denied").

End DB.

(** * Properties *)

(** ** Strings *)

Lemma append_assoc (a b c : string) : (a ++ b) ++ c = a ++ (b ++ c).
Proof. induction a as [|x a IH]; simpl; [reflexivity | f_equal; exact IH]. Qed.

Lemma append_nil_r (a : string) : a ++ "" = a.
Proof. induction a as [|x a IH]; simpl; [reflexivity | f_equal; exact IH]. Qed.

Lemma occurs_in_refl (s : string) : occurs_in s s.
Proof. exists "", "". simpl. now rewrite append_nil_r. Qed.

Lemma occurs_in_app_l (sub a b : string) : occurs_in sub a -> occurs_in sub (a ++ b).
Proof.
  intros (pre & post & ->). exists pre, (post ++ b).
  now rewrite !append_assoc.
Qed.

Lemma occurs_in_app_r (sub a b : string) : occurs_in sub b -> occurs_in sub (a ++ b).
Proof.
  intros (pre & post & ->). exists (a ++ pre), post.
  now rewrite !append_assoc.
Qed.

Lemma Join_cons (e : string) (l : list string) :
  Strings.Join (e :: l) "" = e ++ Strings.Join l "".
Proof. destruct l; simpl; [now rewrite append_nil_r | reflexivity]. Qed.

(** Every element of a list joined with the empty separator occurs in the
    result. *)
Lemma occurs_in_Join (l : list string) (t : string) :
  In t l -> occurs_in t (Strings.Join l "").
Proof.
  induction l as [|e l IH]; intros Hin; [destruct Hin|].
  rewrite Join_cons. destruct Hin as [->|Hin].
  - apply occurs_in_app_l, occurs_in_refl.
  - apply occurs_in_app_r, IH, Hin.
Qed.

(** ** Rendering *)

Lemma Sprintf_htmlTemplate (head body : string) :
  Fmt.Sprintf htmlTemplate [head; body] = page head body.
Proof.
  unfold page. reflexivity.
Qed.

Lemma present_not_all_empty (og : OpenGraphMetadata) :
  Title og <> "" \/ Description og <> "" \/ Image og <> "" ->
  String.eqb (Title og) "" && String.eqb (Description og) ""
    && String.eqb (Image og) "" = false.
Proof.
  intros Hp.
  destruct (String.eqb_spec (Title og) ""); simpl; [|reflexivity].
  destruct (String.eqb_spec (Description og) ""); simpl; [|reflexivity].
  destruct (String.eqb_spec (Image og) ""); simpl; [|reflexivity].
  tauto.
Qed.

(** With metadata present the response is the page made of the metadata
    list and the body. *)
Lemma redirectToShortcut_page (sc : Shortcut) (og : OpenGraphMetadata) :
  OgMetadata sc = Some og ->
  Title og <> "" \/ Description og <> "" \/ Image og <> "" ->
  redirectToShortcut sc =
    Ok (HTMLPage 200
          (page (Strings.Join
                   (metadataList og (Link sc) (isValidURLString (Link sc))) "")
                (pageBody (Link sc) (isValidURLString (Link sc))))).
Proof.
  intros Hog Hp. unfold redirectToShortcut. rewrite Hog.
  rewrite (present_not_all_empty og Hp).
  rewrite Sprintf_htmlTemplate. reflexivity.
Qed.

Lemma metadataList_base (og : OpenGraphMetadata) (link : string) (valid : bool) :
  metadataList og link valid =
    ([ title_tag (Title og);
      meta_tag "name" "description" (Description og);
      meta_tag "property" "og:title" (Title og);
      meta_tag "property" "og:description" (Description og);
      meta_tag "property" "og:image" (Image og);
      meta_tag "property" "og:type" "website";
      meta_tag "name" "twitter:title" (Title og);
      meta_tag "name" "twitter:description" (Description og);
      meta_tag "name" "twitter:image" (Image og);
      meta_tag "name" "twitter:card" "summary_large_image" ]
    ++ (if valid then [meta_tag "property" "og:url" link] else []))%list.
Proof.
  unfold metadataList, title_tag, meta_tag, dq.
  destruct valid; reflexivity.
Qed.

Lemma occurs_in_page_head (t head body : string) :
  occurs_in t head -> occurs_in t (page head body).
Proof.
  intros Ht. unfold page.
  apply occurs_in_app_r, occurs_in_app_l, Ht.
Qed.

Lemma base_tags_not_og_url (og : OpenGraphMetadata) (link : string) :
  Forall (fun t => is_og_url_tag t = false) (metadataList og link false).
Proof. repeat constructor. Qed.

Lemma byte_in_append (c : ascii) (a b : string) :
  byte_in c (a ++ b) = byte_in c a || byte_in c b.
Proof.
  induction a as [|x a IH]; [reflexivity|].
  cbn [String.append byte_in]. rewrite IH. apply orb_assoc.
Qed.

Lemma markup_bytes_cases (c : ascii) :
  byte_in c markup_bytes = true ->
  c = DQ \/ c = "<"%char \/ c = ">"%char \/ c = "'"%char.
Proof.
  unfold markup_bytes. cbn [byte_in]. rewrite orb_false_r. intros Hc.
  destruct (Ascii.eqb_spec c DQ); [tauto|].
  destruct (Ascii.eqb_spec c "<"); [tauto|].
  destruct (Ascii.eqb_spec c ">"); [tauto|].
  destruct (Ascii.eqb_spec c "'"); [tauto|]. discriminate Hc.
Qed.

Lemma escape_byte_no_markup (c d : ascii) :
  byte_in c markup_bytes = true -> byte_in c (Html.escape_byte d) = false.
Proof.
  intros Hc. unfold Html.escape_byte.
  destruct (Ascii.eqb_spec d "&");
    [|destruct (Ascii.eqb_spec d "'");
      [|destruct (Ascii.eqb_spec d "<");
        [|destruct (Ascii.eqb_spec d ">");
          [|destruct (Ascii.eqb_spec d DQ)]]]].
  all: destruct (markup_bytes_cases c Hc) as [-> | [-> | [-> | ->]]]; try reflexivity.
  all: cbn [byte_in]; rewrite orb_false_r; apply Ascii.eqb_neq; congruence.
Qed.

Lemma EscapeString_no_markup (c : ascii) (s : string) :
  byte_in c markup_bytes = true -> byte_in c (Html.EscapeString s) = false.
Proof.
  intros Hc. induction s as [|d s IH]; [reflexivity|].
  cbn [Html.EscapeString]. rewrite byte_in_append, IH, orb_false_r.
  apply escape_byte_no_markup, Hc.
Qed.

(** ** Occurrences in a page *)

Lemma occurs_in_trans (a b c : string) :
  occurs_in a b -> occurs_in b c -> occurs_in a c.
Proof.
  intros (p1 & q1 & ->) (p2 & q2 & ->). exists (p2 ++ p1), (q1 ++ q2).
  now rewrite !append_assoc.
Qed.

Lemma agree_app (a b p q : string) : a ++ p = b ++ q -> agree a b = true.
Proof.
  revert b. induction a as [|x a IH]; intros [|y b] Heq; try reflexivity.
  cbn [String.append] in Heq. injection Heq as -> Heq.
  cbn [agree]. rewrite Ascii.eqb_refl. exact (IH b Heq).
Qed.

(** A text that begins with [<] does not start in a copied value without
    that byte. *)
Lemma occurs_past_copied (m' value rest : string) :
  byte_in "<"%char value = false ->
  occurs_in (String "<" m') (value ++ rest) -> occurs_in (String "<" m') rest.
Proof.
  induction value as [|c value IH]; intros Hfree Hocc; [exact Hocc|].
  cbn [byte_in] in Hfree. apply orb_false_elim in Hfree as [Hc Hfree].
  apply IH; [exact Hfree|].
  destruct Hocc as ([|x pre] & post & Heq); cbn [String.append] in Heq.
  - injection Heq as Hx _. subst c. discriminate Hc.
  - injection Heq as _ Heq. exists pre, post. exact Heq.
Qed.

(** Nor in a template in which it starts nowhere. *)
Lemma occurs_past_template (m text rest : string) :
  starts_nowhere m text = true ->
  occurs_in m (text ++ rest) -> occurs_in m rest.
Proof.
  induction text as [|c text IH]; intros Hclean Hocc; [exact Hocc|].
  cbn [starts_nowhere] in Hclean. apply andb_prop in Hclean as [Hhere Hclean].
  apply IH; [exact Hclean|].
  destruct Hocc as ([|x pre] & post & Heq).
  - cbn [String.append] in Heq. symmetry in Heq.
    rewrite (agree_app m (String c text) post rest) in Hhere;
      [discriminate Hhere | exact Heq].
  - cbn [String.append] in Heq. injection Heq as _ Heq.
    exists pre, post. exact Heq.
Qed.

Lemma assemble_closed (m' : string) (pieces : list piece) :
  Forall (closed_to (String "<" m')) pieces ->
  ~ occurs_in (String "<" m') (assemble pieces).
Proof.
  induction 1 as [|p pieces Hp _ IH]; cbn [assemble].
  - intros ([|x pre] & post & Heq); discriminate Heq.
  - intros Hocc. apply IH. destruct p as [text|value]; cbn [piece_text] in Hocc.
    + exact (occurs_past_template _ text _ Hp Hocc).
    + exact (occurs_past_copied _ value _ Hp Hocc).
Qed.

Lemma raw_link_page_assembled (og : OpenGraphMetadata) (link : string) :
  page (Strings.Join (metadataList og link false) "") (pageBody link false)
  = assemble (raw_link_page og link).
Proof.
  unfold page, pageBody. rewrite metadataList_base.
  unfold raw_link_page, title_tag, meta_tag, dq. cbn [app].
  rewrite !Join_cons. cbn [Strings.Join assemble piece_text quoted].
  rewrite !append_assoc. cbn [String.append Ascii.eqb Bool.eqb quoted].
  reflexivity.
Qed.

(** The page of a link that is not well-formed holds no [og:url] tag when
    no metadata field holds the byte [<]. *)
Lemma raw_link_page_without_og_url (og : OpenGraphMetadata) (link : string) :
  byte_in "<"%char (Title og) = false ->
  byte_in "<"%char (Description og) = false ->
  byte_in "<"%char (Image og) = false ->
  ~ occurs_in og_url_marker
      (page (Strings.Join (metadataList og link false) "") (pageBody link false)).
Proof.
  intros Ht Hd Hi. rewrite raw_link_page_assembled.
  apply (assemble_closed (quoted "meta property='og:url'")).
  assert (byte_in "<"%char (Html.EscapeString link) = false) as Hl
    by (apply EscapeString_no_markup; reflexivity).
  unfold raw_link_page.
  repeat (apply List.Forall_cons;
          [first [assumption | vm_compute; reflexivity]|]).
  apply List.Forall_nil.
Qed.

(** The page of a well-formed link holds one. *)
Lemma valid_link_page_with_og_url (og : OpenGraphMetadata) (link body : string) :
  occurs_in og_url_marker
    (page (Strings.Join (metadataList og link true) "") body).
Proof.
  apply occurs_in_trans with (meta_tag "property" "og:url" link).
  - exists "", (quoted " content='" ++ link ++ quoted "' />"). reflexivity.
  - apply occurs_in_page_head, occurs_in_Join.
    rewrite metadataList_base. apply in_or_app. right. left. reflexivity.
Qed.



(** X29: for a shortcut whose metadata is present, the response is a 200
    HTML page whose head holds the title, description, Open Graph and
    Twitter Card tags; with a well-formed link the head also holds an
    [og:url] tag for the link and the body is a script assigning the link to
    [window.location.href]; otherwise the code adds no [og:url] tag and the
    body is the link HTML-escaped, so that it holds none of the bytes [<],
    [>], ['] and the double quote; the page then holds no [og:url] tag as
    long as no metadata field holds the byte [<]. *)
Theorem redirectToShortcut_metadata_present (sc : Shortcut) :
  ogMetadata_present (OgMetadata sc) ->
  exists og body,
    let valid := isValidURLString (Link sc) in
    let tags := metadataList og (Link sc) valid in
    let head := Strings.Join tags "" in
    OgMetadata sc = Some og
    /\ redirectToShortcut sc = Ok (HTMLPage 200 (page head body))
    /\ (forall t,
          In t [ title_tag (Title og);
                 meta_tag "name" "description" (Description og);
                 meta_tag "property" "og:title" (Title og);
                 meta_tag "property" "og:description" (Description og);
                 meta_tag "property" "og:image" (Image og);
                 meta_tag "property" "og:type" "website";
                 meta_tag "name" "twitter:title" (Title og);
                 meta_tag "name" "twitter:description" (Description og);
                 meta_tag "name" "twitter:image" (Image og);
                 meta_tag "name" "twitter:card" "summary_large_image" ] ->
          In t tags /\ occurs_in t head)
    /\ (valid = true ->
          In (meta_tag "property" "og:url" (Link sc)) tags
          /\ occurs_in (meta_tag "property" "og:url" (Link sc)) head
          /\ body = redirect_script (Link sc))
    /\ (valid = false ->
          Forall (fun t => is_og_url_tag t = false) tags
          /\ body = Html.EscapeString (Link sc)
          /\ (forall c, byte_in c markup_bytes = true -> byte_in c body = false)
          /\ (byte_in "<"%char (Title og) = false ->
              byte_in "<"%char (Description og) = false ->
              byte_in "<"%char (Image og) = false ->
              ~ occurs_in og_url_marker (page head body))).
Proof.
  intros (og & Hog & Hp).
  exists og, (pageBody (Link sc) (isValidURLString (Link sc))).
  cbv zeta. split; [exact Hog|]. split.
  { apply redirectToShortcut_page; assumption. }
  split; [|split].
  - intros t Ht.
    assert (In t (metadataList og (Link sc) (isValidURLString (Link sc)))) as Hin.
    { rewrite metadataList_base. apply in_or_app. left. exact Ht. }
    split; [exact Hin | apply occurs_in_Join, Hin].
  - intros Hv. rewrite Hv.
    assert (In (meta_tag "property" "og:url" (Link sc))
              (metadataList og (Link sc) true)) as Hin.
    { rewrite metadataList_base. apply in_or_app. right. left. reflexivity. }
    split; [exact Hin|]. split; [apply occurs_in_Join, Hin | reflexivity].
  - intros Hv. rewrite Hv. split; [apply base_tags_not_og_url|].
    split; [reflexivity|]. split.
    + intros c Hc. apply EscapeString_no_markup, Hc.
    + apply raw_link_page_without_og_url.
Qed.

(** C5 at the failing input: the link of [sc_inject] is not well-formed,
    yet the head of its page holds an [og:url] tag. The title brings it: it
    is copied into the page byte for byte, where [html.EscapeString], which
    the same function applies to the link, would leave no [<] in it. *)
Theorem og_url_tag_through_title :
  isValidURLString (Link sc_inject) = false
  /\ redirectToShortcut sc_inject =
       Ok (HTMLPage 200
             (page
                (quoted ("<title></title>"
                   ++ "<meta property='og:url' content='https://evil.example/' />"
                   ++ "<title></title>"
                   ++ "<meta name='description' content='' />"
                   ++ "<meta property='og:title' content='</title><meta property='og:url' content='https://evil.example/' /><title>' />"
                   ++ "<meta property='og:description' content='' />"
                   ++ "<meta property='og:image' content='' />"
                   ++ "<meta property='og:type' content='website' />"
                   ++ "<meta name='twitter:title' content='</title><meta property='og:url' content='https://evil.example/' /><title>' />"
                   ++ "<meta name='twitter:description' content='' />"
                   ++ "<meta name='twitter:image' content='' />"
                   ++ "<meta name='twitter:card' content='summary_large_image' />"))
                "not a url"))
  /\ (exists head body,
        redirectToShortcut sc_inject = Ok (HTMLPage 200 (page head body))
        /\ occurs_in (meta_tag "property" "og:url" "https://evil.example/") head)
  /\ byte_in "<"%char
       (Html.EscapeString
          (quoted "</title><meta property='og:url' content='https://evil.example/' /><title>"))
     = false.
Proof.
  split; [vm_compute; reflexivity|]. split; [vm_compute; reflexivity|].
  split; [|vm_compute; reflexivity].
  exists (Strings.Join (metadataList
                          (mkOpenGraphMetadata
                             (quoted "</title><meta property='og:url' content='https://evil.example/' /><title>")
                             "" "")
                          "not a url" false) ""),
         "not a url".
  split; [vm_compute; reflexivity|].
  exists "<title></title>".
  eexists. vm_compute. reflexivity.
Qed.

Lemma sc_preview_present : ogMetadata_present (OgMetadata sc_preview).
Proof.
  exists (mkOpenGraphMetadata "T" "D" ""). split; [reflexivity|].
  left. discriminate.
Defined.

Lemma redirectToShortcut_metadata_present_witness :
  exists og body,
    OgMetadata sc_preview = Some og
    /\ redirectToShortcut sc_preview =
         Ok (HTMLPage 200
               (page (Strings.Join (metadataList og example_com true) "") body))
    /\ body = redirect_script example_com.
Proof.
  destruct (redirectToShortcut_metadata_present sc_preview sc_preview_present)
    as (og & body & Hog & Hpage & _ & Hvalid & _).
  exists og, body. split; [exact Hog|]. split; [exact Hpage|].
  apply Hvalid. reflexivity.
Defined.

(** C8, as the code has it: in the page for a shortcut with metadata, the
    code adds an [og:url] tag to the tags of the head if and only if the
    link is well-formed. The page of a well-formed link therefore holds an
    [og:url] tag, and the page of a link that is not well-formed holds none
    as long as no metadata field holds the byte [<]. The [twitter:image]
    tag is in the page whether the link is well-formed or not. *)
Theorem url_tags_of_page (sc : Shortcut) :
  ogMetadata_present (OgMetadata sc) ->
  exists og body,
    let tags := metadataList og (Link sc) (isValidURLString (Link sc)) in
    let html := page (Strings.Join tags "") body in
    OgMetadata sc = Some og
    /\ redirectToShortcut sc = Ok (HTMLPage 200 html)
    /\ ((exists t, In t tags /\ is_og_url_tag t = true)
        <-> isValidURLString (Link sc) = true)
    /\ (isValidURLString (Link sc) = true -> occurs_in og_url_marker html)
    /\ (byte_in "<"%char (Title og) = false ->
        byte_in "<"%char (Description og) = false ->
        byte_in "<"%char (Image og) = false ->
        occurs_in og_url_marker html -> isValidURLString (Link sc) = true)
    /\ In (meta_tag "name" "twitter:image" (Image og)) tags
    /\ occurs_in (meta_tag "name" "twitter:image" (Image og)) html
    /\ is_twitter_image_tag (meta_tag "name" "twitter:image" (Image og)) = true.
Proof.
  intros (og & Hog & Hp).
  exists og, (pageBody (Link sc) (isValidURLString (Link sc))).
  cbv zeta. split; [exact Hog|]. split.
  { apply redirectToShortcut_page; assumption. }
  assert (In (meta_tag "name" "twitter:image" (Image og))
            (metadataList og (Link sc) (isValidURLString (Link sc)))) as Himage.
  { rewrite metadataList_base. apply in_or_app. left.
    do 8 right. left. reflexivity. }
  split; [|split; [|split; [|split; [exact Himage|split]]]].
  - destruct (isValidURLString (Link sc)); split.
    + reflexivity.
    + intros _. exists (meta_tag "property" "og:url" (Link sc)). split.
      * rewrite metadataList_base. apply in_or_app. right. left. reflexivity.
      * reflexivity.
    + intros (t & Hin & Htag).
      pose proof (base_tags_not_og_url og (Link sc)) as Hall.
      rewrite List.Forall_forall in Hall. rewrite (Hall t Hin) in Htag.
      discriminate Htag.
    + discriminate.
  - intros Hv. rewrite Hv. apply valid_link_page_with_og_url.
  - intros Ht Hd Hi Hocc.
    destruct (isValidURLString (Link sc)); [reflexivity|].
    destruct (raw_link_page_without_og_url og (Link sc) Ht Hd Hi Hocc).
  - apply occurs_in_page_head, occurs_in_Join, Himage.
  - reflexivity.
Qed.

Lemma url_tags_of_page_witness :
  exists og body,
    OgMetadata sc_preview = Some og
    /\ redirectToShortcut sc_preview =
         Ok (HTMLPage 200
               (page (Strings.Join (metadataList og example_com true) "") body))
    /\ occurs_in og_url_marker
         (page (Strings.Join (metadataList og example_com true) "") body)
    /\ In (meta_tag "name" "twitter:image" (Image og))
         (metadataList og example_com true).
Proof.
  destruct (url_tags_of_page sc_preview sc_preview_present)
    as (og & body & Hog & Hpage & _ & Hurl & _ & Hin & _).
  exists og, body. split; [exact Hog|]. split; [exact Hpage|].
  split; [apply Hurl; reflexivity | exact Hin].
Defined.

(** C8 as stated fails: the link of [sc_raw_preview] is not well-formed, yet
    its page carries a [twitter:image] tag. *)
Lemma twitter_image_emitted_for_raw_link :
  isValidURLString (Link sc_raw_preview) = false
  /\ exists html,
       redirectToShortcut sc_raw_preview = Ok (HTMLPage 200 html)
       /\ occurs_in (meta_tag "name" "twitter:image" "") html
       /\ is_twitter_image_tag (meta_tag "name" "twitter:image" "") = true.
Proof.
  split; [reflexivity|].
  exists (page (Strings.Join (metadataList (mkOpenGraphMetadata "T" "D" "")
                                "not a url" false) "")
               (Html.EscapeString "not a url")).
  split; [reflexivity|]. split; [|reflexivity].
  apply occurs_in_page_head, occurs_in_Join.
  rewrite metadataList_base. apply in_or_app. left.
  do 8 right. left. reflexivity.
Qed.

(** C2 at the failing input: a title that contains markup is copied into
    the page byte for byte, although [html.EscapeString] would turn it into
    harmless text. *)
Theorem title_rendered_unescaped :
  redirectToShortcut sc_script_title =
    Ok (HTMLPage 200
          (page
             (quoted ("<title><script>alert(1)</script></title>"
                ++ "<meta name='description' content='' />"
                ++ "<meta property='og:title' content='<script>alert(1)</script>' />"
                ++ "<meta property='og:description' content='' />"
                ++ "<meta property='og:image' content='' />"
                ++ "<meta property='og:type' content='website' />"
                ++ "<meta name='twitter:title' content='<script>alert(1)</script>' />"
                ++ "<meta name='twitter:description' content='' />"
                ++ "<meta name='twitter:image' content='' />"
                ++ "<meta name='twitter:card' content='summary_large_image' />"
                ++ "<meta property='og:url' content='https://example.com' />"))
             (quoted "<script>window.location.href = 'https://example.com';</script>")))
  /\ Html.EscapeString "<script>alert(1)</script>"
     = "&lt;script&gt;alert(1)&lt;/script&gt;".
Proof. split; vm_compute; reflexivity. Qed.

(** ** Classification of the link *)

Lemma length_append (a b : string) :
  String.length (a ++ b) = String.length a + String.length b.
Proof. induction a as [|x a IH]; simpl; [reflexivity | now rewrite IH]. Qed.

Lemma substring_0_0 (s : string) : substring 0 0 s = "".
Proof. destruct s; reflexivity. Qed.

Lemma substring_full (s : string) : substring 0 (String.length s) s = s.
Proof. induction s as [|x s IH]; simpl; [reflexivity | now rewrite IH]. Qed.

Lemma upto_append (pre x : string) :
  Strings.upto (String.length pre) (pre ++ x) = pre.
Proof.
  unfold Strings.upto. induction pre as [|a pre IH]; simpl.
  - apply substring_0_0.
  - now rewrite IH.
Qed.

Lemma from_append (pre x : string) (c : ascii) :
  Strings.from (String.length pre + 1) (pre ++ String c x) = x.
Proof.
  unfold Strings.from. induction pre as [|a pre IH]; simpl.
  - rewrite Nat.sub_0_r. apply substring_full.
  - exact IH.
Qed.

Lemma append_snoc (pre rest : string) (c : ascii) :
  pre ++ String c rest = (pre ++ String c "") ++ rest.
Proof. now rewrite append_assoc. Qed.

Lemma length_snoc (pre : string) (c : ascii) :
  String.length (pre ++ String c "") = Datatypes.S (String.length pre).
Proof. rewrite length_append. simpl. lia. Qed.

(** What [getScheme] returns: either no scheme and the input unchanged, or a
    non-empty scheme, the input being the scheme, a colon and the rest. *)
Lemma getScheme_loop_spec (rest pre rawURL scheme r : string) :
  rawURL = pre ++ rest ->
  NetURL.getScheme_loop rawURL (String.length pre) rest = Ok (scheme, r) ->
  (scheme = "" /\ r = rawURL)
  \/ (scheme <> "" /\ rawURL = scheme ++ ":" ++ r).
Proof.
  revert pre. induction rest as [|c rest IH]; intros pre Hraw Hloop;
    cbn [NetURL.getScheme_loop] in Hloop.
  - left. injection Hloop as <- <-. split; reflexivity.
  - assert (forall res,
              NetURL.getScheme_loop rawURL (Datatypes.S (String.length pre)) rest
                = Ok res -> res = (scheme, r) ->
              (scheme = "" /\ r = rawURL)
              \/ (scheme <> "" /\ rawURL = scheme ++ ":" ++ r)) as Hnext.
    { intros res Hres ->. apply (IH (pre ++ String c "")).
      - rewrite Hraw. apply append_snoc.
      - rewrite length_snoc. exact Hres. }
    destruct (is_lower c || is_upper c).
    { eapply Hnext; [exact Hloop | reflexivity]. }
    destruct (is_digit c || byte_in c "+-.").
    { destruct (String.length pre =? 0)%nat.
      - left. injection Hloop as <- <-. split; reflexivity.
      - eapply Hnext; [exact Hloop | reflexivity]. }
    destruct (Ascii.eqb_spec c ":") as [->|_].
    { destruct (String.length pre =? 0)%nat eqn:Hz; [discriminate Hloop|].
      right. injection Hloop as <- <-. rewrite Hraw.
      rewrite upto_append, from_append. split; [|reflexivity].
      intros ->. simpl in Hz. discriminate Hz. }
    left. injection Hloop as <- <-. split; reflexivity.
Qed.

Lemma getScheme_spec (rawURL scheme r : string) :
  NetURL.getScheme rawURL = Ok (scheme, r) ->
  (scheme = "" /\ r = rawURL)
  \/ (scheme <> "" /\ rawURL = scheme ++ ":" ++ r).
Proof. intros Hg. apply (getScheme_loop_spec rawURL "" rawURL); [reflexivity | exact Hg]. Qed.

Lemma HasPrefix_upto (s p : string) (k : nat) :
  Strings.HasPrefix (Strings.upto k s) p = true -> Strings.HasPrefix s p = true.
Proof.
  unfold Strings.HasPrefix, Strings.upto. revert s k.
  induction p as [|a p IH]; intros s k.
  - destruct s; reflexivity.
  - destruct s as [|c s]; destruct k as [|k]; simpl; try discriminate.
    destruct (ascii_dec a c); [apply IH | discriminate].
Qed.

(** In [parse], a request URI without scheme whose path does not begin
    with a slash is refused. *)
Lemma parse_rest_no_scheme (rest rawQuery : string) (forceQuery : bool) :
  is_ok (NetURL.parse_rest "" rest forceQuery rawQuery true) = true ->
  Strings.HasPrefix rest "/" = true.
Proof.
  unfold NetURL.parse_rest.
  destruct (Strings.HasPrefix rest "/"); [reflexivity | discriminate].
Qed.

Lemma byte_in_substring (c : ascii) (s : string) (n m : nat) :
  byte_in c (substring n m s) = true -> byte_in c s = true.
Proof.
  revert n m. induction s as [|d s IH]; intros n m.
  - destruct n, m; simpl; discriminate.
  - destruct n as [|n].
    + destruct m as [|m]; simpl; [discriminate|].
      destruct (Ascii.eqb c d); simpl; [reflexivity | apply IH].
    + simpl. intros Hin. rewrite (IH _ _ Hin). apply orb_true_r.
Qed.

Lemma byte_in_upto (c : ascii) (s : string) (k : nat) :
  byte_in c s = false -> byte_in c (Strings.upto k s) = false.
Proof.
  intros Hno. destruct (byte_in c (Strings.upto k s)) eqn:Hin; [|reflexivity].
  apply byte_in_substring in Hin. congruence.
Qed.

Lemma unescape_path_no_percent (s : string) :
  byte_in "%" s = false -> is_ok (NetURL.unescape s NetURL.encodePath) = true.
Proof.
  induction s as [|c s IH]; [reflexivity|].
  cbn [byte_in]. intros Hno. apply orb_false_elim in Hno as [Hc Hs].
  cbn [NetURL.unescape]. rewrite Ascii.eqb_sym, Hc.
  specialize (IH Hs).
  destruct (NetURL.unescape s NetURL.encodePath); [|discriminate IH].
  destruct (Ascii.eqb c "+"); reflexivity.
Qed.

Lemma parse_rest_absolute_path (rest rawQuery : string) (forceQuery : bool) :
  Strings.HasPrefix rest "/" = true ->
  byte_in "%" rest = false ->
  is_ok (NetURL.parse_rest "" rest forceQuery rawQuery true) = true.
Proof.
  intros Hslash Hpct. unfold NetURL.parse_rest. rewrite Hslash.
  cbn [String.eqb negb andb orb]. unfold NetURL.setPath.
  pose proof (unescape_path_no_percent rest Hpct) as Hun.
  destruct (NetURL.unescape rest NetURL.encodePath) as [path|]; [|discriminate Hun].
  cbn [bind]. destruct (String.eqb rest (NetURL.escape path NetURL.encodePath));
    reflexivity.
Qed.

Lemma prefix_nil (s : string) : String.prefix "" s = true.
Proof. destruct s; reflexivity. Qed.

Lemma HasPrefix_slash (s : string) : Strings.HasPrefix (String "/" s) "/" = true.
Proof.
  unfold Strings.HasPrefix. cbn [String.prefix].
  destruct (ascii_dec "/" "/") as [_|Hne]; [apply prefix_nil | now elim Hne].
Qed.

Lemma HasPrefix_slash_upto (s : string) (k : nat) :
  Strings.HasPrefix (Strings.upto (Datatypes.S k) (String "/" s)) "/" = true.
Proof. unfold Strings.upto. cbn [substring]. apply HasPrefix_slash. Qed.

Lemma absolute_path_accepted (s : string) :
  Strings.HasPrefix s "/" = true ->
  NetURL.stringContainsCTLByte s = false ->
  byte_in "%" s = false ->
  isValidURLString s = true.
Proof.
  intros Hslash Hctl Hpct.
  destruct s as [|c s']; [discriminate Hslash|].
  unfold Strings.HasPrefix in Hslash. cbn [String.prefix] in Hslash.
  destruct (ascii_dec "/" c) as [<-|]; [clear Hslash | discriminate Hslash].
  unfold isValidURLString, NetURL.ParseRequestURI, NetURL.parse.
  rewrite Hctl.
  assert (String.eqb (String "/" s') "" = false) as -> by reflexivity.
  assert (String.eqb (String "/" s') "*" = false) as -> by reflexivity.
  assert (NetURL.getScheme (String "/" s') = Ok ("", String "/" s')) as ->
    by reflexivity.
  cbn [andb bind fst snd Strings.ToLower].
  destruct (Strings.HasSuffix (String "/" s') "?"
            && (Strings.CountByte (String "/" s') "?" =? 1)%nat) eqn:Hsuffix.
  - destruct s' as [|d s'']; [discriminate Hsuffix|].
    cbn [String.length Nat.sub].
    apply parse_rest_absolute_path;
      [apply HasPrefix_slash_upto | apply byte_in_upto, Hpct].
  - unfold Strings.Cut, Strings.Index. cbn [index String.prefix].
    destruct (ascii_dec "?" "/") as [Heq|_]; [discriminate Heq|].
    destruct (index 0 "?" s') as [i|].
    + apply parse_rest_absolute_path;
        [apply HasPrefix_slash_upto | apply byte_in_upto, Hpct].
    + apply parse_rest_absolute_path; [apply HasPrefix_slash | exact Hpct].
Qed.

(** C3, as the code has it: a link classified as well-formed is ["*"],
    begins with a slash, or begins with a non-empty scheme and a colon, so
    every other string (plain text, a path without a leading slash) is raw;
    and a link that begins with a slash and holds neither a control byte nor
    a percent sign is classified as well-formed, although it has neither
    scheme nor authority. *)
Theorem isValidURLString_shape (s : string) :
  (isValidURLString s = true ->
   s = "*"
   \/ Strings.HasPrefix s "/" = true
   \/ exists scheme rest,
        scheme <> "" /\ s = scheme ++ ":" ++ rest
        /\ NetURL.getScheme s = Ok (scheme, rest))
  /\ (Strings.HasPrefix s "/" = true ->
      NetURL.stringContainsCTLByte s = false ->
      byte_in "%" s = false ->
      isValidURLString s = true).
Proof.
  split; [|apply absolute_path_accepted].
  unfold isValidURLString, NetURL.ParseRequestURI, NetURL.parse.
  destruct (NetURL.stringContainsCTLByte s); [discriminate|].
  destruct (String.eqb_spec s ""); [discriminate|]. simpl andb. cbv iota.
  destruct (String.eqb_spec s "*") as [->|_]; [intros _; left; reflexivity|].
  destruct (NetURL.getScheme s) as [[scheme rest0]|e] eqn:Hg; [|discriminate].
  destruct (getScheme_spec _ _ _ Hg) as [[-> ->]|[Hne Heq]].
  2:{ intros _. right. right. exists scheme, rest0. repeat split; assumption. }
  intros Hok. right. left. cbn [bind fst snd Strings.ToLower] in Hok.
  destruct (Strings.HasSuffix s "?" && (Strings.CountByte s "?" =? 1)%nat).
  - apply parse_rest_no_scheme in Hok. eapply HasPrefix_upto. exact Hok.
  - unfold Strings.Cut in Hok. destruct (Strings.Index s "?") as [i|].
    + apply parse_rest_no_scheme in Hok. eapply HasPrefix_upto. exact Hok.
    + apply parse_rest_no_scheme in Hok. exact Hok.
Qed.

Lemma isValidURLString_shape_witness :
  "/foo" = "*"
  \/ Strings.HasPrefix "/foo" "/" = true
  \/ exists scheme rest,
       scheme <> "" /\ "/foo" = scheme ++ ":" ++ rest
       /\ NetURL.getScheme "/foo" = Ok (scheme, rest).
Proof. apply (proj1 (isValidURLString_shape "/foo")). reflexivity. Defined.

(** C3 as stated fails: ["/foo"] has neither scheme nor authority and is
    classified as well-formed. *)
Lemma absolute_path_is_well_formed :
  isValidURLString "/foo" = true /\ ~ has_scheme_and_authority "/foo".
Proof.
  split; [reflexivity|].
  intros (u & Hu & Hscheme & _). vm_compute in Hu.
  injection Hu as <-. apply Hscheme. reflexivity.
Qed.

(** The links of the specification's examples. *)
Example example_com_well_formed :
  isValidURLString example_com = true /\ has_scheme_and_authority example_com.
Proof.
  split; [reflexivity|].
  eexists. split; [vm_compute; reflexivity|]. split; discriminate.
Qed.

Example plain_text_is_raw :
  isValidURLString "not a url" = false /\ isValidURLString "foo/bar" = false.
Proof. split; reflexivity. Qed.

(** ** The handler *)

Lemma redirectToShortcut_ok (sc : Shortcut) : is_ok (redirectToShortcut sc) = true.
Proof.
  unfold redirectToShortcut.
  destruct (OgMetadata sc) as [og|];
    [destruct (String.eqb (Title og) "" && String.eqb (Description og) ""
               && String.eqb (Image og) "")|];
    try destruct (isValidURLString (Link sc)); reflexivity.
Qed.

Section HandlerProperties.

Context {S : Type} `{StoreAPI S}.
Variable json_Marshal : ActivityShorcutViewPayload -> result error string.
Variable BotID : Z.
Variable key : string.

Let run := handler json_Marshal BotID key.
Let rest_of := after_lookup json_Marshal BotID key.
Let find (name : string) := mkFindShortcut (Some name).

Lemma handler_found (s s1 : S) (c : echo_Context) (name : string)
    (rest : list string) (sc : Shortcut) :
  ParamValues c = name :: rest ->
  GetShortcut s (find name) = (s1, Ok (Some sc)) ->
  run s c = rest_of s1 c name sc.
Proof.
  intros Hp Hg. unfold run, rest_of, handler, after_lookup. rewrite Hp.
  fold (find name). rewrite Hg.
  destruct (checkVisibility key c sc); [reflexivity|].
  destruct (createShortcutViewActivity json_Marshal BotID s1 c sc) as [[s2 evs] [u|err]];
    [reflexivity|].
  unfold SetInternal, NewHTTPError. simpl Fmt.Sprintf.
  rewrite append_nil_r. reflexivity.
Qed.

(** The visibility check refuses with [Unauthorized] only. *)
Lemma checkVisibility_error (c : echo_Context) (sc : Shortcut) (e : handler_error) :
  checkVisibility key c sc = Some e -> e = Unauthorized.
Proof.
  unfold checkVisibility.
  destruct (negb (Visibility_eqb (Visibility_ sc) Visibility_PUBLIC)); [|discriminate].
  destruct (assert_int32 (Get c key)) as [userID ok].
  destruct ok; simpl.
  - destruct (Visibility_eqb (Visibility_ sc) Visibility_PRIVATE
              && negb (CreatorId sc =? userID)%Z); [|discriminate].
    intros [= <-]. reflexivity.
  - intros [= <-]. reflexivity.
Qed.

(** The visibility check lets a request pass exactly when the shortcut is
    public, or the caller is authenticated and, for a private shortcut,
    is its creator. *)
Lemma checkVisibility_passes (c : echo_Context) (sc : Shortcut) :
  checkVisibility key c sc = None <->
  Visibility_ sc = Visibility_PUBLIC
  \/ exists u, callerIdentity key c = Some u
               /\ (Visibility_ sc = Visibility_PRIVATE -> u = CreatorId sc).
Proof.
  unfold checkVisibility, callerIdentity.
  destruct (assert_int32 (Get c key)) as [userID ok].
  destruct (Visibility_ sc) eqn:Hv; simpl; destruct ok; simpl;
    try destruct (Z.eqb_spec (CreatorId sc) userID); simpl;
    split; intros Hx;
    try discriminate; try reflexivity;
    try (destruct Hx as [Hx|(u & Hu & Hx)]; try discriminate;
         injection Hu as <-; specialize (Hx eq_refl); congruence);
    try (right; eexists; split; [reflexivity|]; intros; congruence);
    try (left; reflexivity).
Qed.

(** Once the visibility check has passed, the handler never answers
    [Unauthorized]. *)
Lemma after_lookup_passed (s1 : S) (c : echo_Context) (name : string) (sc : Shortcut) :
  checkVisibility key c sc = None ->
  returned (rest_of s1 c name sc) <> Err Unauthorized.
Proof.
  intros Hpass. unfold rest_of, after_lookup. rewrite Hpass.
  destruct (createShortcutViewActivity json_Marshal BotID s1 c sc) as [[s2 evs] [u|err]];
    simpl.
  - pose proof (redirectToShortcut_ok sc) as Hok. intros Heq.
    rewrite Heq in Hok. discriminate Hok.
  - discriminate.
Qed.

Lemma after_lookup_refused (s1 : S) (c : echo_Context) (name : string)
    (sc : Shortcut) (e : handler_error) :
  checkVisibility key c sc = Some e ->
  rest_of s1 c name sc =
    mkOutcome s1 [EvGetShortcut (find name)] (Err Unauthorized).
Proof.
  intros Hv. unfold rest_of, after_lookup. rewrite Hv.
  rewrite (checkVisibility_error c sc e Hv). reflexivity.
Qed.

(** C1, as the code has it: for a shortcut that is not public, an
    unauthenticated caller is refused with Unauthorized; for a PRIVATE
    shortcut so is every authenticated caller other than the creator, and
    the request succeeds only for the creator; for any other non-public
    visibility (WORKSPACE) every authenticated caller passes the check. *)
Theorem non_public_visibility_check (s s1 : S) (c : echo_Context)
    (name : string) (rest : list string) (sc : Shortcut) :
  ParamValues c = name :: rest ->
  GetShortcut s (find name) = (s1, Ok (Some sc)) ->
  Visibility_ sc <> Visibility_PUBLIC ->
  (callerIdentity key c = None -> returned (run s c) = Err Unauthorized)
  /\ (Visibility_ sc = Visibility_PRIVATE ->
      forall u, callerIdentity key c = Some u -> u <> CreatorId sc ->
                returned (run s c) = Err Unauthorized)
  /\ (is_ok (returned (run s c)) = true ->
      exists u, callerIdentity key c = Some u
                /\ (Visibility_ sc = Visibility_PRIVATE -> u = CreatorId sc))
  /\ (Visibility_ sc <> Visibility_PRIVATE ->
      forall u, callerIdentity key c = Some u ->
                returned (run s c) <> Err Unauthorized).
Proof.
  intros Hp Hg Hnp. rewrite (handler_found s s1 c name rest sc Hp Hg).
  pose proof (checkVisibility_passes c sc) as Hpass.
  destruct (checkVisibility key c sc) as [e|] eqn:Hv.
  - rewrite (after_lookup_refused s1 c name sc e Hv). simpl.
    assert (~ (exists u, callerIdentity key c = Some u
                         /\ (Visibility_ sc = Visibility_PRIVATE -> u = CreatorId sc)))
      as Hno.
    { intros Hex. destruct Hpass as [_ Hback].
      specialize (Hback (or_intror Hex)). discriminate Hback. }
    repeat split.
    + discriminate.
    + intros Hnpriv u Hu _. apply Hno. exists u. split; [exact Hu|].
      intros Hpriv. contradiction.
  - destruct Hpass as [Hfwd _].
    destruct (Hfwd eq_refl) as [Hpub|(u & Hu & Hcreator)]; [contradiction|].
    repeat split.
    + intros Hnone. rewrite Hnone in Hu. discriminate Hu.
    + intros Hpriv u' Hu' Hne. rewrite Hu in Hu'. injection Hu' as <-.
      exfalso. apply Hne, Hcreator, Hpriv.
    + intros _. exists u. split; assumption.
    + intros _ _ _. apply after_lookup_passed, Hv.
Qed.

Lemma handler_no_param (s : S) (c : echo_Context) :
  ParamValues c = [] ->
  run s c = mkOutcome s [] (Err InvalidRequest).
Proof. intros Hp. unfold run, handler. rewrite Hp. reflexivity. Qed.

Lemma handler_not_found (s s1 : S) (c : echo_Context) (name : string)
    (rest : list string) :
  ParamValues c = name :: rest ->
  GetShortcut s (find name) = (s1, Ok None) ->
  run s c =
    mkOutcome s1 [EvGetShortcut (find name)]
      (Ok (Redirected 303 ("/404?shortcut=" ++ name))).
Proof.
  intros Hp Hg. unfold run, handler. rewrite Hp. fold (find name). rewrite Hg.
  simpl Fmt.Sprintf. rewrite append_nil_r. reflexivity.
Qed.

(** C6, as the code has it: a request that carries no path parameter
    value at all is refused with InvalidRequest (400), and no store call is
    made: the trace is empty and the store is untouched. *)
Theorem no_param_value_invalid_request (s : S) (c : echo_Context) :
  ParamValues c = [] ->
  returned (run s c) = Err InvalidRequest
  /\ List.filter is_store_call (trace (run s c)) = []
  /\ trace (run s c) = []
  /\ final (run s c) = s.
Proof. intros Hp. rewrite (handler_no_param s c Hp). repeat split. Qed.

(** C7, as the code has it: when the lookup finds no record, the handler
    returns normally (no error) after a 303 See Other redirect to
    [/404?shortcut=] followed by the name exactly as it was received, and
    the lookup is the only call it made. *)
Theorem not_found_redirect (s s1 : S) (c : echo_Context) (name : string)
    (rest : list string) :
  ParamValues c = name :: rest ->
  GetShortcut s (find name) = (s1, Ok None) ->
  returned (run s c) = Ok (Redirected StatusSeeOther ("/404?shortcut=" ++ name))
  /\ is_ok (returned (run s c)) = true
  /\ trace (run s c) = [EvGetShortcut (find name)].
Proof.
  intros Hp Hg. rewrite (handler_not_found s s1 c name rest Hp Hg).
  repeat split.
Qed.

(** The handler looks the shortcut up at most once, first. *)
Lemma handler_cases (s : S) (c : echo_Context) :
  (ParamValues c = [] /\ run s c = mkOutcome s [] (Err InvalidRequest))
  \/ exists name rest s1 r,
       ParamValues c = name :: rest
       /\ GetShortcut s (find name) = (s1, r)
       /\ match r with
          | Err err =>
              run s c =
                mkOutcome s1 [EvGetShortcut (find name)]
                  (Err (HTTPError StatusInternalServerError
                          ("failed to get shortcut, err: " ++ err) (Some err)))
          | Ok None =>
              run s c =
                mkOutcome s1 [EvGetShortcut (find name)]
                  (Ok (Redirected 303 ("/404?shortcut=" ++ name)))
          | Ok (Some sc) => run s c = rest_of s1 c name sc
          end.
Proof.
  destruct (ParamValues c) as [|name rest] eqn:Hp.
  - left. split; [reflexivity|]. apply handler_no_param, Hp.
  - right. destruct (GetShortcut s (find name)) as [s1 r] eqn:Hg.
    exists name, rest, s1, r. split; [reflexivity|]. split; [exact Hg|].
    destruct r as [[sc|]|err].
    + apply (handler_found s s1 c name rest sc Hp Hg).
    + apply (handler_not_found s s1 c name rest Hp Hg).
    + unfold run, handler. rewrite Hp. fold (find name). rewrite Hg.
      unfold SetInternal, NewHTTPError. simpl Fmt.Sprintf.
      rewrite append_nil_r. reflexivity.
Qed.

(** C9: a request refused with 401 writes no activity and leaves the store
    as the lookup left it; a request for a name without record is answered
    with the 303 not-found redirect and writes no activity; and whenever an
    activity write is made, the lookup had found a shortcut and the
    visibility check had let the request pass, and when that write succeeds
    the request is answered with the rendered response. *)
Theorem activity_written_only_on_resolution (s : S) (c : echo_Context) :
  (forall message internal,
      returned (run s c) = Err (HTTPError StatusUnauthorized message internal) ->
      existsb is_activity_write (trace (run s c)) = false
      /\ exists name rest,
           ParamValues c = name :: rest
           /\ final (run s c) = fst (GetShortcut s (find name)))
  /\ (forall name rest s1,
         ParamValues c = name :: rest ->
         GetShortcut s (find name) = (s1, Ok None) ->
         returned (run s c) = Ok (Redirected 303 ("/404?shortcut=" ++ name))
         /\ existsb is_activity_write (trace (run s c)) = false
         /\ final (run s c) = s1)
  /\ (forall a,
         In (EvCreateActivity a) (trace (run s c)) ->
         exists name rest s1 sc,
           ParamValues c = name :: rest
           /\ GetShortcut s (find name) = (s1, Ok (Some sc))
           /\ checkVisibility key c sc = None
           /\ final (run s c) = fst (CreateActivity s1 a)
           /\ (is_ok (snd (CreateActivity s1 a)) = true ->
               returned (run s c) = redirectToShortcut sc)).
Proof.
  split; [|split].
  - intros message internal Hret.
    destruct (handler_cases s c) as [[_ Hrun]|(name & rest & s1 & r & Hp & Hg & Hrun)].
    { rewrite Hrun in Hret. discriminate Hret. }
    destruct r as [[sc|]|err]; rewrite Hrun in Hret |- *; try discriminate Hret.
    destruct (checkVisibility key c sc) as [e|] eqn:Hv.
    + rewrite (after_lookup_refused s1 c name sc e Hv). split; [reflexivity|].
      exists name, rest. split; [exact Hp|]. rewrite Hg. reflexivity.
    + exfalso. revert Hret. unfold rest_of, after_lookup. rewrite Hv.
      destruct (createShortcutViewActivity json_Marshal BotID s1 c sc)
        as [[s2 evs] [u|err]]; simpl.
      * pose proof (redirectToShortcut_ok sc) as Hok. intros Heq.
        rewrite Heq in Hok. discriminate Hok.
      * discriminate.
  - intros name rest s1 Hp Hg.
    rewrite (handler_not_found s s1 c name rest Hp Hg). repeat split.
  - intros a Hin.
    destruct (handler_cases s c) as [[_ Hrun]|(name & rest & s1 & r & Hp & Hg & Hrun)].
    { rewrite Hrun in Hin. destruct Hin. }
    destruct r as [[sc|]|err]; rewrite Hrun in Hin.
    + exists name, rest, s1, sc. split; [exact Hp|]. split; [exact Hg|].
      rewrite Hrun.
      destruct (checkVisibility key c sc) as [e|] eqn:Hv.
      { rewrite (after_lookup_refused s1 c name sc e Hv) in Hin.
        destruct Hin as [Hin|[]]. discriminate Hin. }
      split; [reflexivity|].
      unfold rest_of, after_lookup, createShortcutViewActivity in Hin |- *.
      rewrite Hv in Hin |- *.
      destruct (json_Marshal _) as [payloadStr|err].
      2:{ destruct Hin as [Hin|[]]. discriminate Hin. }
      destruct (CreateActivity s1 _) as [s2 r] eqn:Hc.
      assert (a = mkActivity BotID ActivityShortcutView ActivityInfo payloadStr)
        as ->.
      { destruct r; simpl in Hin;
          destruct Hin as [Hin|[Hin|Hin]]; try discriminate Hin;
          try (injection Hin as <-; reflexivity);
          try (destruct Hin as [Hin|[]]; discriminate Hin);
          destruct Hin. }
      rewrite Hc. destruct r; simpl; split; try reflexivity; discriminate.
    + destruct Hin as [Hin|[]]. discriminate Hin.
    + destruct Hin as [Hin|[]]. discriminate Hin.
Qed.

(** C10: the response to a request for a public shortcut does not depend
    on the context store, hence not on whether and as whom the caller is
    authenticated: the handler returns the same response, makes the same
    calls and leaves the same store. *)
Theorem public_response_independent_of_caller (s s1 : S) (c : echo_Context)
    (name : string) (rest : list string) (sc : Shortcut)
    (m1 m2 : gmap string any) :
  ParamValues c = name :: rest ->
  GetShortcut s (find name) = (s1, Ok (Some sc)) ->
  Visibility_ sc = Visibility_PUBLIC ->
  run s (with_values c m1) = run s (with_values c m2).
Proof.
  intros Hp Hg Hpub.
  rewrite (handler_found s s1 (with_values c m1) name rest sc Hp Hg).
  rewrite (handler_found s s1 (with_values c m2) name rest sc Hp Hg).
  unfold rest_of, after_lookup, checkVisibility. rewrite Hpub. reflexivity.
Qed.

End HandlerProperties.

(** ** Concrete requests *)

Lemma non_public_visibility_check_witness :
  returned (serve demo_store (anonymous "mine")) = Err Unauthorized.
Proof.
  refine (proj1 (non_public_visibility_check (S:=MemStore) marshal_plain 0
                   "user-id" demo_store demo_store (anonymous "mine") "mine" []
                   sc_private _ _ _) _).
  - reflexivity.
  - reflexivity.
  - discriminate.
  - reflexivity.
Defined.

(** C1 as stated fails: user 2 is authenticated and is not the creator
    (user 1) of the WORKSPACE shortcut [team], and the request succeeds. *)
Lemma workspace_shortcut_served_to_other_user :
  Visibility_ sc_workspace = Visibility_WORKSPACE
  /\ CreatorId sc_workspace = 1%Z
  /\ callerIdentity "user-id" (signed_in 2 "team") = Some 2%Z
  /\ fst (mem_GetShortcut demo_store (mkFindShortcut (Some "team")))  = demo_store
  /\ snd (mem_GetShortcut demo_store (mkFindShortcut (Some "team")))
     = Ok (Some sc_workspace)
  /\ returned (serve demo_store (signed_in 2 "team"))
     = Ok (Redirected 303 example_com).
Proof. repeat split; vm_compute; reflexivity. Qed.

Lemma no_param_value_invalid_request_witness :
  let o := serve demo_store (mkContext [] ∅ "203.0.113.7" "" "curl/8") in
  returned o = Err InvalidRequest
  /\ List.filter is_store_call (trace o) = []
  /\ trace o = []
  /\ final o = demo_store.
Proof.
  apply (no_param_value_invalid_request (S:=MemStore) marshal_plain 0 "user-id").
  reflexivity.
Defined.

(** C6 as stated fails: with the empty string as path segment (echo binds
    the wildcard of [GET /*] to the rest of the path, which is empty for a
    request to the mount point itself) the handler calls the store and
    answers with the not-found redirect, not with 400. *)
Lemma empty_segment_is_looked_up :
  ParamValues (anonymous "") = [""]
  /\ trace (serve demo_store (anonymous ""))
     = [EvGetShortcut (mkFindShortcut (Some ""))]
  /\ returned (serve demo_store (anonymous ""))
     = Ok (Redirected 303 "/404?shortcut=").
Proof. repeat split. Qed.

Lemma not_found_redirect_witness :
  let o := serve demo_store (anonymous "nope") in
  returned o = Ok (Redirected 303 "/404?shortcut=nope")
  /\ is_ok (returned o) = true
  /\ trace o = [EvGetShortcut (mkFindShortcut (Some "nope"))].
Proof.
  apply (not_found_redirect (S:=MemStore) marshal_plain 0 "user-id"
           demo_store demo_store (anonymous "nope") "nope" []).
  - reflexivity.
  - reflexivity.
Defined.

(** C7 as stated fails: the name [a b] reaches the Location header with its
    space, in neither of the URL-encoded forms. *)
Lemma not_found_name_not_encoded :
  returned (serve demo_store (anonymous "a b"))
  = Ok (Redirected 303 "/404?shortcut=a b")
  /\ NetURL.QueryEscape "a b" = "a+b"
  /\ NetURL.PathEscape "a b" = "a%20b".
Proof. repeat split. Qed.

Lemma activity_written_only_on_resolution_witness :
  existsb is_activity_write (trace (serve demo_store (anonymous "mine"))) = false
  /\ exists name rest,
       ParamValues (anonymous "mine") = name :: rest
       /\ final (serve demo_store (anonymous "mine"))
          = fst (GetShortcut demo_store (mkFindShortcut (Some name))).
Proof.
  apply (proj1 (activity_written_only_on_resolution (S:=MemStore) marshal_plain 0
                  "user-id" demo_store (anonymous "mine"))
           "Unauthorized" None).
  reflexivity.
Defined.

Lemma public_response_independent_of_caller_witness :
  serve demo_store (anonymous "pub") = serve demo_store (signed_in 2 "pub").
Proof.
  apply (public_response_independent_of_caller (S:=MemStore) marshal_plain 0
           "user-id" demo_store demo_store (anonymous "pub") "pub" [] sc_public
           ∅ (<["user-id" := AnyInt32 2]> ∅)).
  - reflexivity.
  - reflexivity.
  - reflexivity.
Defined.

(** The creator of a private shortcut is served, and the view is
    recorded. *)
Example private_shortcut_served_to_creator :
  returned (serve demo_store (signed_in 1 "mine")) = Ok (Redirected 303 example_com)
  /\ List.length (activities (final (serve demo_store (signed_in 1 "mine")))) = 1.
Proof. split; vm_compute; reflexivity. Qed.

(** A refused or unknown request leaves no activity in the store. *)
Example no_activity_recorded_when_refused :
  activities (final (serve demo_store (anonymous "mine"))) = []
  /\ activities (final (serve demo_store (anonymous "nope"))) = [].
Proof. split; reflexivity. Qed.

(** * Further properties of the redirector *)

Lemma QueryEscape_unreserved (name : string) :
  unreserved_only name = true -> NetURL.QueryEscape name = name.
Proof.
  unfold NetURL.QueryEscape. induction name as [|x name IH]; [reflexivity|].
  cbn [unreserved_only]. intros Hun. apply andb_prop in Hun as [Hx Hrest].
  cbn [NetURL.escape].
  assert (NetURL.shouldEscape x NetURL.encodeQueryComponent = false) as ->.
  { unfold NetURL.shouldEscape. destruct (is_alnum x); [reflexivity|].
    cbn [orb] in Hx. cbn [NetURL.is_host_mode andb]. rewrite Hx. reflexivity. }
  f_equal. apply IH, Hrest.
Qed.

Section HandlerExtras.

Context {S : Type} `{StoreAPI S}.
Variable json_Marshal : ActivityShorcutViewPayload -> result error string.
Variable BotID : Z.
Variable key : string.

Let run := handler json_Marshal BotID key.
Let rest_of := after_lookup json_Marshal BotID key.
Let find (name : string) := mkFindShortcut (Some name).
Let ends := ending json_Marshal BotID key.

(** The three ways the handler ends once the visibility check has passed. *)
Lemma after_lookup_passed_cases (s1 : S) (c : echo_Context) (name : string)
    (sc : Shortcut) :
  checkVisibility key c sc = None ->
  match json_Marshal (viewPayload c sc) with
  | Err err =>
      rest_of s1 c name sc =
        mkOutcome s1 [EvGetShortcut (find name)]
          (Err (internal_error "failed to create activity, err: "
                  (errors_Wrap err "Failed to marshal activity payload")))
  | Ok payloadStr =>
      match CreateActivity s1 (viewActivity BotID payloadStr) with
      | (s2, Err err) =>
          rest_of s1 c name sc =
            mkOutcome s2
              [EvGetShortcut (find name);
               EvCreateActivity (viewActivity BotID payloadStr)]
              (Err (internal_error "failed to create activity, err: "
                      (errors_Wrap err "Failed to create activity")))
      | (s2, Ok _) =>
          rest_of s1 c name sc =
            mkOutcome s2
              [EvGetShortcut (find name);
               EvCreateActivity (viewActivity BotID payloadStr);
               EvMetric "shortcut redirect"]
              (redirectToShortcut sc)
      end
  end.
Proof.
  intros Hv. unfold rest_of, after_lookup, createShortcutViewActivity.
  rewrite Hv. fold (viewPayload c sc).
  destruct (json_Marshal (viewPayload c sc)) as [payloadStr|err]; [|reflexivity].
  fold (viewActivity BotID payloadStr).
  destruct (CreateActivity s1 (viewActivity BotID payloadStr)) as [s2 [a'|err]];
    reflexivity.
Qed.

(** Every run of the handler ends in one of the seven ways. *)
Lemma handler_ending (s : S) (c : echo_Context) : ends s c (run s c).
Proof.
  destruct (handler_cases json_Marshal BotID key s c)
    as [[Hp Hrun]|(name & rest & s1 & r & Hp & Hg & Hrun)].
  { fold run in Hrun. rewrite Hrun. apply end_no_param, Hp. }
  fold run in Hrun. fold (find name) in Hg, Hrun.
  destruct r as [[sc|]|err].
  - fold rest_of in Hrun. rewrite Hrun.
    destruct (checkVisibility key c sc) as [e|] eqn:Hv.
    + pose proof (after_lookup_refused json_Marshal BotID key s1 c name sc e Hv) as Href.
      fold rest_of in Href. fold (find name) in Href. rewrite Href.
      eapply end_refused; eassumption.
    + pose proof (after_lookup_passed_cases s1 c name sc Hv) as Hcases.
      destruct (json_Marshal (viewPayload c sc)) as [payloadStr|err] eqn:Hm.
      * destruct (CreateActivity s1 (viewActivity BotID payloadStr))
          as [s2 [a'|err]] eqn:Hc;
          rewrite Hcases;
          [eapply end_rendered | eapply end_write_failed]; eassumption.
      * rewrite Hcases. eapply end_marshal_failed; eassumption.
  - rewrite Hrun. eapply end_not_found; eassumption.
  - rewrite Hrun. eapply end_lookup_failed; eassumption.
Qed.

(** The way a request ends is determined by the request and the store. *)
Lemma ending_unique (s : S) (c : echo_Context) (o1 o2 : Outcome S) :
  ends s c o1 -> ends s c o2 -> o1 = o2.
Proof.
  intros H1 H2. destruct H1; destruct H2;
    repeat match goal with
      | Ha : ?x = _, Hb : ?x = _ |- _ =>
          rewrite Ha in Hb; first [discriminate Hb | injection Hb as ?; subst]
      end;
    reflexivity.
Qed.

Lemma redirectToShortcut_cases (sc : Shortcut) :
  (redirectToShortcut sc = Ok (Redirected 303 (Link sc))
   /\ isValidURLString (Link sc) = true
   /\ ~ ogMetadata_present (OgMetadata sc))
  \/ (redirectToShortcut sc = Ok (PlainText 200 (Link sc))
      /\ isValidURLString (Link sc) = false
      /\ ~ ogMetadata_present (OgMetadata sc))
  \/ (exists html, redirectToShortcut sc = Ok (HTMLPage 200 html)
                   /\ ogMetadata_present (OgMetadata sc)).
Proof.
  unfold redirectToShortcut, ogMetadata_present.
  destruct (OgMetadata sc) as [og|].
  - destruct (String.eqb_spec (Title og) "") as [Ht|Ht];
      [destruct (String.eqb_spec (Description og) "") as [Hd|Hd];
       [destruct (String.eqb_spec (Image og) "") as [Hi|Hi]|]|];
      cbn [andb].
    1:{ assert (~ (exists og0, Some og = Some og0
                     /\ (Title og0 <> "" \/ Description og0 <> "" \/ Image og0 <> "")))
          as Habs.
        { intros (og0 & [= <-] & Hp). tauto. }
        destruct (isValidURLString (Link sc)); [left | right; left];
          repeat split; assumption. }
    all: right; right; eexists; split; [reflexivity|];
      exists og; split; [reflexivity | tauto].
  - assert (~ (exists og0 : OpenGraphMetadata, None = Some og0
                 /\ (Title og0 <> "" \/ Description og0 <> "" \/ Image og0 <> "")))
      as Habs.
    { intros (og0 & Heq & _). discriminate Heq. }
    destruct (isValidURLString (Link sc)); [left | right; left];
      repeat split; assumption.
Qed.

Lemma isValidURLString_no_control_byte (s : string) :
  isValidURLString s = true -> NetURL.stringContainsCTLByte s = false.
Proof.
  unfold isValidURLString, NetURL.ParseRequestURI, NetURL.parse.
  destruct (NetURL.stringContainsCTLByte s); [discriminate | reflexivity].
Qed.

(** X1: an HTTP error the handler returns has status 400 (only without
    path parameter), 401 or 500, and a 500 always carries the underlying
    error; a response it writes is a 303 redirect or a 200 page or text. An
    error that is not an HTTP error can only come from the response writer,
    which is not modelled: nothing is said about it. *)
Theorem handler_status_codes (s : S) (c : echo_Context) :
  match returned (run s c) with
  | Err (HTTPError code message internal) =>
      (code = 400%Z /\ internal = None /\ ParamValues c = [])
      \/ (code = 401%Z /\ internal = None /\ message = "Unauthorized")
      \/ (code = 500%Z /\ exists err, internal = Some err)
  | Err (PlainError _) => True
  | Ok (Redirected code _) => code = 303%Z
  | Ok (PlainText code _) => code = 200%Z
  | Ok (HTMLPage code _) => code = 200%Z
  end.
Proof.
  generalize (handler_ending s c). generalize (run s c). intros o He.
  destruct He; cbn [returned].
  - left. repeat split. assumption.
  - right. right. split; [reflexivity | eexists; reflexivity].
  - reflexivity.
  - right. left. repeat split.
  - right. right. split; [reflexivity | eexists; reflexivity].
  - right. right. split; [reflexivity | eexists; reflexivity].
  - destruct (redirectToShortcut_cases sc) as [(-> & _)|[(-> & _)|(html & -> & _)]];
      reflexivity.
Qed.

(** X2: the handler answers 500 exactly when a collaborator fails: the
    shortcut lookup, or, for a found shortcut that passed the visibility
    check, the marshalling of the payload or the activity write. *)
Theorem internal_error_iff_collaborator_fails (s : S) (c : echo_Context) :
  (exists message internal,
      returned (run s c) = Err (HTTPError 500 message internal))
  <->
  exists name rest s1,
    ParamValues c = name :: rest
    /\ ((exists err, GetShortcut s (find name) = (s1, Err err))
        \/ exists sc,
             GetShortcut s (find name) = (s1, Ok (Some sc))
             /\ checkVisibility key c sc = None
             /\ ((exists err, json_Marshal (viewPayload c sc) = Err err)
                 \/ exists payloadStr,
                      json_Marshal (viewPayload c sc) = Ok payloadStr
                      /\ is_ok (snd (CreateActivity s1 (viewActivity BotID payloadStr)))
                         = false)).
Proof.
  split.
  - intros (message & internal & Hret). revert Hret.
    generalize (handler_ending s c). generalize (run s c). intros o He.
    destruct He; cbn [returned]; intros Hret; try discriminate Hret.
    + exists name, rest, s1. split; [assumption|]. left. eexists. eassumption.
    + exists name, rest, s1. split; [assumption|]. right. exists sc.
      repeat split; try assumption. left. eexists. eassumption.
    + exists name, rest, s1. split; [assumption|]. right. exists sc.
      repeat split; try assumption. right. exists payloadStr.
      split; [assumption|].
      match goal with Hc : CreateActivity _ _ = _ |- _ => rewrite Hc end.
      reflexivity.
    + pose proof (redirectToShortcut_ok sc) as Hok. rewrite Hret in Hok.
      discriminate Hok.
  - intros (name & rest & s1 & Hp & [(err & Hg)|(sc & Hg & Hv & Hfail)]).
    + rewrite (ending_unique s c _ _ (handler_ending s c)
                 (end_lookup_failed json_Marshal BotID key s c name rest s1 err Hp Hg)).
      eexists. eexists. reflexivity.
    + destruct Hfail as [(err & Hm)|(payloadStr & Hm & Hw)].
      * rewrite (ending_unique s c _ _ (handler_ending s c)
                   (end_marshal_failed json_Marshal BotID key s c name rest s1 sc err
                      Hp Hg Hv Hm)).
        eexists. eexists. reflexivity.
      * destruct (CreateActivity s1 (viewActivity BotID payloadStr))
          as [s2 [a'|err]] eqn:Hc; [discriminate Hw|].
        rewrite (ending_unique s c _ _ (handler_ending s c)
                   (end_write_failed json_Marshal BotID key s c name rest s1 sc
                      payloadStr s2 err Hp Hg Hv Hm Hc)).
        eexists. eexists. reflexivity.
Qed.

(** X3: the handler calls its collaborators in a fixed order and at most
    once each: nothing without a path parameter, else one lookup of exactly
    the first path parameter, then at most one activity write, then at most
    one metric event, which only follows a write. *)
Theorem handler_trace_shape (s : S) (c : echo_Context) :
  (ParamValues c = [] /\ trace (run s c) = [])
  \/ exists name rest,
       ParamValues c = name :: rest
       /\ (trace (run s c) = [EvGetShortcut (find name)]
           \/ exists a,
                trace (run s c) = [EvGetShortcut (find name); EvCreateActivity a]
                \/ trace (run s c)
                   = [EvGetShortcut (find name); EvCreateActivity a;
                      EvMetric "shortcut redirect"]).
Proof.
  generalize (handler_ending s c). generalize (run s c). intros o He.
  destruct He; cbn [trace];
    [left; split; [assumption | reflexivity] | right; exists name, rest; split; [assumption|] ..].
  - left. reflexivity.
  - left. reflexivity.
  - left. reflexivity.
  - left. reflexivity.
  - right. eexists. left. reflexivity.
  - right. eexists. right. reflexivity.
Qed.

(** X4: the metric event is emitted exactly when the response of a found
    shortcut is rendered: never for the not-found redirect and never on an
    error. *)
Theorem metric_iff_rendered (s : S) (c : echo_Context) :
  In (EvMetric "shortcut redirect") (trace (run s c))
  <->
  exists name rest s1 sc,
    ParamValues c = name :: rest
    /\ GetShortcut s (find name) = (s1, Ok (Some sc))
    /\ returned (run s c) = redirectToShortcut sc.
Proof.
  split.
  - generalize (handler_ending s c). generalize (run s c). intros o He.
    destruct He; cbn [trace returned In]; intros Hin;
      repeat (destruct Hin as [Hin|Hin]; [try discriminate Hin|]);
      try destruct Hin.
    exists name, rest, s1, sc. repeat split; assumption.
  - intros (name & rest & s1 & sc & Hp & Hg & Hret).
    pose proof (redirectToShortcut_ok sc) as Hok. rewrite <- Hret in Hok.
    clear Hret. revert Hok. unfold find in Hg.
    generalize (handler_ending s c). generalize (run s c). intros o He.
    destruct He; cbn [trace returned is_ok In]; intros Hok;
      try discriminate Hok.
    + match goal with
      | Hp' : ParamValues c = _ :: _, Hg' : GetShortcut s _ = (_, Ok None) |- _ =>
          rewrite Hp in Hp'; injection Hp' as <- <-;
          rewrite Hg in Hg'; discriminate Hg'
      end.
    + right. right. left. reflexivity.
Qed.

(** X5: an activity the handler writes is the view of the shortcut the
    lookup returned: its payload is the marshalled shortcut id with the
    request's IP, referer and user agent, and its creator is the bot. *)
Theorem written_activity_describes_request (s : S) (c : echo_Context) (a : Activity) :
  In (EvCreateActivity a) (trace (run s c)) ->
  exists name rest s1 sc,
    ParamValues c = name :: rest
    /\ GetShortcut s (find name) = (s1, Ok (Some sc))
    /\ json_Marshal (mkPayload (Id sc) (RealIP c) (Referer c) (UserAgent c))
       = Ok (Payload a)
    /\ CreatorID a = BotID.
Proof.
  generalize (handler_ending s c). generalize (run s c). intros o He.
  destruct He; cbn [trace In]; intros Hin;
    repeat (destruct Hin as [Hin|Hin]; [try discriminate Hin|]);
    try solve [destruct Hin].
  all: injection Hin as <-; exists name, rest, s1, sc;
    repeat split; assumption.
Qed.

(** X6: a 303 redirect of the handler goes to the not-found page for the
    requested name, or to the link of the found shortcut; in the latter case
    the shortcut has no metadata and its link is well-formed, so it is not
    empty and holds no control byte. *)
Theorem redirect_targets (s : S) (c : echo_Context) (code : Z) (loc : string) :
  returned (run s c) = Ok (Redirected code loc) ->
  code = 303%Z
  /\ exists name rest s1,
       ParamValues c = name :: rest
       /\ ((GetShortcut s (find name) = (s1, Ok None)
            /\ loc = "/404?shortcut=" ++ name)
           \/ exists sc,
                GetShortcut s (find name) = (s1, Ok (Some sc))
                /\ loc = Link sc
                /\ ~ ogMetadata_present (OgMetadata sc)
                /\ isValidURLString loc = true
                /\ NetURL.stringContainsCTLByte loc = false
                /\ loc <> "").
Proof.
  generalize (handler_ending s c). generalize (run s c). intros o He.
  destruct He; cbn [returned]; intros Hret; try discriminate Hret.
  - injection Hret as <- <-. split; [reflexivity|].
    exists name, rest, s1. split; [assumption|]. left. split; [assumption|reflexivity].
  - destruct (redirectToShortcut_cases sc)
      as [(Heq & Hvalid & Habs)|[(Heq & _)|(html & Heq & _)]];
      rewrite Heq in Hret; try discriminate Hret.
    injection Hret as <- <-. split; [reflexivity|].
    exists name, rest, s1. split; [assumption|]. right. exists sc.
    repeat split; try assumption.
    + apply isValidURLString_no_control_byte, Hvalid.
    + intros Hempty. rewrite Hempty in Hvalid. discriminate Hvalid.
Qed.

(** X7: a name made of unreserved characters only is its own URL-encoding,
    so for such a name the not-found redirect goes to the URL-encoded
    target. *)
Theorem not_found_target_encoded_for_unreserved (s s1 : S) (c : echo_Context)
    (name : string) (rest : list string) :
  ParamValues c = name :: rest ->
  GetShortcut s (find name) = (s1, Ok None) ->
  unreserved_only name = true ->
  returned (run s c)
  = Ok (Redirected 303 ("/404?shortcut=" ++ NetURL.QueryEscape name)).
Proof.
  intros Hp Hg Hun.
  rewrite (ending_unique s c _ _ (handler_ending s c)
             (end_not_found json_Marshal BotID key s c name rest s1 Hp Hg)).
  cbn [returned]. rewrite (QueryEscape_unreserved name Hun). reflexivity.
Qed.

End HandlerExtras.

(** X8: when the metadata is present and the link is not well-formed, the
    body of the page is the escaped link: whatever the link, the body holds
    no [<], [>], quote or double quote. *)
Theorem raw_link_body_has_no_markup (sc : Shortcut) :
  ogMetadata_present (OgMetadata sc) ->
  isValidURLString (Link sc) = false ->
  exists head body,
    redirectToShortcut sc = Ok (HTMLPage 200 (page head body))
    /\ body = Html.EscapeString (Link sc)
    /\ forall b, byte_in b markup_bytes = true -> byte_in b body = false.
Proof.
  intros (og & Hog & Hp) Hraw.
  exists (Strings.Join (metadataList og (Link sc) false) ""),
         (Html.EscapeString (Link sc)).
  split; [|split; [reflexivity|]].
  - rewrite (redirectToShortcut_page sc og Hog Hp), Hraw. reflexivity.
  - intros b Hb. apply EscapeString_no_markup, Hb.
Qed.

(** Concrete runs of the handler. *)

Lemma sc_raw_preview_present : ogMetadata_present (OgMetadata sc_raw_preview).
Proof.
  exists (mkOpenGraphMetadata "T" "D" ""). split; [reflexivity|].
  left. discriminate.
Defined.

Lemma written_activity_describes_request_witness :
  exists name rest s1 sc,
    ParamValues (anonymous "pub") = name :: rest
    /\ GetShortcut demo_store (mkFindShortcut (Some name)) = (s1, Ok (Some sc))
    /\ marshal_plain (mkPayload (Id sc) (RealIP (anonymous "pub"))
                        (Referer (anonymous "pub")) (UserAgent (anonymous "pub")))
       = Ok (Payload view_of_pub)
    /\ CreatorID view_of_pub = 0%Z.
Proof.
  apply (written_activity_describes_request (S:=MemStore) marshal_plain 0 "user-id"
           demo_store (anonymous "pub") view_of_pub).
  vm_compute. right. left. reflexivity.
Defined.

Lemma redirect_targets_witness :
  303%Z = 303%Z
  /\ exists name rest s1,
       ParamValues (anonymous "pub") = name :: rest
       /\ ((GetShortcut demo_store (mkFindShortcut (Some name)) = (s1, Ok None)
            /\ example_com = "/404?shortcut=" ++ name)
           \/ exists sc,
                GetShortcut demo_store (mkFindShortcut (Some name)) = (s1, Ok (Some sc))
                /\ example_com = Link sc
                /\ ~ ogMetadata_present (OgMetadata sc)
                /\ isValidURLString example_com = true
                /\ NetURL.stringContainsCTLByte example_com = false
                /\ example_com <> "").
Proof.
  apply (redirect_targets (S:=MemStore) marshal_plain 0 "user-id" demo_store
           (anonymous "pub") 303 example_com).
  reflexivity.
Defined.

Lemma not_found_target_encoded_for_unreserved_witness :
  returned (serve demo_store (anonymous "no-such_name.v2~"))
  = Ok (Redirected 303 ("/404?shortcut=" ++ NetURL.QueryEscape "no-such_name.v2~")).
Proof.
  apply (not_found_target_encoded_for_unreserved (S:=MemStore) marshal_plain 0
           "user-id" demo_store demo_store (anonymous "no-such_name.v2~")
           "no-such_name.v2~" []);
    reflexivity.
Defined.

Lemma raw_link_body_has_no_markup_witness :
  exists head body,
    redirectToShortcut sc_raw_preview = Ok (HTMLPage 200 (page head body))
    /\ body = Html.EscapeString (Link sc_raw_preview)
    /\ forall b, byte_in b markup_bytes = true -> byte_in b body = false.
Proof.
  apply (raw_link_body_has_no_markup sc_raw_preview sc_raw_preview_present).
  reflexivity.
Defined.

(** * The user store *)

Module UserStoreFacts.
Import UserStore.

(** ** The user store *)



Lemma CountByte_append (a b : string) (c : ascii) :
  Strings.CountByte (a ++ b) c = Strings.CountByte a c + Strings.CountByte b c.
Proof.
  induction a as [|x a IH]; [reflexivity|].
  cbn [String.append Strings.CountByte]. rewrite IH. lia.
Qed.

Lemma CountByte_Join (l : list string) (sep : string) :
  Strings.CountByte sep "?" = 0 ->
  Strings.CountByte (Strings.Join l sep) "?" = placeholders l.
Proof.
  intros Hsep. induction l as [|e l IH]; [reflexivity|].
  destruct l as [|e' l].
  - cbn [Strings.Join placeholders fold_right]. lia.
  - change (Strings.Join (e :: e' :: l) sep)
      with (e ++ sep ++ Strings.Join (e' :: l) sep).
    rewrite !CountByte_append, Hsep, IH. reflexivity.
Qed.

Lemma placeholders_app (l1 l2 : list string) :
  placeholders (l1 ++ l2) = placeholders l1 + placeholders l2.
Proof.
  induction l1 as [|e l1 IH]; [reflexivity|].
  cbn [app placeholders fold_right]. fold (placeholders (l1 ++ l2)).
  fold (placeholders l1). rewrite IH. lia.
Qed.

(** A clause with one placeholder and its argument keep the clauses and the
    arguments in step. *)
Lemma with_field_balanced {A : Type} (field : option A) (clause : string)
    (arg : A -> sql_arg) (acc : list string * list sql_arg) :
  Strings.CountByte clause "?" = 1 ->
  placeholders (fst acc) = List.length (snd acc) ->
  placeholders (fst (with_field field clause arg acc))
  = List.length (snd (with_field field clause arg acc)).
Proof.
  intros Hc Hacc. destruct field as [v|]; [|exact Hacc].
  cbn [with_field fst snd]. rewrite placeholders_app, length_app, Hacc.
  cbn. rewrite Hc. lia.
Qed.

Lemma with_field_length {A : Type} (field : option A) (clause : string)
    (arg : A -> sql_arg) (acc : list string * list sql_arg) :
  List.length (fst acc) <= List.length (fst (with_field field clause arg acc)).
Proof.
  destruct field; cbn [with_field fst]; [rewrite length_app|]; lia.
Qed.

Lemma updateUserSet_balanced (update : UpdateUser_) :
  placeholders (fst (updateUserSet update))
  = List.length (snd (updateUserSet update)).
Proof.
  unfold updateUserSet.
  repeat (apply with_field_balanced; [reflexivity|]). reflexivity.
Qed.

Lemma cacheAll_cons (u : User) (l : list User) (m : gmap Z User) :
  cacheAll (u :: l) m = cacheAll l (<[ID u := u]> m).
Proof. reflexivity. Qed.

Lemma cacheAll_lookup_other (l : list User) (m : gmap Z User) (k : Z) :
  ~ In k (map ID l) -> cacheAll l m !! k = m !! k.
Proof.
  revert m. induction l as [|u l IH]; intros m Hk; [reflexivity|].
  rewrite cacheAll_cons, IH.
  - apply lookup_insert_ne. intros Heq. apply Hk. left. exact Heq.
  - intros Hin. apply Hk. right. exact Hin.
Qed.

Lemma cacheAll_lookup_listed (l : list User) (m : gmap Z User) (u : User) :
  In u l ->
  exists u', cacheAll l m !! ID u = Some u' /\ In u' l /\ ID u' = ID u.
Proof.
  revert m u. induction l as [|x l IH]; intros m u Hin; [destruct Hin|].
  rewrite cacheAll_cons.
  assert (forall v, In v l ->
            exists u', cacheAll l (<[ID x := x]> m) !! ID v = Some u'
                       /\ In u' (x :: l) /\ ID u' = ID v) as Hrest.
  { intros v Hv. destruct (IH (<[ID x := x]> m) v Hv) as (u' & Hl & Hu' & Hid).
    exists u'. repeat split; [exact Hl | right; exact Hu' | exact Hid]. }
  destruct Hin as [<-|Hin]; [|apply Hrest, Hin].
  destruct (in_dec Z.eq_dec (ID x) (map ID l)) as [Hdup|Hfresh].
  - apply in_map_iff in Hdup as (v & Hid & Hv).
    destruct (Hrest v Hv) as (u' & Hl & Hu' & Hid'). exists u'.
    rewrite Hid in Hl, Hid'. repeat split; assumption.
  - exists x. rewrite (cacheAll_lookup_other l _ _ Hfresh), lookup_insert_eq.
    repeat split. left. reflexivity.
Qed.

Lemma cacheAll_keyed (l : list User) (m : gmap Z User) :
  (forall k u, m !! k = Some u -> ID u = k) ->
  forall k u, cacheAll l m !! k = Some u -> ID u = k.
Proof.
  revert m. induction l as [|x l IH]; intros m Hm; [exact Hm|].
  rewrite cacheAll_cons. apply IH. intros k u.
  destruct (Z.eq_dec (ID x) k) as [<-|Hne].
  - rewrite lookup_insert_eq. intros [= <-]. reflexivity.
  - rewrite lookup_insert_ne by exact Hne. apply Hm.
Qed.

Lemma with_field_lengths {A : Type} (field : option A) (clause : string)
    (arg : A -> sql_arg) (acc : list string * list sql_arg) :
  List.length (fst acc) = List.length (snd acc) ->
  List.length (fst (with_field field clause arg acc))
  = List.length (snd (with_field field clause arg acc)).
Proof.
  intros Hacc. destruct field as [v|]; [|exact Hacc].
  cbn [with_field fst snd]. rewrite !length_app, Hacc. reflexivity.
Qed.

Lemma updateUserSet_lengths (update : UpdateUser_) :
  List.length (fst (updateUserSet update))
  = List.length (snd (updateUserSet update)).
Proof.
  unfold updateUserSet. repeat apply with_field_lengths. reflexivity.
Qed.

Lemma NoDup_map_In_eq {A B : Type} (f : A -> B) (l : list A) (x y : A) :
  List.NoDup (map f l) -> In x l -> In y l -> f x = f y -> x = y.
Proof.
  induction l as [|a l IH]; intros Hnd Hx Hy Hf; [destruct Hx|].
  cbn [map] in Hnd. apply NoDup_cons_iff in Hnd as [Hfresh Hnd].
  destruct Hx as [<-|Hx], Hy as [<-|Hy].
  - reflexivity.
  - exfalso. apply Hfresh. rewrite Hf. apply in_map, Hy.
  - exfalso. apply Hfresh. rewrite <- Hf. apply in_map, Hx.
  - apply IH; assumption.
Qed.

Section UserStoreProperties.

Context {D : Type} `{SQL D}.
Variable RowStatus_String : RowStatus -> string.

Let ListUsers_ := ListUsers RowStatus_String.
Let GetUser_ := GetUser RowStatus_String.

Lemma listUsersWhere_balanced (find : FindUser) :
  placeholders (fst (listUsersWhere RowStatus_String find))
  = List.length (snd (listUsersWhere RowStatus_String find)).
Proof.
  unfold listUsersWhere.
  repeat (apply with_field_balanced; [reflexivity|]). reflexivity.
Qed.

Lemma listUsersWhere_first (find : FindUser) :
  exists more, fst (listUsersWhere RowStatus_String find) = "1 = 1" :: more.
Proof.
  unfold listUsersWhere.
  destruct (FindID find), (FindRowStatus find), (FindEmail find),
    (FindNickname find), (FindRole find); cbn; eexists; reflexivity.
Qed.

(** What [ListUsers] does, in one equation. *)
Lemma ListUsers_eq (s : Store D) (find : FindUser) :
  let where_ := fst (listUsersWhere RowStatus_String find) in
  let args := snd (listUsersWhere RowStatus_String find) in
  let query := listUsersHead ++ Strings.Join where_ " AND " ++ listUsersTail in
  ListUsers_ s find =
    match snd (QueryScanUsers (db s) query args) with
    | Err err =>
        (mkStore (fst (QueryScanUsers (db s) query args)) (userCache s),
         [CallQuery query args], Err err)
    | Ok list =>
        (mkStore (fst (QueryScanUsers (db s) query args))
           (cacheAll list (userCache s)),
         [CallQuery query args], Ok list)
    end.
Proof.
  cbv zeta. unfold ListUsers_, ListUsers.
  destruct (listUsersWhere RowStatus_String find) as [where_ args].
  cbn [fst snd].
  destruct (QueryScanUsers (db s) _ args) as [d [list|err]]; reflexivity.
Qed.

Lemma ListUsers_calls (s : Store D) (find : FindUser) :
  exists query args s' r, ListUsers_ s find = (s', [CallQuery query args], r).
Proof.
  rewrite ListUsers_eq. cbv zeta.
  destruct (snd (QueryScanUsers (db s) _ _)); eexists _, _, _, _; reflexivity.
Qed.

(** X9: an update that sets no field is refused with "no fields to update"
    before the database is touched: no call is made and the store, cache
    included, stays as it was. *)
Theorem UpdateUser_without_fields (s : Store D) (update : UpdateUser_) :
  UpdateRowStatus update = None ->
  UpdateEmail update = None ->
  UpdateNickname update = None ->
  UpdatePasswordHash update = None ->
  UpdateRole update = None ->
  UpdateUser s update = (s, [], Err "no fields to update").
Proof.
  intros Hr He Hn Hp Ho. unfold UpdateUser, updateUserSet.
  rewrite Hr, He, Hn, Hp, Ho. reflexivity.
Qed.

(** The [set] and [args] of [UpdateUser] pair each column with its own
    value. *)
Lemma updateUserSet_assignments (update : UpdateUser_) :
  updateUserSet update
  = (map fst (assignments update), map snd (assignments update)).
Proof.
  unfold updateUserSet, assignments.
  destruct (UpdateRowStatus update), (UpdateEmail update),
    (UpdateNickname update), (UpdatePasswordHash update), (UpdateRole update);
    reflexivity.
Qed.

(** X10: when an update sets a field, the database is asked exactly once.
    The statement sets the columns of the fields that are set, in the order
    row_status, email, nickname, password_hash, role, each to a [?]; the
    arguments are the values of these fields, each at the place of its own
    column, followed by the user id for the [WHERE] clause; the statement
    holds as many [?] placeholders as arguments are passed. *)
Theorem UpdateUser_statement (s : Store D) (update : UpdateUser_) :
  assignments update <> [] ->
  exists s' r,
    let stmt :=
      updateUserHead ++ Strings.Join (map fst (assignments update)) ", "
      ++ updateUserTail in
    let args :=
      (map snd (assignments update) ++ [ArgInt32 (UpdateID update)])%list in
    UpdateUser s update = (s', [CallQueryRow stmt args], r)
    /\ Strings.CountByte stmt "?" = List.length args.
Proof.
  intros Hset.
  pose proof (updateUserSet_balanced update) as Hbal.
  unfold UpdateUser. rewrite updateUserSet_assignments in Hbal |- *.
  cbn [fst snd] in Hbal.
  assert ((List.length (map fst (assignments update)) =? 0)%nat = false) as ->.
  { apply Nat.eqb_neq. rewrite length_map.
    destruct (assignments update); [congruence | discriminate]. }
  destruct (QueryRowScanUser (db s) _ _) as [d [user|err]];
    eexists _, _; cbv zeta; (split; [reflexivity|]);
    rewrite !CountByte_append,
      (CountByte_Join (map fst (assignments update)) ", " eq_refl), Hbal,
      length_app;
    change (Strings.CountByte updateUserHead "?") with 0;
    change (Strings.CountByte updateUserTail "?") with 1; cbn [List.length]; lia.
Qed.

(** X11: [ListUsers] asks the database exactly once; its WHERE clause is
    never empty, since it starts with the constant condition [1 = 1], and
    the query holds as many [?] placeholders as arguments are passed. *)
Theorem ListUsers_query (s : Store D) (find : FindUser) :
  exists more args s' r,
    listUsersWhere RowStatus_String find = ("1 = 1" :: more, args)
    /\ let query :=
         listUsersHead ++ Strings.Join ("1 = 1" :: more) " AND " ++ listUsersTail in
       ListUsers_ s find = (s', [CallQuery query args], r)
       /\ Strings.CountByte query "?" = List.length args.
Proof.
  destruct (listUsersWhere_first find) as (more & Hfirst).
  pose proof (listUsersWhere_balanced find) as Hbal.
  pose proof (ListUsers_eq s find) as Heq. cbv zeta in Heq.
  destruct (listUsersWhere RowStatus_String find) as [where_ args].
  cbn [fst snd] in Hfirst, Hbal, Heq. subst where_.
  destruct (snd (QueryScanUsers (db s) _ args)) as [list|err];
    eexists more, args, _, _; (split; [reflexivity|]); cbv zeta;
    (split; [exact Heq|]);
    rewrite !CountByte_append, (CountByte_Join _ " AND " eq_refl), Hbal;
    change (Strings.CountByte listUsersHead "?") with 0;
    change (Strings.CountByte listUsersTail "?") with 0; lia.
Qed.

(** X12: a lookup by id that hits the cache returns the cached user without
    any database call, whatever the other fields of the filter say. *)
Theorem GetUser_cache_hit (s : Store D) (find : FindUser) (id : Z) (u : User) :
  FindID find = Some id ->
  userCache s !! id = Some u ->
  GetUser_ s find = (s, [], Ok (Some u)).
Proof.
  intros Hid Hhit. unfold GetUser_, GetUser. rewrite Hid, Hhit. reflexivity.
Qed.

(** X13: a user that [CreateUser] has created is served from the cache: the
    returned user carries the fields given and the id the database assigned,
    and a later lookup by that id returns it without a database call. *)
Theorem CreateUser_then_GetUser (s s' : Store D) (create user : User)
    (calls : list db_call) (find : FindUser) :
  CreateUser s create = (s', calls, Ok user) ->
  FindID find = Some (ID user) ->
  GetUser_ s' find = (s', [], Ok (Some user))
  /\ Email user = Email create
  /\ Nickname user = Nickname create
  /\ PasswordHash user = PasswordHash create
  /\ Role_ user = Role_ create.
Proof.
  unfold CreateUser. intros Hc Hid.
  destruct (QueryRowScanCreated (db s) _ _) as [d [[[[id cts] uts] rs]|err]];
    [|discriminate Hc].
  injection Hc as <- _ <-. split; [|repeat split].
  unfold GetUser_, GetUser. rewrite Hid. cbn [userCache ID].
  rewrite lookup_insert_eq. reflexivity.
Qed.

(** X14: the user an update returns replaces the cached one: a later lookup
    by its id returns it without a database call. *)
Theorem UpdateUser_then_GetUser (s s' : Store D) (update : UpdateUser_)
    (user : User) (calls : list db_call) (find : FindUser) :
  UpdateUser s update = (s', calls, Ok user) ->
  FindID find = Some (ID user) ->
  GetUser_ s' find = (s', [], Ok (Some user)).
Proof.
  unfold UpdateUser. intros Hu Hid.
  destruct (updateUserSet update) as [set fields].
  destruct (List.length set =? 0)%nat; [discriminate Hu|].
  destruct (QueryRowScanUser (db s) _ _) as [d [u|err]]; [|discriminate Hu].
  injection Hu as <- _ <-.
  unfold GetUser_, GetUser. rewrite Hid. cbn [userCache].
  rewrite lookup_insert_eq. reflexivity.
Qed.

(** The cache and the calls after [DeleteUser]. *)
Lemma DeleteUser_outcome (s s' : Store D) (delete : DeleteUser_)
    (calls : list db_call) (r : result error unit) :
  DeleteUser s delete = (s', calls, r) ->
  (is_ok r = true ->
     userCache s' = base.delete (DeleteID delete) (userCache s)
     /\ In CallCommit calls)
  /\ (is_ok r = false -> userCache s' = userCache s)
  /\ (calls = [CallBeginTx] \/ exists before, calls = (before ++ [CallRollback])%list).
Proof.
  clear ListUsers_ GetUser_ RowStatus_String.
  unfold DeleteUser. intros Hd.
  destruct (BeginTx (db s)) as [d0 [[]|e0]].
  2:{ injection Hd as <- <- <-. repeat split; try discriminate; auto. }
  destruct (TxExec d0 _ _) as [d1 [[]|e1]].
  2:{ injection Hd as <- <- <-. repeat split; try discriminate.
      right. exists [CallBeginTx; CallExec deleteUserStmt [ArgInt32 (DeleteID delete)]].
      reflexivity. }
  destruct (vacuumUserSetting d1) as [d2 [[]|e2]].
  2:{ injection Hd as <- <- <-. repeat split; try discriminate.
      right. eexists [_; _; _]. reflexivity. }
  destruct (vacuumShortcut d2) as [d3 [[]|e3]].
  2:{ injection Hd as <- <- <-. repeat split; try discriminate.
      right. eexists [_; _; _; _]. reflexivity. }
  destruct (TxCommit d3) as [d4 [[]|e4]].
  2:{ injection Hd as <- <- <-. repeat split; try discriminate.
      right. eexists [_; _; _; _; _]. reflexivity. }
  injection Hd as <- <- <-. split; [|split].
  - intros _. split; [reflexivity|]. cbn. tauto.
  - discriminate.
  - right. eexists [_; _; _; _; _]. reflexivity.
Qed.

(** X15: [DeleteUser] returns nil exactly when all five steps went
    through, one after the other: the transaction began, the row was
    deleted, both vacuum functions ran, and the commit succeeded. It drops
    the cache entry of the user exactly then, after the commit; on every
    error, a failed commit included, the cache is left as it was. Once the
    transaction has begun the deferred rollback is the last call on every
    path. *)
Theorem DeleteUser_cache (s s' : Store D) (delete : DeleteUser_)
    (calls : list db_call) (r : result error unit) :
  DeleteUser s delete = (s', calls, r) ->
  let args := [ArgInt32 (DeleteID delete)] in
  (r = Ok tt <->
   exists d0 d1 d2 d3 d4,
     BeginTx (db s) = (d0, Ok tt)
     /\ TxExec d0 deleteUserStmt args = (d1, Ok tt)
     /\ vacuumUserSetting d1 = (d2, Ok tt)
     /\ vacuumShortcut d2 = (d3, Ok tt)
     /\ TxCommit d3 = (d4, Ok tt))
  /\ (r = Ok tt ->
      userCache s' = base.delete (DeleteID delete) (userCache s)
      /\ calls = [CallBeginTx; CallExec deleteUserStmt args;
                  CallVacuumUserSetting; CallVacuumShortcut; CallCommit;
                  CallRollback])
  /\ (r <> Ok tt -> userCache s' = userCache s)
  /\ (calls = [CallBeginTx] \/ exists before, calls = (before ++ [CallRollback])%list).
Proof.
  clear ListUsers_ GetUser_ RowStatus_String.
  unfold DeleteUser. intros Hd. cbv zeta.
  destruct (BeginTx (db s)) as [d0 [[]|e0]] eqn:H0.
  2:{ injection Hd as <- <- <-. split; [|split; [|split]].
      - split; [discriminate|]. intros (? & ? & ? & ? & ? & [=] & _).
      - discriminate.
      - reflexivity.
      - left. reflexivity. }
  destruct (TxExec d0 _ _) as [d1 [[]|e1]] eqn:H1.
  2:{ injection Hd as <- <- <-. split; [|split; [|split]].
      - split; [discriminate|].
        intros (? & ? & ? & ? & ? & [= <-] & Hx & _).
        rewrite H1 in Hx. discriminate Hx.
      - discriminate.
      - reflexivity.
      - right. eexists [_; _]. reflexivity. }
  destruct (vacuumUserSetting d1) as [d2 [[]|e2]] eqn:H2.
  2:{ injection Hd as <- <- <-. split; [|split; [|split]].
      - split; [discriminate|].
        intros (? & ? & ? & ? & ? & [= <-] & Hx & Hy & _).
        rewrite H1 in Hx. injection Hx as <-. rewrite H2 in Hy. discriminate Hy.
      - discriminate.
      - reflexivity.
      - right. eexists [_; _; _]. reflexivity. }
  destruct (vacuumShortcut d2) as [d3 [[]|e3]] eqn:H3.
  2:{ injection Hd as <- <- <-. split; [|split; [|split]].
      - split; [discriminate|].
        intros (? & ? & ? & ? & ? & [= <-] & Hx & Hy & Hz & _).
        rewrite H1 in Hx. injection Hx as <-. rewrite H2 in Hy.
        injection Hy as <-. rewrite H3 in Hz. discriminate Hz.
      - discriminate.
      - reflexivity.
      - right. eexists [_; _; _; _]. reflexivity. }
  destruct (TxCommit d3) as [d4 [[]|e4]] eqn:H4.
  2:{ injection Hd as <- <- <-. split; [|split; [|split]].
      - split; [discriminate|].
        intros (? & ? & ? & ? & ? & [= <-] & Hx & Hy & Hz & Hc).
        rewrite H1 in Hx. injection Hx as <-. rewrite H2 in Hy.
        injection Hy as <-. rewrite H3 in Hz. injection Hz as <-.
        rewrite H4 in Hc. discriminate Hc.
      - discriminate.
      - reflexivity.
      - right. eexists [_; _; _; _; _]. reflexivity. }
  injection Hd as <- <- <-. split; [|split; [|split]].
  - split; [|reflexivity]. intros _. exists d0, d1, d2, d3, d4.
    repeat split; assumption.
  - intros _. split; reflexivity.
  - intros Hr. destruct Hr. reflexivity.
  - right. eexists [_; _; _; _; _]. reflexivity.
Qed.

(** X16: after a successful [DeleteUser] a lookup by the deleted id does not
    find it in the cache and asks the database. *)
Theorem DeleteUser_then_GetUser (s s' : Store D) (delete : DeleteUser_)
    (calls : list db_call) (find : FindUser) :
  DeleteUser s delete = (s', calls, Ok tt) ->
  FindID find = Some (DeleteID delete) ->
  userCache s' !! DeleteID delete = None
  /\ exists query args s'' r, GetUser_ s' find = (s'', [CallQuery query args], r).
Proof.
  intros Hd Hid.
  destruct (DeleteUser_outcome s s' delete calls (Ok tt) Hd) as [Hok _].
  destruct (Hok eq_refl) as [Hcache _].
  assert (userCache s' !! DeleteID delete = None) as Hmiss.
  { rewrite Hcache. apply lookup_delete_eq. }
  split; [exact Hmiss|].
  unfold GetUser_, GetUser. rewrite Hid, Hmiss. unfold getUserFromList.
  destruct (ListUsers_calls s' find) as (query & args & s'' & r & Hl).
  fold ListUsers_. rewrite Hl.
  destruct r as [[|u l]|err]; eexists _, _, _, _; reflexivity.
Qed.

(** X17: [ListUsers] caches what it returns: afterwards every id of a
    returned user is cached with a returned user of that id (the user itself
    when ids are not repeated), every other entry is as before, and a failed
    query leaves the cache untouched. *)
Theorem ListUsers_caches_results (s s' : Store D) (find : FindUser)
    (calls : list db_call) (r : result error (list User)) :
  ListUsers_ s find = (s', calls, r) ->
  match r with
  | Ok list =>
      (forall u, In u list ->
         exists u', userCache s' !! ID u = Some u' /\ In u' list /\ ID u' = ID u)
      /\ (List.NoDup (map ID list) ->
          forall u, In u list -> userCache s' !! ID u = Some u)
      /\ (forall k, ~ In k (map ID list) -> userCache s' !! k = userCache s !! k)
  | Err _ => userCache s' = userCache s
  end.
Proof.
  rewrite ListUsers_eq. cbv zeta.
  destruct (snd (QueryScanUsers (db s) _ _)) as [list|err];
    intros [= <- _ <-]; cbn [userCache]; [|reflexivity].
  split; [|split].
  - intros u Hu. apply cacheAll_lookup_listed, Hu.
  - intros Hnd u Hu.
    destruct (cacheAll_lookup_listed list (userCache s) u Hu) as (u' & Hl & Hu' & Hid).
    rewrite Hl. f_equal. apply (NoDup_map_In_eq ID list u' u); assumption.
  - intros k Hk. apply cacheAll_lookup_other, Hk.
Qed.

(** X18: [UpdateUser], [ListUsers], [GetUser] and [DeleteUser] keep the
    cache keyed by user id: if each entry was stored under the id of its
    user before the call, so it is afterwards. These methods only store
    structs they have allocated themselves, under the id scanned into them,
    or delete an entry. ([CreateUser] stores the struct of its caller and
    is left out.) *)
Theorem cache_keyed_preserved (s : Store D) :
  cache_keyed s ->
  (forall update, cache_keyed (fst (fst (UpdateUser s update))))
  /\ (forall find, cache_keyed (fst (fst (ListUsers_ s find))))
  /\ (forall find, cache_keyed (fst (fst (GetUser_ s find))))
  /\ (forall delete, cache_keyed (fst (fst (DeleteUser s delete)))).
Proof.
  intros Hs.
  assert (forall (d : D) u, cache_keyed (mkStore d (<[ID u := u]> (userCache s))))
    as Hins.
  { intros d u k v. cbn [userCache].
    destruct (Z.eq_dec (ID u) k) as [<-|Hne].
    - rewrite lookup_insert_eq. intros [= <-]. reflexivity.
    - rewrite lookup_insert_ne by exact Hne. apply Hs. }
  assert (forall d : D, cache_keyed (mkStore d (userCache s))) as Hsame.
  { intros d k v. apply Hs. }
  assert (forall find, cache_keyed (fst (fst (ListUsers_ s find)))) as Hlist.
  { intros find. rewrite ListUsers_eq. cbv zeta.
    destruct (snd (QueryScanUsers (db s) _ _)) as [list|err]; cbn [fst].
    - intros k v. cbn [userCache]. apply cacheAll_keyed, Hs.
    - apply Hsame. }
  split; [|split; [exact Hlist|split]].
  - intros update. unfold UpdateUser.
    destruct (updateUserSet update) as [set fields].
    destruct (List.length set =? 0)%nat; [exact Hs|].
    destruct (QueryRowScanUser (db s) _ _) as [d [u|err]];
      cbn [fst]; [apply Hins | apply Hsame].
  - intros find. unfold GetUser_, GetUser, getUserFromList.
    specialize (Hlist find). fold ListUsers_.
    destruct (ListUsers_ s find) as [[s' calls] [[|u l]|err]]; cbn [fst] in Hlist.
    all: destruct (FindID find) as [id|];
      [destruct (userCache s !! id); [exact Hs|]|]; exact Hlist.
  - intros delete. unfold DeleteUser.
    destruct (BeginTx (db s)) as [d0 [[]|e0]]; [|apply Hsame].
    destruct (TxExec d0 _ _) as [d1 [[]|e1]]; [|apply Hsame].
    destruct (vacuumUserSetting d1) as [d2 [[]|e2]]; [|apply Hsame].
    destruct (vacuumShortcut d2) as [d3 [[]|e3]]; [|apply Hsame].
    destruct (TxCommit d3) as [d4 [[]|e4]]; [|apply Hsame].
    intros k v. cbn [fst userCache].
    destruct (Z.eq_dec (DeleteID delete) k) as [<-|Hne].
    + rewrite lookup_delete_eq. discriminate.
    + rewrite lookup_delete_ne by exact Hne. apply Hs.
Qed.

End UserStoreProperties.

(** Concrete runs, on the scripted database. *)

Lemma UpdateUser_without_fields_witness :
  UpdateUser empty_store (mkUpdateUser 7 None None None None None)
  = (empty_store, [], Err "no fields to update").
Proof.
  apply (UpdateUser_without_fields (D:=Script) empty_store
           (mkUpdateUser 7 None None None None None));
    reflexivity.
Defined.

Lemma UpdateUser_statement_witness :
  exists s' r,
    UpdateUser empty_store
      (mkUpdateUser 7 None (Some "a@example.com") None None (Some RoleAdmin))
    = (s',
       [CallQueryRow
          (updateUserHead ++ "email = ?, role = ?" ++ updateUserTail)
          [ArgString "a@example.com"; ArgRole RoleAdmin; ArgInt32 7]],
       r).
Proof.
  destruct (UpdateUser_statement (D:=Script) empty_store
              (mkUpdateUser 7 None (Some "a@example.com") None None
                 (Some RoleAdmin)))
    as (s' & r & Hrun & _); [discriminate|].
  exists s', r. exact Hrun.
Defined.

Lemma GetUser_cache_hit_witness :
  GetUser rowStatusString alice_cached
    (mkFindUser (Some 7%Z) None (Some "nobody@example.com") None None)
  = (mkStore script (<[7%Z := alice]> ∅), [], Ok (Some alice)).
Proof.
  apply (GetUser_cache_hit (D:=Script) rowStatusString _ _ 7%Z alice);
    reflexivity.
Defined.

Lemma CreateUser_then_GetUser_witness :
  GetUser rowStatusString alice_cached (by_id 7)
  = (mkStore script (<[7%Z := alice]> ∅), [], Ok (Some alice))
  /\ Email alice = "alice@example.com"
  /\ Nickname alice = "alice"
  /\ PasswordHash alice = "hash"
  /\ Role_ alice = RoleUser.
Proof.
  apply (CreateUser_then_GetUser (D:=Script) rowStatusString empty_store
           alice_cached
           (mkUser 0 0 0 "" "alice@example.com" "alice" "hash" RoleUser) alice
           [CallQueryRow createUserStmt
              [ArgString "alice@example.com"; ArgString "alice";
               ArgString "hash"; ArgRole RoleUser]]
           (by_id 7));
    reflexivity.
Defined.

Lemma UpdateUser_then_GetUser_witness :
  GetUser rowStatusString alice_cached (by_id 7)
  = (mkStore script (<[7%Z := alice]> ∅), [], Ok (Some alice)).
Proof.
  apply (UpdateUser_then_GetUser (D:=Script) rowStatusString empty_store
           alice_cached
           (mkUpdateUser 7 None None (Some "alice") None None) alice
           [CallQueryRow
              (updateUserHead ++ "nickname = ?" ++ updateUserTail)
              [ArgString "alice"; ArgInt32 7]]
           (by_id 7));
    reflexivity.
Defined.

Lemma DeleteUser_cache_witness :
  userCache empty_store = base.delete 7%Z (userCache alice_cached)
  /\ delete_calls
     = [CallBeginTx; CallExec deleteUserStmt [ArgInt32 7];
        CallVacuumUserSetting; CallVacuumShortcut; CallCommit; CallRollback].
Proof.
  refine (proj1 (proj2 (DeleteUser_cache (D:=Script) alice_cached empty_store
                          (mkDeleteUser 7) delete_calls (Ok tt) _)) _).
  - vm_compute. reflexivity.
  - reflexivity.
Defined.

Lemma DeleteUser_then_GetUser_witness :
  userCache empty_store !! 7%Z = None
  /\ exists query args s'' r,
       GetUser rowStatusString empty_store (by_id 7)
       = (s'', [CallQuery query args], r).
Proof.
  apply (DeleteUser_then_GetUser (D:=Script) rowStatusString
           alice_cached empty_store (mkDeleteUser 7)
           delete_calls (by_id 7)).
  - vm_compute. reflexivity.
  - reflexivity.
Defined.

Lemma ListUsers_caches_results_witness :
  (forall u, In u [alice; bob] ->
     exists u', cacheAll [alice; bob] ∅ !! ID u = Some u'
                /\ In u' [alice; bob] /\ ID u' = ID u)
  /\ (List.NoDup (map ID [alice; bob]) ->
      forall u, In u [alice; bob] -> cacheAll [alice; bob] ∅ !! ID u = Some u)
  /\ (forall k, ~ In k (map ID [alice; bob]) ->
      cacheAll [alice; bob] ∅ !! k = (∅ : gmap Z User) !! k).
Proof.
  apply (ListUsers_caches_results (D:=Script) rowStatusString empty_store
           (mkStore script (cacheAll [alice; bob] ∅))
           (mkFindUser None None None None None)
           [CallQuery (listUsersHead ++ "1 = 1" ++ listUsersTail) []]
           (Ok [alice; bob])).
  reflexivity.
Defined.

Lemma cache_keyed_empty : cache_keyed empty_store.
Proof. intros k u Hl. discriminate Hl. Defined.

Lemma cache_keyed_preserved_witness :
  cache_keyed
    (fst (fst (UpdateUser empty_store
                 (mkUpdateUser 7 None None (Some "alice") None None)))).
Proof.
  apply (proj1 (cache_keyed_preserved (D:=Script) rowStatusString empty_store
                  cache_keyed_empty)).
Defined.

End UserStoreFacts.

(** * The database package *)

Module DBFacts.
Import DB.

(** ** [sort.Strings] *)

Lemma insert_sorted_perm (x : string) (l : list string) :
  Permutation (x :: l) (insert_sorted x l).
Proof.
  induction l as [|y l IH]; [apply Permutation_refl|].
  cbn [insert_sorted]. destruct (String.leb x y); [apply Permutation_refl|].
  eapply perm_trans; [apply perm_swap|]. apply perm_skip, IH.
Qed.

Lemma sort_Strings_perm (l : list string) : Permutation l (sort_Strings l).
Proof.
  induction l as [|x l IH]; [apply perm_nil|].
  cbn [sort_Strings fold_right]. fold (sort_Strings l).
  eapply perm_trans; [apply perm_skip, IH | apply insert_sorted_perm].
Qed.

Lemma insert_sorted_hd (x a : string) (l : list string) :
  ascending a x -> HdRel ascending a l -> HdRel ascending a (insert_sorted x l).
Proof.
  intros Hax Hal. destruct l as [|y l]; cbn [insert_sorted].
  - constructor. exact Hax.
  - destruct (String.leb x y); constructor; [exact Hax|].
    inversion Hal; assumption.
Qed.

Lemma insert_sorted_Sorted (x : string) (l : list string) :
  Sorted ascending l -> Sorted ascending (insert_sorted x l).
Proof.
  induction l as [|y l IH]; intros Hs; cbn [insert_sorted].
  - repeat constructor.
  - destruct (String.leb x y) eqn:Hxy.
    + constructor; [exact Hs|]. constructor. exact Hxy.
    + inversion Hs as [|? ? Hl Hhd]; subst. constructor; [apply IH, Hl|].
      apply insert_sorted_hd; [|exact Hhd].
      destruct (String.leb_total x y) as [Hle|Hle]; [congruence | exact Hle].
Qed.

Lemma sort_Strings_Sorted (l : list string) : Sorted ascending (sort_Strings l).
Proof.
  induction l as [|x l IH]; [constructor|].
  cbn [sort_Strings fold_right]. apply insert_sorted_Sorted, IH.
Qed.

(** ** The pattern of minor version directories *)

Lemma span_digits_spec (s : string) :
  s = fst (span_digits s) ++ snd (span_digits s)
  /\ NetURL.all_digits (fst (span_digits s)) = true.
Proof.
  induction s as [|c s [IHs IHd]]; [split; reflexivity|].
  cbn [span_digits]. destruct (is_digit c) eqn:Hc; [|split; reflexivity].
  destruct (span_digits s) as [digits after]. cbn [fst snd] in *.
  split; [cbn [String.append]; f_equal; exact IHs|].
  cbn [NetURL.all_digits]. rewrite Hc. exact IHd.
Qed.

Lemma HasPrefix_split (p s : string) :
  Strings.HasPrefix s p = true -> s = p ++ Strings.from (String.length p) s.
Proof.
  unfold Strings.HasPrefix, Strings.from. revert s.
  induction p as [|a p IH]; intros s Hp.
  - cbn [String.length String.append]. rewrite Nat.sub_0_r.
    symmetry. apply substring_full.
  - destruct s as [|c s]; [discriminate Hp|]. cbn [String.prefix] in Hp.
    destruct (ascii_dec a c) as [<-|]; [|discriminate Hp].
    cbn [String.length String.append substring Nat.sub]. f_equal. apply IH, Hp.
Qed.

(** A path the pattern matches is the prefix followed by [major.minor],
    both non-empty strings of digits. *)
Lemma minorDirRegexp_sound (path : string) :
  minorDirRegexp_MatchString path = true ->
  exists major minor,
    path = "migration/prod/" ++ major ++ "." ++ minor
    /\ major <> "" /\ minor <> ""
    /\ NetURL.all_digits major = true /\ NetURL.all_digits minor = true.
Proof.
  unfold minorDirRegexp_MatchString. intros Hm.
  apply andb_prop in Hm as [Hprefix Hrest].
  apply HasPrefix_split in Hprefix. cbn [String.length] in Hprefix.
  destruct (span_digits_spec (Strings.from 15 path)) as [Hsplit Hdigits].
  destruct (span_digits (Strings.from 15 path)) as [major after].
  cbn [fst snd] in Hsplit, Hdigits.
  apply andb_prop in Hrest as [Hmajor Hafter].
  destruct after as [|c rest]; [discriminate Hafter|].
  apply andb_prop in Hafter as [Hdot Hminor].
  apply Ascii.eqb_eq in Hdot. subst c.
  destruct (span_digits_spec rest) as [Hsplit2 Hdigits2].
  destruct (span_digits rest) as [minor tail]. cbn [fst snd] in Hsplit2, Hdigits2.
  apply andb_prop in Hminor as [Hminor Htail].
  apply String.eqb_eq in Htail. subst tail. rewrite append_nil_r in Hsplit2.
  subst rest. exists major, minor.
  split; [rewrite Hprefix at 1; rewrite Hsplit; reflexivity|].
  split; [intros ->; discriminate Hmajor|].
  split; [intros ->; discriminate Hminor|]. split; assumption.
Qed.

Lemma from_length_append (p x : string) :
  Strings.from (String.length p) (p ++ x) = x.
Proof.
  unfold Strings.from. induction p as [|a p IH].
  - cbn [String.length String.append]. rewrite Nat.sub_0_r. apply substring_full.
  - cbn [String.length String.append substring Nat.sub]. exact IH.
Qed.

Lemma HasPrefix_append (p x : string) : Strings.HasPrefix (p ++ x) p = true.
Proof.
  unfold Strings.HasPrefix. induction p as [|a p IH].
  - apply prefix_nil.
  - cbn [String.append String.prefix].
    destruct (ascii_dec a a) as [_|Hne]; [exact IH | now elim Hne].
Qed.

Lemma span_digits_append (digits rest : string) :
  NetURL.all_digits digits = true ->
  match rest with
  | EmptyString => True
  | String c _ => is_digit c = false
  end ->
  span_digits (digits ++ rest) = (digits, rest).
Proof.
  intros Hd Hrest. induction digits as [|c digits IH].
  - cbn [String.append]. destruct rest as [|c rest]; [reflexivity|].
    cbn [span_digits]. rewrite Hrest. reflexivity.
  - cbn [NetURL.all_digits] in Hd. destruct (is_digit c) eqn:Hc; [|discriminate Hd].
    cbn [String.append span_digits]. rewrite Hc, (IH Hd). reflexivity.
Qed.

(** Conversely the pattern matches every such path. *)
Lemma minorDirRegexp_complete (major minor : string) :
  major <> "" -> minor <> "" ->
  NetURL.all_digits major = true -> NetURL.all_digits minor = true ->
  minorDirRegexp_MatchString ("migration/prod/" ++ major ++ "." ++ minor) = true.
Proof.
  intros Hmaj Hmin Hdmaj Hdmin. unfold minorDirRegexp_MatchString.
  rewrite HasPrefix_append.
  change 15 with (String.length "migration/prod/"). rewrite from_length_append.
  rewrite (span_digits_append major ("." ++ minor) Hdmaj eq_refl).
  cbn [String.append andb Ascii.eqb Bool.eqb].
  rewrite <- (append_nil_r minor) at 1.
  rewrite (span_digits_append minor "" Hdmin I).
  destruct (String.eqb_spec major ""); [contradiction|].
  destruct (String.eqb_spec minor ""); [contradiction|]. reflexivity.
Qed.

Lemma Base_from_no_slash (name current : string) :
  byte_in "/" name = false -> Base_from name current = current ++ name.
Proof.
  revert current. induction name as [|c name IH]; intros current Hno.
  - cbn [Base_from]. symmetry. apply append_nil_r.
  - cbn [byte_in] in Hno. apply orb_false_elim in Hno as [Hc Hrest].
    cbn [Base_from]. rewrite Ascii.eqb_sym, Hc, (IH _ Hrest).
    rewrite append_assoc. reflexivity.
Qed.

Lemma all_digits_no_slash (s : string) :
  NetURL.all_digits s = true -> byte_in "/" s = false.
Proof.
  induction s as [|c s IH]; [reflexivity|]. cbn [NetURL.all_digits byte_in].
  destruct (is_digit c) eqn:Hc; [|discriminate]. intros Hs.
  rewrite (IH Hs), orb_false_r. apply Ascii.eqb_neq. intros <-. discriminate Hc.
Qed.

(** The entry at a matching path is named [major.minor]. *)
Lemma Base_of_minor_dir (major minor : string) :
  NetURL.all_digits major = true -> NetURL.all_digits minor = true ->
  Base ("migration/prod/" ++ major ++ "." ++ minor) = major ++ "." ++ minor.
Proof.
  intros Hmajor Hminor.
  change (Base ("migration/prod/" ++ major ++ "." ++ minor))
    with (Base_from (major ++ "." ++ minor) "").
  rewrite Base_from_no_slash; [reflexivity|]. rewrite !byte_in_append.
  rewrite (all_digits_no_slash _ Hmajor), (all_digits_no_slash _ Hminor).
  reflexivity.
Qed.

Section PackageFacts.

Context {W : Type} `{Env W}.
Variable migrationFS_ReadFile : string -> result error string.
Variable migrationFS_Glob : string -> result error (list string).
Variable seedFS_ReadFile : string -> result error string.
Variable seedFS_Glob : string -> result error (list string).
Variable migration_walk : list walk_step.
Variable GetCurrentVersion : string -> string.
Variable GetSchemaVersion : string -> string.
Variable IsVersionGreaterThan : string -> string -> bool.
Variable IsVersionGreaterOrEqualThan : string -> string -> bool.
Variable SortVersion : list string -> list string.

(** ** Loops *)

(** A loop whose body makes, for [x], an initial segment of the calls
    [ev x], and all of them when it returns nil, makes an initial segment of
    the calls of the whole list, and all of them when it returns nil. *)
Lemma forEach_schedule {A : Type} (l : list A) (body : A -> step (W:=W) unit)
    (ev : A -> list event) :
  (forall x w, exists n,
      snd (fst (body x w)) = firstn n (ev x)
      /\ (is_ok (snd (body x w)) = true -> snd (fst (body x w)) = ev x)) ->
  forall w, exists n,
    snd (fst (forEach l body w)) = firstn n (concat (map ev l))
    /\ (is_ok (snd (forEach l body w)) = true
        -> snd (fst (forEach l body w)) = concat (map ev l)).
Proof.
  intros Hbody. induction l as [|x l IH]; intros w.
  - exists 0. split; reflexivity.
  - cbn [forEach map concat]. unfold mbind, step_bind.
    destruct (Hbody x w) as (n1 & Hn1 & Hall1).
    destruct (body x w) as [[w1 t1] [[]|e]]; cbn [fst snd is_ok] in *.
    + destruct (IH w1) as (n2 & Hn2 & Hall2).
      destruct (forEach l body w1) as [[w2 t2] r2]; cbn [fst snd] in *.
      rewrite (Hall1 eq_refl). exists (List.length (ev x) + n2). split.
      * rewrite firstn_app_2, Hn2. reflexivity.
      * intros Hok. rewrite (Hall2 Hok). reflexivity.
    + exists (Nat.min n1 (List.length (ev x))). split; [|discriminate].
      rewrite firstn_app.
      replace (Nat.min n1 (List.length (ev x)) - List.length (ev x)) with 0 by lia.
      rewrite firstn_O, app_nil_r, Hn1.
      rewrite <- (firstn_all (ev x)) at 1. rewrite firstn_firstn. reflexivity.
Qed.

(** [execute] makes one call, whatever comes of it. *)
Lemma execute_run (stmt : string) (w : W) :
  snd (fst (execute stmt w)) = [EvExec stmt].
Proof.
  unfold execute, wrap, call.
  destruct (ExecContext w stmt) as [w' r]. reflexivity.
Qed.

(** [executeFile] calls the database once with the content of the file, or
    not at all when the file cannot be read. *)
Lemma executeFile_run (read : string -> result error string)
    (readFormat execFormat filename : string) (w : W) :
  match read filename with
  | Ok buf =>
      snd (fst (executeFile read readFormat execFormat filename w)) = [EvExec buf]
  | Err _ =>
      snd (fst (executeFile read readFormat execFormat filename w)) = []
      /\ is_ok (snd (executeFile read readFormat execFormat filename w)) = false
  end.
Proof.
  unfold executeFile, mbind, step_bind, wrap, embedded.
  destruct (read filename) as [buf|err]; cbn [lift]; [|split; reflexivity].
  pose proof (execute_run buf w) as Hexec.
  destruct (execute buf w) as [[w' t] r]. cbn [fst snd] in Hexec.
  cbn [fst snd app]. exact Hexec.
Qed.

Lemma In_firstn {A : Type} (x : A) (n : nat) (l : list A) :
  In x (firstn n l) -> In x l.
Proof.
  intros Hin. rewrite <- (firstn_skipn n l). apply in_or_app. left. exact Hin.
Qed.

Lemma firstn_within_app {A : Type} (n : nat) (l1 l2 : list A) :
  exists m, firstn n l1 = firstn m (l1 ++ l2)%list.
Proof.
  exists (Nat.min n (List.length l1)). rewrite firstn_app.
  replace (Nat.min n (List.length l1) - List.length l1) with 0 by lia.
  rewrite firstn_O, app_nil_r.
  rewrite <- (firstn_all l1) at 1. rewrite firstn_firstn. reflexivity.
Qed.

(** The loop over the files calls the database along [executions]. *)
Lemma file_loop_schedule (read : string -> result error string)
    (readFormat execFormat : string) (filenames : list string) (w : W) :
  exists n,
    snd (fst (forEach filenames (executeFile read readFormat execFormat) w))
    = firstn n (executions read filenames)
    /\ (is_ok (snd (forEach filenames (executeFile read readFormat execFormat) w))
        = true ->
        snd (fst (forEach filenames (executeFile read readFormat execFormat) w))
        = executions read filenames).
Proof.
  assert (executions read filenames
          = concat (map (fun f => [EvExec (statementOf read f)]) filenames)) as ->.
  { unfold executions. induction filenames as [|f l IH]; [reflexivity|].
    cbn [map concat app]. rewrite IH. reflexivity. }
  apply forEach_schedule. intros filename w0.
  pose proof (executeFile_run read readFormat execFormat filename w0) as Hrun.
  unfold statementOf. destruct (read filename) as [buf|err].
  - exists 1. rewrite Hrun. split; reflexivity.
  - destruct Hrun as [Ht Hr]. exists 0. rewrite Ht, Hr.
    split; [reflexivity|discriminate].
Qed.

Let applyMigrationForMinorVersion_ :=
  applyMigrationForMinorVersion (W:=W) migrationFS_ReadFile migrationFS_Glob.

(** The calls of [applyMigrationForMinorVersion] against its schedule. *)
Lemma applyMigrationForMinorVersion_calls (minorVersion : string) (w : W) :
  match migrationFS_Glob (Fmt.Sprintf "migration/prod/%s/*.sql" [minorVersion]) with
  | Err err =>
      applyMigrationForMinorVersion_ minorVersion w
      = (w, [], Err (Failed (errors_Wrap err "failed to read migrate files")))
  | Ok filenames =>
      let schedule :=
        (executions migrationFS_ReadFile (sort_Strings filenames)
         ++ [EvUpsertMigrationHistory (minorVersion ++ ".0")])%list in
      let calls := snd (fst (applyMigrationForMinorVersion_ minorVersion w)) in
      (exists n, calls = firstn n schedule)
      /\ (is_ok (snd (applyMigrationForMinorVersion_ minorVersion w)) = true ->
          calls = schedule)
      /\ (forall version, In (EvUpsertMigrationHistory version) calls ->
          calls = schedule)
  end.
Proof.
  unfold applyMigrationForMinorVersion_, applyMigrationForMinorVersion.
  destruct (migrationFS_Glob _) as [filenames|err]; [|reflexivity].
  cbv zeta.
  set (sorted := sort_Strings filenames).
  set (schedule := (executions migrationFS_ReadFile sorted
                    ++ [EvUpsertMigrationHistory (minorVersion ++ ".0")])%list).
  destruct (file_loop_schedule migrationFS_ReadFile
              "failed to read minor version migration file, filename %s"
              "migrate error: statement %s" sorted w) as (n & Hn & Hall).
  unfold mbind, step_bind, wrap, embedded, upsertMigrationHistory, call, mret,
    step_ret. cbn [lift]. fold sorted.
  destruct (forEach sorted _ w) as [[w1 t1] [[]|e]];
    cbn [fst snd is_ok app] in Hn, Hall |- *.
  - rewrite (Hall eq_refl).
    destruct (UpsertMigrationHistory w1 _) as [w2 [h|e]]; cbn [lift fst snd is_ok];
      rewrite ?app_nil_r; fold schedule;
      (split; [exists (List.length schedule); rewrite firstn_all; reflexivity|]);
      split; reflexivity.
  - split; [|split; [discriminate|]].
    + rewrite Hn. apply firstn_within_app.
    + intros version Hin. exfalso. rewrite Hn in Hin.
      apply In_firstn in Hin. unfold executions in Hin.
      apply in_map_iff in Hin as (f & Hf & _). discriminate Hf.
Qed.

(** X19: [applyMigrationForMinorVersion] works through a fixed schedule: the
    statements of the globbed files in ascending order of their names, then
    the upsert of the version [<minor>.0] into the migration history. The
    calls it makes are always an initial segment of that schedule; it
    returns nil only after the whole schedule, and the history is upserted
    only after every file was executed. When the glob fails nothing is
    called. *)
Theorem applyMigrationForMinorVersion_schedule (minorVersion : string) (w : W) :
  match migrationFS_Glob (Fmt.Sprintf "migration/prod/%s/*.sql" [minorVersion]) with
  | Err err =>
      applyMigrationForMinorVersion_ minorVersion w
      = (w, [], Err (Failed (errors_Wrap err "failed to read migrate files")))
  | Ok filenames =>
      let sorted := sort_Strings filenames in
      let upsert := EvUpsertMigrationHistory (minorVersion ++ ".0") in
      let schedule := (executions migrationFS_ReadFile sorted ++ [upsert])%list in
      let calls := snd (fst (applyMigrationForMinorVersion_ minorVersion w)) in
      Sorted ascending sorted
      /\ Permutation filenames sorted
      /\ (exists n, calls = firstn n schedule)
      /\ (is_ok (snd (applyMigrationForMinorVersion_ minorVersion w)) = true ->
          calls = schedule)
      /\ (forall version, In (EvUpsertMigrationHistory version) calls ->
          calls = schedule)
  end.
Proof.
  pose proof (applyMigrationForMinorVersion_calls minorVersion w) as Hcalls.
  destruct (migrationFS_Glob _) as [filenames|err]; [|exact Hcalls].
  cbv zeta in *. split; [apply sort_Strings_Sorted|].
  split; [apply sort_Strings_perm | exact Hcalls].
Qed.

Let seed_ := seed (W:=W) seedFS_ReadFile seedFS_Glob.

(** One file: the state, the call and whether it went through. *)
Lemma executeFile_outcome (read : string -> result error string)
    (readFormat execFormat filename : string) (w : W) :
  match read filename with
  | Ok buf =>
      fst (executeFile read readFormat execFormat filename w)
      = (fst (ExecContext w buf), [EvExec buf])
      /\ is_ok (snd (executeFile read readFormat execFormat filename w))
         = is_ok (snd (ExecContext w buf))
  | Err _ =>
      fst (executeFile read readFormat execFormat filename w) = (w, [])
      /\ is_ok (snd (executeFile read readFormat execFormat filename w)) = false
  end.
Proof.
  unfold executeFile, execute, mbind, step_bind, wrap, embedded, call.
  destruct (read filename) as [buf|err]; cbn [lift]; [|split; reflexivity].
  destruct (ExecContext w buf) as [w' [[]|e]]; split; reflexivity.
Qed.

(** The loop over the files stops at the first file that cannot be read and
    at the first statement that fails: the files it executes can all be
    read, every statement but the last it executes went through, and it
    returns nil exactly when it has executed every file and the last
    statement went through as well. *)
Lemma file_loop_run (read : string -> result error string)
    (readFormat execFormat : string) (filenames : list string) (w : W) :
  let stmts := map (statementOf read) filenames in
  let run := forEach filenames (executeFile read readFormat execFormat) w in
  exists n,
    snd (fst run) = firstn n (executions read filenames)
    /\ (forall filename,
          In filename (firstn n filenames) -> is_ok (read filename) = true)
    /\ exec_outcomes (firstn (n - 1) stmts) w = repeat true (n - 1)
    /\ (is_ok (snd run) = true
        <-> n = List.length filenames
            /\ exec_outcomes (firstn n stmts) w = repeat true n).
Proof.
  cbv zeta. revert w. induction filenames as [|f l IH]; intros w.
  - exists 0. cbn. repeat split; try reflexivity. intros _ [].
  - cbn [forEach]. unfold mbind, step_bind.
    pose proof (executeFile_outcome read readFormat execFormat f w) as Hone.
    destruct (executeFile read readFormat execFormat f w) as [[w1 t1] r1].
    cbn [fst snd] in Hone. cbn [map].
    unfold executions at 1. cbn [map]. fold (executions read l).
    destruct (read f) as [buf|err] eqn:Hread.
    + assert (statementOf read f = buf) as ->
        by (unfold statementOf; rewrite Hread; reflexivity).
      destruct Hone as [[= -> ->] Hok].
      destruct (ExecContext w buf) as [w' rx] eqn:Hexec. cbn [fst snd] in *.
      destruct r1 as [[]|e1]; cbn [is_ok] in Hok.
      * destruct (IH w') as (n & Hn & Hreadable & Hbefore & Hnil).
        destruct (forEach l _ w') as [[w2 t2] r2]. cbn [fst snd] in *.
        exists (S n). cbn [firstn app Nat.sub]. rewrite Nat.sub_0_r.
        split; [rewrite Hn; reflexivity|]. split; [|split].
        -- intros filename [<-|Hin]; [rewrite Hread; reflexivity|].
           apply Hreadable, Hin.
        -- destruct n as [|n]; [reflexivity|].
           cbn [firstn exec_outcomes repeat]. rewrite Hexec, <- Hok.
           cbn [Nat.sub] in Hbefore. rewrite Nat.sub_0_r in Hbefore.
           rewrite Hbefore. reflexivity.
        -- cbn [exec_outcomes repeat List.length]. rewrite Hexec, <- Hok.
           rewrite Hnil. split.
           ++ intros [-> Hall]. split; [reflexivity | rewrite Hall; reflexivity].
           ++ intros [[= ->] [= Hall]]. split; [reflexivity | exact Hall].
      * exists 1. cbn [firstn app Nat.sub exec_outcomes repeat is_ok].
        rewrite ?firstn_O. split; [reflexivity|]. split; [|split].
        -- intros filename [<-|[]]. rewrite Hread. reflexivity.
        -- reflexivity.
        -- cbn [exec_outcomes]. rewrite Hexec, <- Hok. split; [discriminate|].
           intros [_ [=]].
    + destruct Hone as [[= -> ->] Hok]. destruct r1 as [[]|e1]; [discriminate Hok|].
      exists 0. cbn [firstn Nat.sub exec_outcomes repeat is_ok fst snd].
      split; [reflexivity|]. split; [intros _ []|]. split; [reflexivity|].
      split; [discriminate | intros [[=] _]].
Qed.

(** X20: [seed] executes the statements of the files matching [seed/*.sql]
    in ascending order of their names, and the first file that cannot be
    read or executed ends the seeding: the calls it makes are an initial
    segment of that schedule, the files executed could all be read, every
    statement but the last one executed went through, and [seed] returns
    nil exactly when every file was executed and the last statement went
    through as well. When the glob fails nothing is called. *)
Theorem seed_schedule (w : W) :
  match seedFS_Glob "seed/*.sql" with
  | Err err =>
      seed_ w = (w, [], Err (Failed (errors_Wrap err "failed to read seed files")))
  | Ok filenames =>
      let sorted := sort_Strings filenames in
      let schedule := executions seedFS_ReadFile sorted in
      let stmts := map (statementOf seedFS_ReadFile) sorted in
      Sorted ascending sorted
      /\ Permutation filenames sorted
      /\ (is_ok (snd (seed_ w)) = true -> snd (fst (seed_ w)) = schedule)
      /\ exists n,
           snd (fst (seed_ w)) = firstn n schedule
           /\ (forall filename,
                 In filename (firstn n sorted) ->
                 is_ok (seedFS_ReadFile filename) = true)
           /\ exec_outcomes (firstn (n - 1) stmts) w = repeat true (n - 1)
           /\ (is_ok (snd (seed_ w)) = true
               <-> n = List.length sorted
                   /\ exec_outcomes (firstn n stmts) w = repeat true n)
  end.
Proof.
  unfold seed_, seed.
  destruct (seedFS_Glob _) as [filenames|err]; [|reflexivity].
  cbv zeta. split; [apply sort_Strings_Sorted|]. split; [apply sort_Strings_perm|].
  set (sorted := sort_Strings filenames).
  destruct (file_loop_run seedFS_ReadFile
              "failed to read seed file, filename %s" "seed error: statement %s"
              sorted w) as (n & Hn & Hreadable & Hbefore & Hnil).
  cbv zeta in Hn, Hnil.
  unfold mbind, step_bind, wrap, embedded. cbn [lift]. fold sorted.
  destruct (forEach sorted _ w) as [[w1 t1] r1]; cbn [fst snd app] in *.
  split.
  - intros Hok. apply Hnil in Hok as [-> _]. rewrite Hn.
    unfold executions. rewrite <- (length_map (fun filename =>
      EvExec (statementOf seedFS_ReadFile filename)) sorted).
    apply firstn_all.
  - exists n. repeat split; try assumption; apply Hnil; assumption.
Qed.

(** What the walk collects, starting from [acc]. *)
Lemma collectMinorVersions_spec (walk : list walk_step) (acc : list string) :
  match collectMinorVersions walk acc with
  | Ok names =>
      exists found,
        names = (acc ++ found)%list
        /\ (forall v, In v found ->
              exists path, In (Visit path true) walk
                           /\ minorDirRegexp_MatchString path = true
                           /\ v = Base path)
        /\ (forall path, In (Visit path true) walk ->
              minorDirRegexp_MatchString path = true -> In (Base path) found)
        /\ (forall path err, ~ In (VisitErr path err) walk)
  | Err err => exists path, In (VisitErr path err) walk
  end.
Proof.
  revert acc. induction walk as [|[path isDir|path err] walk IH]; intros acc.
  - exists []. rewrite app_nil_r. split; [reflexivity|].
    split; [intros v []|]. split; [intros p []|]. intros p e [].
  - cbn [collectMinorVersions].
    specialize (IH (if isDir && minorDirRegexp_MatchString path
                    then (acc ++ [Base path])%list else acc)).
    destruct (collectMinorVersions walk _) as [names|err].
    + destruct IH as (found & Hnames & Hsound & Hcomplete & Hnoerr).
      destruct (isDir && minorDirRegexp_MatchString path) eqn:Hsel.
      * exists (Base path :: found). rewrite Hnames, <- app_assoc.
        apply andb_prop in Hsel as [-> Hmatch].
        split; [reflexivity|]. split; [|split].
        -- intros v [<-|Hv].
           ++ exists path. repeat split; [left; reflexivity | exact Hmatch].
           ++ destruct (Hsound v Hv) as (p & Hp & Hm & Hb).
              exists p. repeat split; [right; exact Hp | exact Hm | exact Hb].
        -- intros p [[= -> ]|Hp] Hm; [left; reflexivity|].
           right. apply Hcomplete; assumption.
        -- intros p e [Hpe|Hpe]; [discriminate Hpe | exact (Hnoerr p e Hpe)].
      * exists found. split; [exact Hnames|]. split; [|split].
        -- intros v Hv. destruct (Hsound v Hv) as (p & Hp & Hm & Hb).
           exists p. repeat split; [right; exact Hp | exact Hm | exact Hb].
        -- intros p [[= -> ->]|Hp] Hm.
           ++ cbn [andb] in Hsel. congruence.
           ++ apply Hcomplete; assumption.
        -- intros p e [Hpe|Hpe]; [discriminate Hpe | exact (Hnoerr p e Hpe)].
    + destruct IH as (p & Hp). exists p. right. exact Hp.
  - cbn [collectMinorVersions]. exists path. left. reflexivity.
Qed.

Let getMinorVersionList_ := getMinorVersionList migration_walk SortVersion.

(** X21: [getMinorVersionList] returns the sorted names of exactly the
    directories of the walk whose path the pattern matches, so every name it
    sorts is [major.minor] with both parts non-empty strings of digits and
    belongs to the directory [migration/prod/major.minor]; it panics exactly
    when the walk reports an error, with that error. *)
Theorem getMinorVersionList_names :
  match getMinorVersionList_ with
  | Ok minorVersionList =>
      exists names,
        minorVersionList = SortVersion names
        /\ (forall v, In v names ->
              In (Visit ("migration/prod/" ++ v) true) migration_walk
              /\ exists major minor,
                   v = major ++ "." ++ minor
                   /\ major <> "" /\ minor <> ""
                   /\ NetURL.all_digits major = true
                   /\ NetURL.all_digits minor = true)
        /\ (forall major minor,
              major <> "" -> minor <> "" ->
              NetURL.all_digits major = true -> NetURL.all_digits minor = true ->
              In (Visit ("migration/prod/" ++ major ++ "." ++ minor) true)
                migration_walk ->
              In (major ++ "." ++ minor) names)
        /\ (forall path err, ~ In (VisitErr path err) migration_walk)
  | Err (Panicked err) => exists path, In (VisitErr path err) migration_walk
  | Err (Failed _) => False
  end.
Proof.
  unfold getMinorVersionList_, getMinorVersionList.
  pose proof (collectMinorVersions_spec migration_walk []) as Hspec.
  destruct (collectMinorVersions migration_walk []) as [names|err]; [|exact Hspec].
  destruct Hspec as (found & Hnames & Hsound & Hcomplete & Hnoerr).
  cbn [app] in Hnames. subst found. exists names.
  split; [reflexivity|]. split; [|split; [|exact Hnoerr]].
  - intros v Hv. destruct (Hsound v Hv) as (path & Hin & Hmatch & ->).
    destruct (minorDirRegexp_sound path Hmatch)
      as (major & minor & -> & Hmaj & Hmin & Hdmaj & Hdmin).
    rewrite (Base_of_minor_dir major minor Hdmaj Hdmin).
    split; [exact Hin|]. exists major, minor. repeat split; assumption.
  - intros major minor Hmaj Hmin Hdmaj Hdmin Hin.
    rewrite <- (Base_of_minor_dir major minor Hdmaj Hdmin).
    apply Hcomplete; [exact Hin|].
    apply minorDirRegexp_complete; assumption.
Qed.

(** ** [applyLatestSchema] *)

Let applyLatestSchema_ := applyLatestSchema (W:=W) migrationFS_ReadFile.

Lemma Sprintf_migrate_error (stmt : string) :
  Fmt.Sprintf "migrate error: statement %s" [stmt]
  = "migrate error: statement " ++ stmt.
Proof.
  cbn [Fmt.Sprintf Ascii.eqb Bool.eqb Fmt.extra String.append].
  rewrite append_nil_r. reflexivity.
Qed.

(** X22: [applyLatestSchema] reads [migration/prod/LATEST__SCHEMA.sql] in
    prod mode and [migration/dev/LATEST__SCHEMA.sql] in every other mode,
    demo included, and hands the whole file to the database as one
    statement; a file that cannot be read is reported without any call, and
    a statement that fails is reported with the statement in the message. *)
Theorem applyLatestSchema_path (profile : Profile) (w : W) :
  let latestSchemaPath :=
    if String.eqb (Mode profile) "prod"
    then "migration/prod/LATEST__SCHEMA.sql"
    else "migration/dev/LATEST__SCHEMA.sql" in
  match migrationFS_ReadFile latestSchemaPath with
  | Err err =>
      applyLatestSchema_ profile w
      = (w, [],
         Err (Failed ("failed to read latest schema " ++ Quote latestSchemaPath
                      ++ ": " ++ err)))
  | Ok stmt =>
      applyLatestSchema_ profile w
      = (fst (ExecContext w stmt), [EvExec stmt],
         match snd (ExecContext w stmt) with
         | Ok _ => Ok tt
         | Err err =>
             Err (Failed ("migrate error: statement " ++ stmt
                          ++ ": failed to execute statement: " ++ err))
         end)
  end.
Proof.
  unfold applyLatestSchema_, applyLatestSchema.
  assert (Fmt.Sprintf "migration/%s/%s"
            [if String.eqb (Mode profile) "prod" then "prod" else "dev";
             latestSchemaFileName]
          = if String.eqb (Mode profile) "prod"
            then "migration/prod/LATEST__SCHEMA.sql"
            else "migration/dev/LATEST__SCHEMA.sql") as ->
    by (destruct (String.eqb (Mode profile) "prod"); reflexivity).
  cbv zeta.
  unfold execute, mbind, step_bind, wrap, embedded, call, errors_Wrap.
  destruct (migrationFS_ReadFile _) as [stmt|err]; cbn [lift].
  - rewrite Sprintf_migrate_error.
    destruct (ExecContext w stmt) as [w' [[]|err]]; cbn [lift fst snd app];
      [reflexivity|].
    rewrite append_assoc. reflexivity.
  - rewrite append_assoc. reflexivity.
Qed.

(** ** [Open] *)

Let Open_ :=
  Open (W:=W) migrationFS_ReadFile migrationFS_Glob seedFS_ReadFile seedFS_Glob
    migration_walk GetCurrentVersion GetSchemaVersion IsVersionGreaterThan
    IsVersionGreaterOrEqualThan SortVersion.

Lemma Sprintf_open_error (dsn : string) :
  Fmt.Sprintf "failed to open db with dsn: %s" [dsn]
  = "failed to open db with dsn: " ++ dsn.
Proof.
  cbn [Fmt.Sprintf Ascii.eqb Bool.eqb Fmt.extra String.append].
  rewrite append_nil_r. reflexivity.
Qed.

(** The calls of [applyLatestSchema]: the statement of the schema file, or
    nothing when the file cannot be read. *)
Lemma applyLatestSchema_calls (profile : Profile) (w : W) :
  let latestSchemaPath :=
    Fmt.Sprintf "migration/%s/%s"
      [if String.eqb (Mode profile) "prod" then "prod" else "dev";
       latestSchemaFileName] in
  exists n,
    snd (fst (applyLatestSchema_ profile w))
    = firstn n [EvExec (statementOf migrationFS_ReadFile latestSchemaPath)]
    /\ (is_ok (snd (applyLatestSchema_ profile w)) = true ->
        n = 1 /\ is_ok (migrationFS_ReadFile latestSchemaPath) = true).
Proof.
  cbv zeta. unfold applyLatestSchema_, applyLatestSchema, statementOf.
  unfold execute, mbind, step_bind, wrap, embedded, call.
  destruct (migrationFS_ReadFile _) as [stmt|err]; cbn [lift].
  - exists 1. destruct (ExecContext w stmt) as [w' r].
    split; [reflexivity|]. split; reflexivity.
  - exists 0. split; [reflexivity | discriminate].
Qed.

(** The calls of [seed] against its schedule. *)
Lemma seed_calls (w : W) :
  let schedule :=
    match seedFS_Glob "seed/*.sql" with
    | Ok filenames => executions seedFS_ReadFile (sort_Strings filenames)
    | Err _ => []
    end in
  exists n, snd (fst (seed_ w)) = firstn n schedule.
Proof.
  cbv zeta. unfold seed_, seed.
  destruct (seedFS_Glob _) as [filenames|err]; [|exists 0; reflexivity].
  destruct (file_loop_schedule seedFS_ReadFile
              "failed to read seed file, filename %s" "seed error: statement %s"
              (sort_Strings filenames) w) as (n & Hn & _).
  unfold mbind, step_bind, wrap, embedded. cbn [lift].
  destruct (forEach _ _ w) as [[w1 t1] r1]; cbn [fst snd app] in *.
  exists n. exact Hn.
Qed.

(** X23: [Open] refuses an empty DSN before calling anything. Otherwise its
    first call opens the sqlite driver on the DSN followed by the three
    pragmas, and when that call fails it is the only call and its error is
    returned with the DSN in the message. *)
Theorem Open_connects_first (profile : Profile) (w : W) :
  let dataSourceName :=
    DSN profile
    ++ "?_pragma=foreign_keys(0)&_pragma=busy_timeout(10000)&_pragma=journal_mode(WAL)" in
  if String.eqb (DSN profile) ""
  then Open_ profile w = (w, [], Err (Failed "dsn required"))
  else
    exists rest,
      snd (fst (Open_ profile w)) = EvSqlOpen "sqlite" dataSourceName :: rest
      /\ (forall err,
            snd (sql_Open w "sqlite" dataSourceName) = Err err ->
            Open_ profile w
            = (fst (sql_Open w "sqlite" dataSourceName),
               [EvSqlOpen "sqlite" dataSourceName],
               Err (Failed ("failed to open db with dsn: " ++ DSN profile
                            ++ ": " ++ err)))).
Proof.
  cbv zeta. unfold Open_, Open. fold pragmas.
  destruct (String.eqb (DSN profile) ""); [reflexivity|].
  rewrite Sprintf_open_error.
  set (rest := fun _ : unit => _).
  unfold mbind, step_bind, wrap, call.
  destruct (sql_Open w "sqlite" (DSN profile ++ pragmas)) as [w1 [[]|e]];
    cbn [lift fst snd].
  - match goal with
    | |- context [let '(_, _) := ?x in _] => destruct x as [[w2 t2] r2]
    end.
    exists t2. split; [reflexivity | discriminate].
  - exists []. split; [reflexivity|].
    intros err [= <-]. unfold errors_Wrap. rewrite append_assoc. reflexivity.
Qed.

(** X24: an error of [os.Stat] other than "does not exist" ends [Open] in
    prod mode, and is ignored in every other mode, where [Open] returns nil
    without having created anything. *)
Theorem Open_stat_error (profile : Profile) (w w1 w2 : W) (err : error) :
  DSN profile <> "" ->
  sql_Open w "sqlite" (DSN profile ++ pragmas) = (w1, Ok tt) ->
  os_Stat w1 (DSN profile) = (w2, StatErr err false) ->
  Open_ profile w
  = (w2,
     [EvSqlOpen "sqlite" (DSN profile ++ pragmas); EvStat (DSN profile)],
     if String.eqb (Mode profile) "prod"
     then Err (Failed ("failed to get db file stat: " ++ err))
     else Ok tt).
Proof.
  intros Hdsn Hopen Hstat. unfold Open_, Open.
  destruct (String.eqb_spec (DSN profile) ""); [contradiction|].
  unfold mbind, step_bind, wrap, call, stat, fail, mret, step_ret.
  rewrite Hopen. cbn [lift].
  destruct (String.eqb (Mode profile) "prod"); rewrite Hstat; reflexivity.
Qed.

(** X25: in a mode other than prod, [Open] works through this schedule and
    nothing else: open the driver, stat the file, execute the dev schema
    and, in demo mode, the seed files in ascending order of their names. It
    never reads or writes the migration history and never makes a
    backup; and it executes a statement only
    when [os.Stat] reports that the file does not exist, so that an existing
    database is left as it is, whatever its version. *)
Theorem Open_non_prod_only_creates (profile : Profile) (w : W) :
  Mode profile <> "prod" ->
  let calls := snd (fst (Open_ profile w)) in
  let schedule :=
    ([EvSqlOpen "sqlite" (DSN profile ++ pragmas);
      EvStat (DSN profile);
      EvExec (statementOf migrationFS_ReadFile "migration/dev/LATEST__SCHEMA.sql")]
     ++ (if String.eqb (Mode profile) "demo"
         then match seedFS_Glob "seed/*.sql" with
              | Ok filenames => executions seedFS_ReadFile (sort_Strings filenames)
              | Err _ => []
              end
         else []))%list in
  (exists n, calls = firstn n schedule)
  /\ (forall stmt, In (EvExec stmt) calls ->
      exists err,
        snd (os_Stat (fst (sql_Open w "sqlite" (DSN profile ++ pragmas)))
               (DSN profile))
        = StatErr err true).
Proof.
  intros Hmode. cbv zeta. unfold Open_, Open.
  destruct (String.eqb (DSN profile) "").
  { split; [exists 0; reflexivity | intros stmt []]. }
  destruct (String.eqb_spec (Mode profile) "prod") as [|_]; [contradiction|].
  unfold mbind, step_bind, wrap, call, stat, mret, step_ret.
  destruct (sql_Open w "sqlite" (DSN profile ++ pragmas)) as [w1 [[]|e]];
    cbn [lift fst snd].
  2:{ split; [exists 1; reflexivity|].
      intros stmt [Hin|[]]; discriminate Hin. }
  destruct (os_Stat w1 (DSN profile)) as [w2 st]. cbn [snd].
  assert (forall t r,
            (exists n, ([EvSqlOpen "sqlite" (DSN profile ++ pragmas)]
                        ++ [EvStat (DSN profile)] ++ [])%list
                       = firstn n ([EvSqlOpen "sqlite" (DSN profile ++ pragmas);
                                    EvStat (DSN profile)] ++ t)%list)
            /\ (forall stmt,
                  In (EvExec stmt)
                    ([EvSqlOpen "sqlite" (DSN profile ++ pragmas)]
                     ++ [EvStat (DSN profile)] ++ [])%list ->
                  exists err : error, st = StatErr err r)) as Hidle.
  { intros t r. split; [exists 2; reflexivity|].
    intros stmt [Hin|[Hin|[]]]; discriminate Hin. }
  destruct st as [|err [|]];
    [exact (Hidle _ true) | | exact (Hidle _ true)].
  clear Hidle.
  pose proof (applyLatestSchema_calls profile w2) as Hschema.
  cbv zeta in Hschema.
  destruct (String.eqb_spec (Mode profile) "prod") as [|_]; [contradiction|].
  change (Fmt.Sprintf "migration/%s/%s" ["dev"; latestSchemaFileName])
    with "migration/dev/LATEST__SCHEMA.sql" in Hschema.
  destruct Hschema as (n1 & Hn1 & Hok1).
  fold applyLatestSchema_.
  unfold mbind, step_bind, wrap, mret, step_ret.
  destruct (applyLatestSchema_ profile w2) as [[w3 t3] r3];
    cbn [fst snd] in Hn1, Hok1.
  split.
  2:{ intros _ _. exists err. reflexivity. }
  destruct r3 as [[]|e3]; cbn [is_ok] in Hok1.
  - rewrite (proj1 (Hok1 eq_refl)) in Hn1. cbn [firstn] in Hn1. subst t3.
    destruct (String.eqb (Mode profile) "demo").
    + destruct (seed_calls w3) as (n2 & Hn2). cbv zeta in Hn2.
      fold seed_. destruct (seed_ w3) as [[w4 t4] r4]; cbn [fst snd] in Hn2.
      exists (3 + n2). cbn [app fst snd]. rewrite Hn2.
      destruct r4 as [|[]]; reflexivity.
    + exists 3. reflexivity.
  - subst t3.
    destruct n1 as [|n1]; [exists 2 | exists 3]; destruct e3;
      cbn [firstn app fst snd]; rewrite ?firstn_nil; reflexivity.
Qed.

(** X26: in prod mode, when [os.Stat] reports that the database file does
    not exist, [Open] executes the prod schema and then records the current
    version in the migration history; it applies no migration. The history
    is written only after the schema was executed, and [Open] returns nil
    only after both. *)
Theorem Open_prod_new_database (profile : Profile) (w w1 w2 : W) (err : error) :
  Mode profile = "prod" ->
  DSN profile <> "" ->
  sql_Open w "sqlite" (DSN profile ++ pragmas) = (w1, Ok tt) ->
  os_Stat w1 (DSN profile) = (w2, StatErr err true) ->
  let calls := snd (fst (Open_ profile w)) in
  let schedule :=
    [EvSqlOpen "sqlite" (DSN profile ++ pragmas);
     EvStat (DSN profile);
     EvExec (statementOf migrationFS_ReadFile "migration/prod/LATEST__SCHEMA.sql");
     EvUpsertMigrationHistory (GetCurrentVersion "prod")] in
  (exists n, 2 <= n /\ calls = firstn n schedule)
  /\ (is_ok (snd (Open_ profile w)) = true -> calls = schedule)
  /\ (is_ok (snd (Open_ profile w)) = true ->
      is_ok (migrationFS_ReadFile "migration/prod/LATEST__SCHEMA.sql") = true).
Proof.
  intros Hmode Hdsn Hopen Hstat. cbv zeta. unfold Open_, Open.
  destruct (String.eqb_spec (DSN profile) ""); [contradiction|].
  pose proof (applyLatestSchema_calls profile w2) as Hschema.
  cbv zeta in Hschema.
  rewrite Hmode in *. cbn [String.eqb Ascii.eqb Bool.eqb] in *.
  change (Fmt.Sprintf "migration/%s/%s" ["prod"; latestSchemaFileName])
    with "migration/prod/LATEST__SCHEMA.sql" in Hschema.
  destruct Hschema as (n1 & Hn1 & Hok1).
  unfold upsertMigrationHistory, mbind, step_bind, wrap, call, stat, mret,
    step_ret.
  rewrite Hopen. cbn [lift]. rewrite Hstat. cbn [negb].
  fold applyLatestSchema_.
  destruct (applyLatestSchema_ profile w2) as [[w3 t3] [[]|e3]];
    cbn [fst snd is_ok] in Hn1, Hok1 |- *.
  - destruct (Hok1 eq_refl) as [-> Hread]. cbn [firstn] in Hn1. subst t3.
    destruct (UpsertMigrationHistory w3 _) as [w4 [h|e]];
      cbn [lift fst snd app is_ok];
      (split; [exists 4; split; [lia | reflexivity]|]);
      split; intros; first [reflexivity | assumption | discriminate].
  - subst t3. split; [|split; destruct e3; discriminate].
    destruct n1 as [|n1]; [exists 2 | exists 3]; destruct e3;
      cbn [firstn app fst snd]; rewrite ?firstn_nil;
      (split; [lia | reflexivity]).
Qed.

(** ** The migration of an existing prod database *)

Lemma forEach_projected {A X : Type} (pr : list event -> list X)
    (l : list A) (body : A -> step (W:=W) unit) (ev : A -> list X) :
  pr [] = [] ->
  (forall a b, pr (a ++ b)%list = (pr a ++ pr b)%list) ->
  (forall x w, exists n,
      pr (snd (fst (body x w))) = firstn n (ev x)
      /\ (is_ok (snd (body x w)) = true -> pr (snd (fst (body x w))) = ev x)) ->
  forall w, exists n,
    pr (snd (fst (forEach l body w))) = firstn n (concat (map ev l))
    /\ (is_ok (snd (forEach l body w)) = true
        -> pr (snd (fst (forEach l body w))) = concat (map ev l)).
Proof.
  intros Hnil Happ Hbody. induction l as [|x l IH]; intros w.
  - exists 0. cbn [forEach mret step_ret fst snd map concat firstn].
    split; [exact Hnil | intros _; exact Hnil].
  - cbn [forEach map concat]. unfold mbind, step_bind.
    destruct (Hbody x w) as (n1 & Hn1 & Hall1).
    destruct (body x w) as [[w1 t1] [[]|e]]; cbn [fst snd is_ok] in *.
    + destruct (IH w1) as (n2 & Hn2 & Hall2).
      destruct (forEach l body w1) as [[w2 t2] r2]; cbn [fst snd] in *.
      rewrite Happ, (Hall1 eq_refl). exists (List.length (ev x) + n2). split.
      * rewrite firstn_app_2, Hn2. reflexivity.
      * intros Hok. rewrite (Hall2 Hok). reflexivity.
    + destruct (firstn_within_app n1 (ev x) (concat (map ev l))) as (m & Hm).
      exists m. rewrite Hn1. split; [exact Hm | discriminate].
Qed.

Lemma forEach_events {A : Type} (P : event -> Prop)
    (l : list A) (body : A -> step (W:=W) unit) :
  (forall x w e, In e (snd (fst (body x w))) -> P e) ->
  forall w e, In e (snd (fst (forEach l body w))) -> P e.
Proof.
  intros Hbody. induction l as [|x l IH]; intros w e.
  - intros [].
  - cbn [forEach]. unfold mbind, step_bind.
    pose proof (Hbody x w e) as Hx.
    destruct (body x w) as [[w1 t1] [[]|f]]; cbn [fst snd] in *; [|exact Hx].
    pose proof (IH w1 e) as Hl.
    destruct (forEach l body w1) as [[w2 t2] r2]; cbn [fst snd] in *.
    intros Hin. apply in_app_or in Hin as [Hin|Hin]; auto.
Qed.

Lemma upsert_calls_app (a b : list event) :
  upsert_calls (a ++ b) = (upsert_calls a ++ upsert_calls b)%list.
Proof. apply flat_map_app. Qed.

Lemma upsert_calls_executions (read : string -> result error string)
    (filenames : list string) :
  upsert_calls (executions read filenames) = [].
Proof. induction filenames as [|f l IH]; [reflexivity | exact IH]. Qed.

Lemma upsert_calls_none (t : list event) :
  upsert_calls t = [] \/ exists version, In (EvUpsertMigrationHistory version) t.
Proof.
  induction t as [|e t [IH|(v & Hv)]].
  - left. reflexivity.
  - destruct e; try (left; exact IH). right. eexists. left. reflexivity.
  - right. exists v. right. exact Hv.
Qed.

(** One minor version upserts its own version, once, and not at all when a
    file fails. *)
Lemma applyMigrationForMinorVersion_upserts (minorVersion : string) (w : W) :
  exists n,
    upsert_calls (snd (fst (applyMigrationForMinorVersion_ minorVersion w)))
    = firstn n [minorVersion ++ ".0"]
    /\ (is_ok (snd (applyMigrationForMinorVersion_ minorVersion w)) = true ->
        upsert_calls (snd (fst (applyMigrationForMinorVersion_ minorVersion w)))
        = [minorVersion ++ ".0"]).
Proof.
  pose proof (applyMigrationForMinorVersion_calls minorVersion w) as Hcalls.
  destruct (migrationFS_Glob _) as [filenames|err].
  - cbv zeta in Hcalls. destruct Hcalls as (_ & Hok & Hup).
    assert (upsert_calls
              (executions migrationFS_ReadFile (sort_Strings filenames)
               ++ [EvUpsertMigrationHistory (minorVersion ++ ".0")])
            = [minorVersion ++ ".0"]) as Hschedule.
    { rewrite upsert_calls_app, upsert_calls_executions. reflexivity. }
    destruct (upsert_calls_none
                (snd (fst (applyMigrationForMinorVersion_ minorVersion w))))
      as [Hnone|(v & Hv)].
    + exists 0. split; [exact Hnone|].
      intros Hr. rewrite (Hok Hr). exact Hschedule.
    + exists 1. rewrite (Hup v Hv). split; [|intros _]; exact Hschedule.
  - rewrite Hcalls. exists 0. split; [reflexivity | discriminate].
Qed.

Lemma applyMigrationForMinorVersion_events (minorVersion : string) (w : W)
    (e : event) :
  In e (snd (fst (applyMigrationForMinorVersion_ minorVersion w))) ->
  migration_call e.
Proof.
  pose proof (applyMigrationForMinorVersion_calls minorVersion w) as Hcalls.
  destruct (migrationFS_Glob _) as [filenames|err].
  - cbv zeta in Hcalls. destruct Hcalls as ((n & Hn) & _). rewrite Hn.
    intros Hin. apply In_firstn in Hin. apply in_app_or in Hin as [Hin|[<-|[]]].
    + unfold executions in Hin. apply in_map_iff in Hin as (f & <- & _).
      exact I.
    + exact I.
  - rewrite Hcalls. intros [].
Qed.

Let migrate_ :=
  migrate (W:=W) migrationFS_ReadFile migrationFS_Glob IsVersionGreaterThan
    IsVersionGreaterOrEqualThan.

(** The versions [migrate] selects: newer than the latest version of the
    history, and not newer than the current version. *)
Lemma migrate_upserts (currentVersion latest : string)
    (minorVersionList : list string) (w : W) :
  let selected :=
    List.filter
      (fun minorVersion =>
         IsVersionGreaterThan (minorVersion ++ ".0") latest
         && IsVersionGreaterOrEqualThan currentVersion (minorVersion ++ ".0"))
      minorVersionList in
  let applied :=
    upsert_calls (snd (fst (migrate_ currentVersion latest minorVersionList w))) in
  (exists n, applied = firstn n (map (fun v => v ++ ".0") selected))
  /\ (is_ok (snd (migrate_ currentVersion latest minorVersionList w)) = true ->
      applied = map (fun v => v ++ ".0") selected).
Proof.
  cbv zeta. unfold migrate_, migrate.
  set (select := fun minorVersion : string =>
         IsVersionGreaterThan (minorVersion ++ ".0") latest
         && IsVersionGreaterOrEqualThan currentVersion (minorVersion ++ ".0")).
  assert (map (fun v => v ++ ".0") (List.filter select minorVersionList)
          = concat (map (fun v => if select v then [v ++ ".0"] else [])
                      minorVersionList)) as ->.
  { induction minorVersionList as [|v l IH]; [reflexivity|].
    cbn [List.filter map concat]. destruct (select v); cbn [map app];
      rewrite IH; reflexivity. }
  match goal with
  | |- context [forEach minorVersionList ?body w] =>
      destruct (forEach_projected upsert_calls minorVersionList body
                  (fun v => if select v then [v ++ ".0"] else [])
                  eq_refl upsert_calls_app) with (w := w) as (n & Hn & Hall)
  end.
  - intros v w0. cbv beta. fold (select v). destruct (select v).
    + fold applyMigrationForMinorVersion_.
      destruct (applyMigrationForMinorVersion_upserts v w0) as (n & Hn & Hall).
      unfold mbind, step_bind, slog_Log, wrap.
      destruct (applyMigrationForMinorVersion_ v w0) as [[w1 t1] r1];
        cbn [fst snd app] in *.
      exists n. split; [exact Hn|].
      intros Hr. apply Hall. destruct r1 as [|[]]; [reflexivity | | ];
        discriminate Hr.
    + exists 0. split; reflexivity.
  - split; [exists n; exact Hn | exact Hall].
Qed.

Lemma migrate_events (currentVersion latest : string)
    (minorVersionList : list string) (w : W) (e : event) :
  In e (snd (fst (migrate_ currentVersion latest minorVersionList w))) ->
  migration_call e.
Proof.
  unfold migrate_, migrate. apply forEach_events. clear w e.
  intros v w e. cbv beta.
  destruct (_ && _); [|intros []].
  fold applyMigrationForMinorVersion_.
  pose proof (applyMigrationForMinorVersion_events v w e) as Hev.
  unfold mbind, step_bind, slog_Log, wrap.
  destruct (applyMigrationForMinorVersion_ v w) as [[w1 t1] r1];
    cbn [fst snd app] in *.
  intros [<-|Hin]; [exact I | exact (Hev Hin)].
Qed.

Let getMinorVersionList' := getMinorVersionList migration_walk SortVersion.

Lemma Sprintf_backup (data version now : string) :
  Fmt.Sprintf "%s/slash_%s_%s_backup.db" [data; version; now]
  = data ++ "/slash_" ++ version ++ "_" ++ now ++ "_backup.db".
Proof. reflexivity. Qed.

Ltac no_such_call Hin :=
  cbn [app In] in Hin;
  repeat (destruct Hin as [Hin|Hin]; [discriminate Hin|]);
  try contradiction.

(** X27: [Open] on an existing prod database executes no statement before
    it has copied the database file. Whenever a statement is executed, the
    calls before it begin with the lookup of the migration history, the
    read of the file at the DSN, the clock, and the write, with mode 0644,
    of the bytes that read returned to
    [<data>/slash_<version>_<unix time>_backup.db], where the time is the
    one the clock returned; the read and the write went through. The backup
    is removed only when the migration went through: a call to [os.Remove]
    is for the file so written, and [Open] then returns nil, also when the
    removal fails. *)
Theorem Open_prod_backup_first (profile : Profile) (w w1 w2 : W) :
  Mode profile = "prod" ->
  DSN profile <> "" ->
  sql_Open w "sqlite" (DSN profile ++ pragmas) = (w1, Ok tt) ->
  os_Stat w1 (DSN profile) = (w2, StatOk) ->
  let calls := snd (fst (Open_ profile w)) in
  let copied_to (name : string) : Prop :=
    exists w3 w4 w5 w6 history rawBytes now rest,
      FindMigrationHistoryList w2 = (w3, Ok history)
      /\ os_ReadFile w3 (DSN profile) = (w4, Ok rawBytes)
      /\ time_Now_Unix w4 = (w5, now)
      /\ name = Data profile ++ "/slash_" ++ Version profile ++ "_"
                ++ Itoa now ++ "_backup.db"
      /\ os_WriteFile w5 name rawBytes 420 = (w6, Ok tt)
      /\ calls
         = ([EvSqlOpen "sqlite" (DSN profile ++ pragmas);
             EvStat (DSN profile);
             EvFindMigrationHistoryList;
             EvReadFile (DSN profile);
             EvNow;
             EvWriteFile name rawBytes 420] ++ rest)%list in
  (forall stmt, In (EvExec stmt) calls -> exists name, copied_to name)
  /\ (forall name, In (EvRemove name) calls ->
      snd (Open_ profile w) = Ok tt /\ copied_to name).
Proof.
  intros Hmode Hdsn Hopen Hstat. cbv zeta.
  remember (Open_ profile w) as o eqn:Ho.
  unfold Open_, Open in Ho.
  destruct (String.eqb_spec (DSN profile) ""); [contradiction|].
  rewrite Hmode in Ho. cbn [String.eqb Ascii.eqb Bool.eqb] in Ho.
  unfold migrateExisting, upsertMigrationHistory, removeBackup, mbind,
    step_bind, wrap, call, stat, slog_Log, panic, mret, step_ret in Ho.
  rewrite Hopen in Ho. cbn [lift] in Ho. rewrite Hstat in Ho.
  fold getMinorVersionList' in Ho.
  remember (FindMigrationHistoryList w2) as found eqn:Hfind in Ho.
  symmetry in Hfind. destruct found as [w3 [[|h hl]|e]]; cbn [lift] in Ho.
  - destruct (UpsertMigrationHistory w3 _) as [w4 [h|e]]; subst o;
      cbn [lift fst snd]; split; intros x Hin; no_such_call Hin.
  - destruct (list.last _) as [latest|];
      [|subst o; cbn [fst snd]; split; intros x Hin; no_such_call Hin].
    destruct (IsVersionGreaterThan _ latest);
      [|subst o; cbn [fst snd]; split; intros x Hin; no_such_call Hin].
    destruct getMinorVersionList' as [minorVersionList|f];
      [|subst o; cbn [fst snd]; split; intros x Hin; no_such_call Hin].
    remember (os_ReadFile w3 (DSN profile)) as read eqn:Hread in Ho.
    symmetry in Hread. destruct read as [w4 [rawBytes|e]]; cbn [lift] in Ho;
      [|subst o; cbn [fst snd]; split; intros x Hin; no_such_call Hin].
    remember (time_Now_Unix w4) as clock eqn:Hnow in Ho.
    symmetry in Hnow. destruct clock as [w5 now].
    rewrite Sprintf_backup in Ho.
    set (name := Data profile ++ "/slash_" ++ Version profile ++ "_"
                 ++ Itoa now ++ "_backup.db") in Ho.
    remember (os_WriteFile w5 name rawBytes 420) as written eqn:Hwrite in Ho.
    symmetry in Hwrite. destruct written as [w6 [[]|e]]; cbn [lift] in Ho;
      [|subst o; cbn [fst snd]; split; intros x Hin; no_such_call Hin].
    pose proof (migrate_events (GetCurrentVersion "prod") latest
                  minorVersionList w6) as Hev.
    unfold migrate_ in Hev.
    destruct (migrate _ _ _ _ _ _ _ w6) as [[w7 t] [[]|f]];
      cbn [fst snd] in Hev.
    + destruct (os_Remove w7 name) as [w8 [[]|e]]; subst o; cbn [fst snd app].
      all: split;
        [intros stmt _; exists name, w3, w4, w5, w6, (h :: hl), rawBytes, now;
         eexists; repeat split; first [eassumption | reflexivity]|].
      all: intros x Hin; (split; [reflexivity|]).
      all: repeat (destruct Hin as [Hin|Hin]; [discriminate Hin|]).
      all: apply in_app_or in Hin as [Hin|Hin];
        [apply Hev in Hin; contradiction|].
      all: destruct Hin as [Hin|Hin]; [discriminate Hin|].
      all: destruct Hin as [Hin|Hin]; [|no_such_call Hin].
      all: injection Hin as <-.
      all: exists w3, w4, w5, w6, (h :: hl), rawBytes, now;
        eexists; repeat split; first [eassumption | reflexivity].
    + subst o; cbn [fst snd app].
      split.
      * intros stmt _. exists name, w3, w4, w5, w6, (h :: hl), rawBytes, now.
        eexists. repeat split; first [eassumption | reflexivity].
      * intros x Hin.
        repeat (destruct Hin as [Hin|Hin]; [discriminate Hin|]).
        rewrite ?app_nil_r in Hin. apply Hev in Hin. contradiction.
  - subst o; cbn [fst snd]; split; intros x Hin; no_such_call Hin.
Qed.

(** X28: when the schema version of the release is newer than the latest
    version of the migration history, [Open] applies, of the minor versions
    [getMinorVersionList] returns and in that order, exactly those whose
    [<minor>.0] is newer than the latest version of the history and not
    newer than the current version: the versions it upserts into the
    history are an initial segment of them, and all of them when it returns
    nil. When the schema version is not newer, it only looks up the
    history. *)
Theorem Open_prod_migrates_selected (profile : Profile) (w w1 w2 w3 : W)
    (first : MigrationHistory) (others : list MigrationHistory)
    (latest : string) (minorVersionList : list string) :
  Mode profile = "prod" ->
  DSN profile <> "" ->
  sql_Open w "sqlite" (DSN profile ++ pragmas) = (w1, Ok tt) ->
  os_Stat w1 (DSN profile) = (w2, StatOk) ->
  FindMigrationHistoryList w2 = (w3, Ok (first :: others)) ->
  list.last (SortVersion (map HistoryVersion (first :: others))) = Some latest ->
  getMinorVersionList' = Ok minorVersionList ->
  let currentVersion := GetCurrentVersion "prod" in
  let selected :=
    List.filter
      (fun minorVersion =>
         IsVersionGreaterThan (minorVersion ++ ".0") latest
         && IsVersionGreaterOrEqualThan currentVersion (minorVersion ++ ".0"))
      minorVersionList in
  let applied := upsert_calls (snd (fst (Open_ profile w))) in
  if IsVersionGreaterThan (GetSchemaVersion currentVersion) latest
  then (exists n, applied = firstn n (map (fun v => v ++ ".0") selected))
       /\ (is_ok (snd (Open_ profile w)) = true ->
           applied = map (fun v => v ++ ".0") selected)
  else Open_ profile w
       = (w3,
          [EvSqlOpen "sqlite" (DSN profile ++ pragmas); EvStat (DSN profile);
           EvFindMigrationHistoryList],
          Ok tt).
Proof.
  intros Hmode Hdsn Hopen Hstat Hfind Hlast Hlist. cbv zeta.
  remember (Open_ profile w) as o eqn:Ho.
  unfold Open_, Open in Ho.
  destruct (String.eqb_spec (DSN profile) ""); [contradiction|].
  rewrite Hmode in Ho. cbn [String.eqb Ascii.eqb Bool.eqb] in Ho.
  unfold migrateExisting, upsertMigrationHistory, removeBackup, mbind,
    step_bind, wrap, call, stat, slog_Log, panic, mret, step_ret in Ho.
  rewrite Hopen in Ho. cbn [lift] in Ho. rewrite Hstat, Hfind in Ho.
  cbn [lift] in Ho. rewrite Hlast in Ho.
  fold getMinorVersionList' in Ho. rewrite Hlist in Ho.
  destruct (IsVersionGreaterThan _ latest); [|exact Ho].
  destruct (os_ReadFile w3 (DSN profile)) as [w4 [rawBytes|e]];
    cbn [lift] in Ho;
    [|subst o; split; [exists 0; reflexivity | discriminate]].
  destruct (time_Now_Unix w4) as [w5 now].
  destruct (os_WriteFile w5 _ rawBytes 420) as [w6 [[]|e]]; cbn [lift] in Ho;
    [|subst o; split; [exists 0; reflexivity | discriminate]].
  destruct (migrate_upserts (GetCurrentVersion "prod") latest minorVersionList w6)
    as [(k & Hn) Hall].
  unfold migrate_ in Hn, Hall.
  destruct (migrate _ _ _ _ _ _ _ w6) as [[w7 t] [[]|f]];
    cbn [fst snd is_ok] in Hn, Hall.
  - destruct (os_Remove w7 _) as [w8 [[]|e]]; subst o; cbn [fst snd app];
      (split; [exists k|intros _; rewrite <- (Hall eq_refl)]);
      rewrite ?Hn;
      repeat (rewrite upsert_calls_app || cbn [upsert_calls flat_map app]);
      rewrite ?app_nil_r; try exact Hn; reflexivity.
  - subst o; cbn [fst snd app is_ok]. split; [|discriminate].
    exists k. rewrite ?app_nil_r. exact Hn.
Qed.

End PackageFacts.


(** ** Runs on the sample world *)

Lemma Open_stat_error_witness :
  sample_Open dev_profile locked_world
  = (locked_world,
     [EvSqlOpen "sqlite" (DSN dev_profile ++ pragmas); EvStat (DSN dev_profile)],
     Ok tt)
  /\ sample_Open prod_profile locked_world
     = (locked_world,
        [EvSqlOpen "sqlite" (DSN prod_profile ++ pragmas);
         EvStat (DSN prod_profile)],
        Err (Failed "failed to get db file stat: permission denied")).
Proof.
  split.
  - apply (Open_stat_error (readFrom sample_migrationFS) sample_Glob
             (readFrom sample_seedFS) sample_Glob sample_walk
             sample_GetCurrentVersion sample_GetSchemaVersion
             sample_IsVersionGreaterThan sample_IsVersionGreaterOrEqualThan
             sort_Strings dev_profile locked_world locked_world locked_world
             "permission denied");
      [discriminate | reflexivity | reflexivity].
  - apply (Open_stat_error (readFrom sample_migrationFS) sample_Glob
             (readFrom sample_seedFS) sample_Glob sample_walk
             sample_GetCurrentVersion sample_GetSchemaVersion
             sample_IsVersionGreaterThan sample_IsVersionGreaterOrEqualThan
             sort_Strings prod_profile locked_world locked_world locked_world
             "permission denied");
      [discriminate | reflexivity | reflexivity].
Defined.

Lemma Open_non_prod_only_creates_witness :
  exists n,
    snd (fst (sample_Open demo_profile fresh_world))
    = firstn n
        [EvSqlOpen "sqlite" (DSN demo_profile ++ pragmas);
         EvStat (DSN demo_profile);
         EvExec "CREATE TABLE shortcut (id INTEGER);";
         EvExec "DELETE FROM shortcut;"].
Proof.
  refine (proj1 (Open_non_prod_only_creates (readFrom sample_migrationFS)
                   sample_Glob (readFrom sample_seedFS) sample_Glob sample_walk
                   sample_GetCurrentVersion sample_GetSchemaVersion
                   sample_IsVersionGreaterThan
                   sample_IsVersionGreaterOrEqualThan sort_Strings
                   demo_profile fresh_world _)).
  discriminate.
Defined.

Lemma Open_prod_new_database_witness :
  snd (fst (sample_Open prod_profile fresh_world))
  = [EvSqlOpen "sqlite" (DSN prod_profile ++ pragmas);
     EvStat (DSN prod_profile);
     EvExec "CREATE TABLE shortcut (id INTEGER, title TEXT, tag TEXT);";
     EvUpsertMigrationHistory "0.3.1"].
Proof.
  refine (proj1 (proj2 (Open_prod_new_database (readFrom sample_migrationFS)
                   sample_Glob (readFrom sample_seedFS) sample_Glob sample_walk
                   sample_GetCurrentVersion sample_GetSchemaVersion
                   sample_IsVersionGreaterThan
                   sample_IsVersionGreaterOrEqualThan sort_Strings
                   prod_profile fresh_world fresh_world fresh_world
                   ("stat " ++ DSN prod_profile ++ ": no such file or directory")
                   _ _ _ _)) _);
    [reflexivity | discriminate | reflexivity | reflexivity | reflexivity].
Defined.

Lemma Open_prod_backup_first_witness :
  let calls := snd (fst (sample_Open prod_profile old_world)) in
  let copied_to (name : string) : Prop :=
    exists w3 w4 w5 w6 history rawBytes now rest,
      FindMigrationHistoryList old_world = (w3, Ok history)
      /\ os_ReadFile w3 (DSN prod_profile) = (w4, Ok rawBytes)
      /\ time_Now_Unix w4 = (w5, now)
      /\ name = Data prod_profile ++ "/slash_" ++ Version prod_profile ++ "_"
                ++ Itoa now ++ "_backup.db"
      /\ os_WriteFile w5 name rawBytes 420 = (w6, Ok tt)
      /\ calls
         = ([EvSqlOpen "sqlite" (DSN prod_profile ++ pragmas);
             EvStat (DSN prod_profile);
             EvFindMigrationHistoryList;
             EvReadFile (DSN prod_profile);
             EvNow;
             EvWriteFile name rawBytes 420] ++ rest)%list in
  In (EvExec "CREATE INDEX idx ON shortcut (id);") calls
  /\ In (EvRemove "/var/opt/slash/slash_0.3.1_1700000000_backup.db") calls
  /\ (forall stmt, In (EvExec stmt) calls -> exists name, copied_to name)
  /\ (forall name, In (EvRemove name) calls ->
      snd (sample_Open prod_profile old_world) = Ok tt /\ copied_to name).
Proof.
  split; [vm_compute; tauto|]. split; [vm_compute; tauto|].
  apply (Open_prod_backup_first (readFrom sample_migrationFS) sample_Glob
           (readFrom sample_seedFS) sample_Glob sample_walk
           sample_GetCurrentVersion sample_GetSchemaVersion
           sample_IsVersionGreaterThan sample_IsVersionGreaterOrEqualThan
           sort_Strings prod_profile old_world old_world old_world);
    [reflexivity | discriminate | reflexivity | reflexivity].
Defined.

Lemma Open_prod_migrates_selected_witness :
  upsert_calls (snd (fst (sample_Open prod_profile old_world)))
  = ["0.2.0"; "0.3.0"].
Proof.
  refine (proj2 (Open_prod_migrates_selected (readFrom sample_migrationFS)
                   sample_Glob (readFrom sample_seedFS) sample_Glob sample_walk
                   sample_GetCurrentVersion sample_GetSchemaVersion
                   sample_IsVersionGreaterThan
                   sample_IsVersionGreaterOrEqualThan sort_Strings
                   prod_profile old_world old_world old_world old_world
                   (mkMigrationHistory "0.1.0" 1600000000) [] "0.1.0"
                   ["0.2"; "0.3"] _ _ _ _ _ _ _) _);
    [reflexivity | discriminate | reflexivity | reflexivity | reflexivity
    | reflexivity | reflexivity | reflexivity].
Defined.

End DBFacts.
